(** * Query translation and resilient retrieval: a shallow embedding

    The development follows the Python sources of the search API:
    [Helpers.py] (identifier codec, submission lookup), [Parameters.py]
    (parameter normalisation), [Comment.py] and [Submission.py] (request
    handlers, failover executor, response and aggregation processing),
    [DBFunctions.py] (the retry loop of the database manager) and
    [User.py] (the user analysis).

    Conventions of the embedding.
    - Python values are the inductive [pyval]; a [dict] with string keys is
      a [gmap string pyval].
    - A call that may raise returns a [result]; the exception classes that
      the sources raise or catch are the constructors of [exn].
    - A [str] is held one character per [ascii]: the strings of the model
      are those whose characters lie below U+0100. On them [str.lower] and
      the white space that [int] skips are the interpreter's, character by
      character; below U+0100 [int] reads no digit but the ASCII ones.
    - [int] is the mathematical integer type [Z]: the interpreter's optional
      limit on the length of decimal conversions is not modelled.
    - A [float] is a finite double, held as the rational it denotes;
      negative zero is not told from zero. Division and [round] return the
      double nearest to the exact result, as the interpreter does. The one
      result that is no finite double, the quotient of two floats beyond
      the largest double, ends the computation with [NotFinite]. *)

From Stdlib Require Import ZArith QArith Ascii String List Lia Sorting.Sorted Sorting.Permutation.
From stdpp Require Import gmap strings list fin_maps.

Close Scope Q_scope.
Local Open Scope string_scope.
Local Open Scope Z_scope.

#[local] Set Warnings "-register-all".

(** ** Python values, exceptions and results *)

Inductive pyval :=
| VNone
| VBool (b : bool)
| VInt (n : Z)
| VFloat (q : Q)
| VStr (s : string)
| VList (l : list pyval)
| VDict (m : gmap string pyval).

(** Exception classes. [OutOfFuel] and [NotFinite] are not Python
    exceptions. [OutOfFuel] marks a bounded loop of the model that did not
    finish, and is shown unreachable wherever it could appear. [NotFinite]
    marks the quotient of two floats that is beyond the largest double:
    there the interpreter goes on with an infinity, which is no value of
    the model. *)
Inductive exn :=
| TypeError
| ValueError
| KeyError
| IndexError
| AttributeError
| ZeroDivisionError
| OverflowError
| RequestException
| ElasticsearchError
| APIError
| OutOfFuel
| NotFinite.

Inductive result (A : Type) :=
| Ok (a : A)
| Err (e : exn).
Arguments Ok {A} a.
Arguments Err {A} e.

(** Sequencing: the first exception raised ends the computation. The
    notation [x ← c; k] is stdpp's. *)
#[global] Instance result_ret : MRet result := fun _ a => Ok a.

#[global] Instance result_bind : MBind result := fun _ _ k r =>
  match r with
  | Ok a => k a
  | Err e => Err e
  end.

Definition is_ok {A} (r : result A) : bool :=
  match r with Ok _ => true | Err _ => false end.

(** ** Strings *)

Module PyStr.

Definition code (c : ascii) : Z := Z.of_N (N_of_ascii c).

Definition of_code (z : Z) : ascii := ascii_of_N (Z.to_N z).

(** [str.lower] of a character: the letters A to Z and, above U+007F, the
    capital letters U+00C0 to U+00DE move to the small letter 32 places
    up; the multiplication sign U+00D7 among them is no letter. *)
Definition lower_char (c : ascii) : ascii :=
  let n := code c in
  if ((65 <=? n) && (n <=? 90)) || ((192 <=? n) && (n <=? 222) && negb (n =? 215))
  then of_code (n + 32)
  else c.

Fixpoint lower (s : string) : string :=
  match s with
  | EmptyString => EmptyString
  | String c r => String (lower_char c) (lower r)
  end.

(** The white space that [int] skips on either side of a literal: tab to
    carriage return and the space, and above U+007F the next-line control
    U+0085 and the no-break space U+00A0. The separator controls U+001C to
    U+001F, white space for [str.isspace], are not skipped: [int] rejects
    a string that holds one. *)
Definition is_space (c : ascii) : bool :=
  let n := code c in
  ((9 <=? n) && (n <=? 13)) || (n =? 32) || (n =? 133) || (n =? 160).

Fixpoint lstrip (s : string) : string :=
  match s with
  | String c r => if is_space c then lstrip r else s
  | EmptyString => EmptyString
  end.

Fixpoint rstrip (s : string) : string :=
  match s with
  | EmptyString => EmptyString
  | String c r =>
      match rstrip r with
      | EmptyString => if is_space c then EmptyString else String c EmptyString
      | r' => String c r'
      end
  end.

Definition strip (s : string) : string := rstrip (lstrip s).

(** [s.startswith(p)] *)
Definition startswith (p s : string) : bool := String.prefix p s.

(** [s[1:]] *)
Definition drop_first (s : string) : string :=
  match s with
  | EmptyString => EmptyString
  | String _ r => r
  end.

(** [s[:-1]] *)
Fixpoint drop_last (s : string) : string :=
  match s with
  | EmptyString => EmptyString
  | String c EmptyString => EmptyString
  | String c r => String c (drop_last r)
  end.

(** [s[-1]], for a non-empty string. *)
Fixpoint last_char (s : string) : option ascii :=
  match s with
  | EmptyString => None
  | String c EmptyString => Some c
  | String _ r => last_char r
  end.

(** Value of a character as a digit in bases up to 36. *)
Definition digit_value (c : ascii) : option Z :=
  let n := code c in
  if (48 <=? n) && (n <=? 57) then Some (n - 48)
  else if (97 <=? n) && (n <=? 122) then Some (n - 87)
  else if (65 <=? n) && (n <=? 90) then Some (n - 55)
  else None.

(** The digits of an integer literal: single underscores may separate
    digits, and the literal may not end with one. *)
Fixpoint parse_digits (base acc : Z) (prev_us : bool) (s : string) : option Z :=
  match s with
  | EmptyString => if prev_us then None else Some acc
  | String c r =>
      if Ascii.eqb c "_"%char then
        if prev_us then None else parse_digits base acc true r
      else
        match digit_value c with
        | Some d => if d <? base then parse_digits base (acc * base + d) false r else None
        | None => None
        end
  end.

(** A literal has at least one digit and does not start with an
    underscore. *)
Definition parse_unsigned (base : Z) (s : string) : option Z :=
  match s with
  | EmptyString => None
  | String c _ => if Ascii.eqb c "_"%char then None else parse_digits base 0 false s
  end.

(** [int(s, base)] for a string [s] and a base without literal prefix (10
    and 36 here): surrounding white space, an optional sign, the digits.
    [None] stands for [ValueError]. *)
Definition int_of_string (base : Z) (s : string) : option Z :=
  match strip s with
  | String "+"%char r => parse_unsigned base r
  | String "-"%char r => Z.opp <$> parse_unsigned base r
  | r => parse_unsigned base r
  end.

End PyStr.

(** ** Built-in conversions *)

(** Truncation toward zero, as [int(float)] does. *)
Definition Qtrunc (q : Q) : Z := Z.quot (Qnum q) (Z.pos (Qden q)).

(** [int(x)] *)
Definition py_int (v : pyval) : result Z :=
  match v with
  | VInt n => Ok n
  | VBool b => Ok (if b then 1 else 0)
  | VFloat q => Ok (Qtrunc q)
  | VStr s =>
      match PyStr.int_of_string 10 s with
      | Some n => Ok n
      | None => Err ValueError
      end
  | VNone | VList _ | VDict _ => Err TypeError
  end.

(** [x.lower()]: only strings have the method. *)
Definition py_lower (v : pyval) : result string :=
  match v with
  | VStr s => Ok (PyStr.lower s)
  | _ => Err AttributeError
  end.

(** ** Dictionaries and truth values *)

(** [k in d and d[k] is not None], giving the value. *)
Definition present (d : gmap string pyval) (k : string) : option pyval :=
  match d !! k with
  | Some VNone => None
  | o => o
  end.

(** [d[k]] *)
Definition getitem (d : gmap string pyval) (k : string) : result pyval :=
  match d !! k with
  | Some v => Ok v
  | None => Err KeyError
  end.

(** Truth value of an object, as [not x] and [if x] test it. *)
Definition py_truthy (v : pyval) : bool :=
  match v with
  | VNone => false
  | VBool b => b
  | VInt n => negb (n =? 0)
  | VFloat q => negb (Qnum q =? 0)
  | VStr s => negb (String.eqb s "")
  | VList l => match l with [] => false | _ => true end
  | VDict m => negb (bool_decide (m = ∅))
  end.

(** [mapM] for [result], used for list comprehensions whose body may
    raise. *)
Fixpoint traverse {A B} (f : A -> result B) (l : list A) : result (list B) :=
  match l with
  | [] => Ok []
  | x :: r => y ← f x; ys ← traverse f r; Ok (y :: ys)
  end.

(** ** Dynamic operations on values *)

(** [k in v] for a string [k]: key test on a dictionary, element test on a
    list, substring test on a string. *)
Definition py_in (k : string) (v : pyval) : result bool :=
  match v with
  | VDict m => Ok (bool_decide (is_Some (m !! k)))
  | VList l => Ok (existsb (fun x => match x with VStr s => String.eqb s k | _ => false end) l)
  | VStr s => Ok (match String.index 0 k s with Some _ => true | None => false end)
  | VNone | VBool _ | VInt _ | VFloat _ => Err TypeError
  end.

(** [v[k]] for a string [k]. *)
Definition py_getitem (v : pyval) (k : string) : result pyval :=
  match v with
  | VDict m => getitem m k
  | _ => Err TypeError
  end.

(** [v.get(k, d)] *)
Definition py_get (v : pyval) (k : string) (d : pyval) : result pyval :=
  match v with
  | VDict m => Ok (default d (m !! k))
  | _ => Err AttributeError
  end.

(** [v[k] = x] for a string [k]. *)
Definition py_setitem (v : pyval) (k : string) (x : pyval) : result pyval :=
  match v with
  | VDict m => Ok (VDict (<[k := x]> m))
  | _ => Err TypeError
  end.

(** [v.pop(k, None)], keeping the object only. *)
Definition py_pop (v : pyval) (k : string) : result pyval :=
  match v with
  | VDict m => Ok (VDict (delete k m))
  | VList _ => Err TypeError
  | _ => Err AttributeError
  end.

Fixpoint chars (s : string) : list pyval :=
  match s with
  | EmptyString => []
  | String c r => VStr (String c EmptyString) :: chars r
  end.

(** The elements a [for] loop visits. *)
Definition py_iter (v : pyval) : result (list pyval) :=
  match v with
  | VList l => Ok l
  | VStr s => Ok (chars s)
  | VDict m => Ok (VStr <$> (map_to_list m).*1)
  | VNone | VBool _ | VInt _ | VFloat _ => Err TypeError
  end.

Definition inject_Z (n : Z) : Q := Qmake n 1.

(** The numeric value of an [int], [bool] or [float]. *)
Definition py_number (v : pyval) : option Q :=
  match v with
  | VInt n => Some (inject_Z n)
  | VBool b => Some (inject_Z (if b then 1 else 0))
  | VFloat q => Some q
  | _ => None
  end.

(** Nearest integer, ties to the even one. *)
Definition round_half_even (q : Q) : Z :=
  let n := Qnum q in
  let d := Z.pos (Qden q) in
  let f := n / d in
  let r2 := 2 * (n mod d) in
  if r2 <? d then f
  else if d <? r2 then f + 1
  else if Z.even f then f else f + 1.

(** [2 ^ e] *)
Definition Qpow2 (e : Z) : Q :=
  if 0 <=? e then inject_Z (2 ^ e) else Qmake 1 (Z.to_pos (2 ^ (- e))).

(** The exponent [e] with [2 ^ e <= q < 2 ^ (e + 1)], for [q > 0]. *)
Definition binade (q : Q) : Z :=
  let n := Qnum q in
  let d := Z.pos (Qden q) in
  let e := Z.log2 n - Z.log2 d in
  if n * 2 ^ Z.max 0 (- e) <? d * 2 ^ Z.max 0 e then e - 1 else e.

(** The double nearest to [q], ties to the even significand, or [None]
    when [q] rounds beyond the largest double. A double is an integer [m]
    of at most 53 bits times [2 ^ u], [u] from -1074 to 971: [q] is
    rounded to a multiple of the unit [2 ^ u] of its binade, or of
    [2 ^ -1074] below the normal range; zero stays zero. *)
Definition nearest_double (q : Q) : option Q :=
  let a := Qmake (Z.abs (Qnum q)) (Qden q) in
  let u := Z.max (binade a - 52) (-1074) in
  let m := round_half_even (Qmult a (Qpow2 (- u))) in
  if 1024 <=? u + Z.log2 m then None
  else Some (Qred (Qmult (inject_Z (Z.sgn (Qnum q) * m)) (Qpow2 u))).

(** An operand of float arithmetic as a double: [float(n)] for an [int]
    raises [OverflowError] beyond the doubles. *)
Definition to_double (x : Q) : result Q :=
  match nearest_double x with
  | Some d => Ok d
  | None => Err OverflowError
  end.

Definition is_float (v : pyval) : bool :=
  match v with
  | VFloat _ => true
  | _ => false
  end.

(** [a / b], true division. Of two integers it is the double nearest to
    the exact quotient, [OverflowError] when there is none. With a float
    on either side both operands are made doubles first, then divided. *)
Definition py_truediv (a b : pyval) : result Q :=
  match py_number a, py_number b with
  | Some x, Some y =>
      if is_float a || is_float b then
        x ← to_double x;
        y ← to_double y;
        if Qeq_bool y (inject_Z 0) then Err ZeroDivisionError
        else
          match nearest_double (Qdiv x y) with
          | Some q => Ok q
          | None => Err NotFinite
          end
      else if Qeq_bool y (inject_Z 0) then Err ZeroDivisionError
      else
        match nearest_double (Qdiv x y) with
        | Some q => Ok q
        | None => Err OverflowError
        end
  | _, _ => Err TypeError
  end.

(** [a > n] for an integer [n]. *)
Definition py_gt_int (a : pyval) (n : Z) : result bool :=
  match py_number a with
  | Some x => Ok (negb (Qle_bool x (inject_Z n)))
  | None => Err TypeError
  end.

(** [round(q, ndigits)] for a float [q] and [ndigits >= 0]: the exact value
    of [q] is rounded to [ndigits] decimal places, ties to the even digit,
    and the result is the double nearest to that decimal. It is never
    beyond the largest double: the doubles from [2 ^ 52] on are integers,
    which rounding leaves alone. *)
Definition py_round (q : Q) (ndigits : Z) : Q :=
  let scale := inject_Z (10 ^ ndigits) in
  let decimal := Qdiv (inject_Z (round_half_even (Qmult q scale))) scale in
  match nearest_double decimal with
  | Some x => x
  | None => q
  end.

(** [a == b] on [None], numbers and strings. A comparison that involves a
    list or a dictionary is answered [false]; the one use, in
    [Comment.get_ids], gives the same result for either answer since
    [base36encode] rejects both containers. *)
Definition py_eq (a b : pyval) : bool :=
  match a, b with
  | VNone, VNone => true
  | VStr s, VStr t => String.eqb s t
  | _, _ =>
      match py_number a, py_number b with
      | Some x, Some y => Qeq_bool x y
      | _, _ => false
      end
  end.

(** Keys of a dictionary that is indexed by values rather than strings. *)
Inductive pykey :=
| KNone
| KNum (q : Q)
| KStr (s : string).

Definition to_key (v : pyval) : result pykey :=
  match v with
  | VNone => Ok KNone
  | VStr s => Ok (KStr s)
  | VList _ | VDict _ => Err TypeError (* unhashable *)
  | VBool _ | VInt _ | VFloat _ => Ok (KNum (default (inject_Z 0) (py_number v)))
  end.

Definition key_eqb (a b : pykey) : bool :=
  match a, b with
  | KNone, KNone => true
  | KNum x, KNum y => Qeq_bool x y
  | KStr s, KStr t => String.eqb s t
  | _, _ => false
  end.

Fixpoint alist_lookup {V} (k : pykey) (d : list (pykey * V)) : option V :=
  match d with
  | [] => None
  | (k', v) :: r => if key_eqb k k' then Some v else alist_lookup k r
  end.

Fixpoint alist_insert {V} (k : pykey) (v : V) (d : list (pykey * V)) : list (pykey * V) :=
  match d with
  | [] => [(k, v)]
  | (k', v') :: r => if key_eqb k k' then (k', v) :: r else (k', v') :: alist_insert k v r
  end.

(** [sorted(l, key=..., reverse=True)] for numeric keys: a stable sort into
    non-increasing key order. Elements with equal keys keep their order. *)
Fixpoint insert_desc {A} (x : Q * A) (l : list (Q * A)) : list (Q * A) :=
  match l with
  | [] => [x]
  | y :: r => if Qle_bool (fst y) (fst x) then x :: y :: r else y :: insert_desc x r
  end.

Definition sort_desc {A} (l : list (Q * A)) : list (Q * A) :=
  foldr insert_desc [] l.

(** The order of the keys after the sort. *)
Definition key_ge {A} (x y : Q * A) : Prop := Qle (fst y) (fst x).

(** ** The query document

    The sources build the document in auto-vivifying nested dictionaries;
    its fixed shape is a record here. Each predicate constructor stands for
    one JSON shape appended to [query.bool.filter] or [query.bool.must_not]. *)

Inductive predicate :=
| PTerms (field : string) (values : pyval)        (* {"terms": {field: values}} *)
| PTerm (field : string) (value : pyval)          (* {"term": {field: value}} *)
| PRangeGt (field : string) (bound : Z)           (* {"range": {field: {"gt": bound}}} *)
| PRangeLt (field : string) (bound : Z)           (* {"range": {field: {"lt": bound}}} *)
| PSimpleQuery (query : pyval) (fields : option (list string))
                                                  (* {"simple_query_string": {...}} *)
| PEmpty.                                         (* {} *)

Inductive agg_spec :=
| ASignificantTerms (field : string) (size : Z) (script : option (string * string))
    (min_doc_count : option pyval)
| ATerms (field : string) (size : Z) (order : string * string)
| ADateHistogram (field : string) (interval : pyval) (order : string * string).

Record query_doc := mkQuery {
  q_filter : list predicate;
  q_must_not : option (list predicate);
  q_size : option pyval;
  q_sort : gmap string pyval;
  q_aggs : gmap string agg_spec
}.

(** The document before any clause is added: an empty filter list. *)
Definition empty_query : query_doc := mkQuery [] None None ∅ ∅.

Definition add_filter (p : predicate) (q : query_doc) : query_doc :=
  mkQuery (q_filter q ++ [p])%list (q_must_not q) (q_size q) (q_sort q) (q_aggs q).

Definition add_must_not (p : predicate) (q : query_doc) : query_doc :=
  mkQuery (q_filter q) (Some (default [] (q_must_not q) ++ [p])%list) (q_size q) (q_sort q) (q_aggs q).

Definition set_size (v : pyval) (q : query_doc) : query_doc :=
  mkQuery (q_filter q) (q_must_not q) (Some v) (q_sort q) (q_aggs q).

Definition set_sort (k : string) (v : pyval) (q : query_doc) : query_doc :=
  mkQuery (q_filter q) (q_must_not q) (q_size q) (<[k := v]> (q_sort q)) (q_aggs q).

Definition set_agg (k : string) (a : agg_spec) (q : query_doc) : query_doc :=
  mkQuery (q_filter q) (q_must_not q) (q_size q) (q_sort q) (<[k := a]> (q_aggs q)).

(** ** The backends

    A request carries the URL, the document that [json.dumps] serialises
    into the body, and the timeout. *)

Inductive document :=
| SearchBody (q : query_doc)
| TermsIdBody (ids : list pyval) (size : Z).   (* {"query": {"terms": {"id": ids}}, "size": size} *)

Record request := mkRequest {
  req_url : string;
  req_data : document;
  req_timeout : Z
}.

(** What [requests.get] does: it raises a [RequestException] (connection
    error, timeout, ...) or returns a response with a status code and a
    text; [resp_json] is [json.loads] of the text. *)
Record response := mkResponse {
  resp_status : Z;
  resp_json : result pyval
}.

Inductive outcome :=
| TransportFailure
| Responded (r : response).

(** Computations that talk to the search backends: the state is the list
    of requests sent so far, kept also when an exception is raised. *)
Definition Net (A : Type) : Type := list request -> result A * list request.

#[global] Instance net_ret : MRet Net := fun _ a tr => (Ok a, tr).

#[global] Instance net_bind : MBind Net := fun _ _ k c tr =>
  match c tr with
  | (Ok a, tr') => k a tr'
  | (Err e, tr') => (Err e, tr')
  end.

Definition lift {A} (r : result A) : Net A := fun tr => (r, tr).

(** [try: c except requests.RequestException: h] *)
Definition except_RequestException {A} (c h : Net A) : Net A := fun tr =>
  match c tr with
  | (Err RequestException, tr') => h tr'
  | r => r
  end.

Section Requests.

(** The network: the outcome of a request may depend on the requests sent
    before it. *)
Variable net : list request -> request -> outcome.

(** [requests.get(url, data=json.dumps(doc), timeout=t)] *)
Definition requests_get (url : string) (doc : document) (t : Z) : Net response := fun tr =>
  let r := mkRequest url doc t in
  match net tr r with
  | TransportFailure => (Err RequestException, tr ++ [r])%list
  | Responded resp => (Ok resp, tr ++ [r])%list
  end.

(** [response.raise_for_status()]: an [HTTPError], which is a
    [RequestException], for the status codes 400 to 599. *)
Definition raise_for_status (resp : response) : Net unit :=
  if (400 <=? resp_status resp) && (resp_status resp <? 600)
  then lift (Err RequestException)
  else lift (Ok tt).

(** A request fails when [requests.get] raises or [raise_for_status]
    does. *)
Definition failed (o : outcome) : bool :=
  match o with
  | TransportFailure => true
  | Responded resp => (400 <=? resp_status resp) && (resp_status resp <? 600)
  end.

(** [_execute_search(uri, q)], the same text in [CommentSearch] and
    [SubmissionSearch] up to the attributes [es_fallback] and [es_index]. *)
Definition execute_search (es_fallback es_index : string) (uri : string) (q : query_doc)
    : Net response :=
  except_RequestException
    (resp ← requests_get uri (SearchBody q) 30;
     _ ← raise_for_status resp;
     mret resp)
    (except_RequestException
       (let fallback_uri := es_fallback ++ es_index in
        resp ← requests_get fallback_uri (SearchBody q) 30;
        _ ← raise_for_status resp;
        mret resp)
       (lift (Err ElasticsearchError))).

End Requests.

(** ** Helpers.py *)

Module Helpers.

(** [looks_like_int]: [int(value)] guarded by
    [except (ValueError, TypeError)]. *)
Definition looks_like_int (value : pyval) : bool :=
  match py_int value with
  | Ok _ => true
  | Err ValueError => false
  | Err TypeError => false
  | Err _ => false (* [int] raises nothing else *)
  end.

Definition alphabet : string := "0123456789abcdefghijklmnopqrstuvwxyz".

Definition len_alphabet : Z := Z.of_nat (String.length alphabet).

(** [alphabet[i]] for a non-negative index. *)
Definition alphabet_at (i : Z) : result ascii :=
  match String.get (Z.to_nat i) alphabet with
  | Some c => Ok c
  | None => Err IndexError
  end.

(** The loop [while number != 0: number, i = divmod(number, len(alphabet));
    base36 = alphabet[i] + base36]. *)
Fixpoint encode_loop (fuel : nat) (number : Z) (base36 : string) : result string :=
  if number =? 0 then Ok base36
  else
    match fuel with
    | O => Err OutOfFuel
    | S fuel' =>
        let q := number / len_alphabet in
        let i := number mod len_alphabet in
        c ← alphabet_at i;
        encode_loop fuel' q (String c base36)
    end.

(** [base36encode(number)] with the default alphabet, for an [int]
    argument (the [isinstance] test passes). *)
Definition base36encode (number : Z) : result string :=
  let sign := if number <? 0 then "-" else "" in
  let number := if number <? 0 then - number else number in
  if (0 <=? number) && (number <? len_alphabet) then
    c ← alphabet_at number;
    Ok (sign ++ String c "")
  else
    base36 ← encode_loop (S (Z.to_nat (Z.log2 number))) number "";
    Ok (sign ++ base36).

(** [base36decode(number)]: [int(number, 36)]. *)
Definition base36decode (number : string) : result Z :=
  match PyStr.int_of_string 36 number with
  | Some n => Ok n
  | None => Err ValueError
  end.

(** A character of the encoder's alphabet. *)
Definition in_alphabet (c : ascii) : bool :=
  existsb (Ascii.eqb c) (list_ascii_of_string alphabet).

Fixpoint over_alphabet (s : string) : bool :=
  match s with
  | EmptyString => true
  | String c r => in_alphabet c && over_alphabet r
  end.

(** The number a string of digits denotes, most significant digit first. *)
Fixpoint value36 (acc : Z) (s : string) : Z :=
  match s with
  | EmptyString => acc
  | String c r => value36 (acc * 36 + default 0 (PyStr.digit_value c)) r
  end.

(** [base36encode] applied to a value taken from a record: anything but an
    [int] fails the [isinstance] test ([bool] is a subclass of [int]). *)
Definition base36encode_val (v : pyval) : result string :=
  match v with
  | VInt n => base36encode n
  | VBool b => base36encode (if b then 1 else 0)
  | _ => Err TypeError
  end.

Section SubmissionLookup.

Variable net : list request -> request -> outcome.

(** [config.get_elasticsearch_urls()] *)
Variables primary_url fallback_url : string.

(** One turn of the loop over the hits of [get_submissions_from_es]. *)
Definition add_submission (results : list (pykey * pyval)) (hit : pyval)
    : result (list (pykey * pyval)) :=
  source ← py_getitem hit "_source";
  base_10_id ← py_get source "id" VNone;
  _id ← py_getitem hit "_id";
  n ← py_int _id;
  id36 ← base36encode n;
  source ← py_setitem source "id" (VStr id36);
  k ← to_key base_10_id;
  Ok (alist_insert k source results).

Fixpoint add_submissions (results : list (pykey * pyval)) (hits : list pyval)
    : result (list (pykey * pyval)) :=
  match hits with
  | [] => Ok results
  | hit :: rest => results ← add_submission results hit; add_submissions results rest
  end.

(** [get_submissions_from_es(ids)]. The two nested [try] blocks give
    [None] where the source returns the empty dictionary early. *)
Definition get_submissions_from_es (ids : pyval) : Net (list (pykey * pyval)) :=
  let ids := match ids with VList l => l | _ => [ids] end in
  int_ids ← lift (traverse (fun id => match id with VStr _ => n ← py_int id; Ok (VInt n) | _ => Ok id end) ids);
  let q := TermsIdBody int_ids 1000 in
  response ←
    except_RequestException
      (resp ← requests_get net (primary_url ++ "/rs/submissions/_search") q 30;
       _ ← raise_for_status resp;
       mret (Some resp))
      (except_RequestException
         (resp ← requests_get net (fallback_url ++ "/rs/submissions/_search") q 30;
          _ ← raise_for_status resp;
          mret (Some resp))
         (mret None));
  match response with
  | None => mret []
  | Some response =>
      lift (s ← resp_json response;
            hits ← py_get s "hits" (VDict ∅);
            hits ← py_get hits "hits" (VList []);
            hits ← py_iter hits;
            add_submissions [] hits)
  end.

End SubmissionLookup.

Section SubmissionsFromPg.

(** [DBFunctions.pgdb.execute(sql, params)] *)
Variable pgdb_execute : string -> list pyval -> result (list (list pyval)).

(** One turn of the loop over the rows in [get_submissions_from_pg]. *)
Definition add_pg_submission (results : list (pykey * pyval)) (row : list pyval)
    : result (list (pykey * pyval)) :=
  submission ← match row with c :: _ => Ok c | [] => Err IndexError end;
  base_10_id ← py_getitem submission "id";
  id36 ← base36encode_val base_10_id;
  submission ← py_setitem submission "id" (VStr id36);
  has ← py_in "subreddit_id" submission;
  submission ←
    (if has : bool then
       sr ← py_getitem submission "subreddit_id";
       sr36 ← base36encode_val sr;
       py_setitem submission "subreddit_id" (VStr ("t5_" ++ sr36))
     else Ok submission);
  submission ← py_pop submission "name";
  k ← to_key base_10_id;
  Ok (alist_insert k submission results).

Fixpoint add_pg_submissions (results : list (pykey * pyval)) (rows : list (list pyval))
    : result (list (pykey * pyval)) :=
  match rows with
  | [] => Ok results
  | row :: rest => results ← add_pg_submission results row; add_pg_submissions results rest
  end.

(** [get_submissions_from_pg(ids)]: a failure of the database gives the
    empty dictionary. *)
Definition get_submissions_from_pg (ids : pyval) : result (list (pykey * pyval)) :=
  let ids := match ids with VList l => l | _ => [ids] end in
  match pgdb_execute "SELECT * FROM submission WHERE (json->>'id')::int IN %s LIMIT 5000" ids with
  | Err _ => Ok []
  | Ok rows => add_pg_submissions [] rows
  end.

End SubmissionsFromPg.

End Helpers.

(** ** Parameters.py *)

Module Parameters.

Section WithClock.

(** The reading [int(time.time())] of the clock while the request is
    normalised. *)
Variable now : Z.

(** [{k.lower(): v for k, v in params.items()}]: later items win. *)
Definition lower_keys (items : list (string * pyval)) : gmap string pyval :=
  foldl (fun m kv => <[PyStr.lower (fst kv) := snd kv]> m) ∅ items.

(** [_parse_time_value(time_value)] *)
Definition _parse_time_value (time_value : pyval) : result Z :=
  if Helpers.looks_like_int time_value then py_int time_value
  else
    match time_value with
    | VStr s =>
        if negb (py_truthy time_value) || (Z.of_nat (String.length s) <? 2) then Err ValueError
        else
          match PyStr.last_char s with
          | None => Err IndexError
          | Some c =>
              let unit := PyStr.lower_char c in
              match PyStr.int_of_string 10 (PyStr.drop_last s) with
              | None => Err ValueError
              | Some value =>
                  if Ascii.eqb unit "d" then Ok (now - value * 86400)
                  else if Ascii.eqb unit "h" then Ok (now - value * 3600)
                  else if Ascii.eqb unit "m" then Ok (now - value * 60)
                  else if Ascii.eqb unit "s" then Ok (now - value)
                  else Err ValueError
              end
          end
    | VList l =>
        if negb (py_truthy time_value) || (Z.of_nat (length l) <? 2) then Err ValueError
        else
          (* [time_value[-1].lower()], then [int] of a list *)
          _ ← py_lower (List.last l VNone);
          Err TypeError
    | VDict m =>
        if negb (py_truthy time_value) || (Z.of_nat (size m) <? 2) then Err ValueError
        else Err KeyError
    | VNone => Err ValueError
    | VBool _ | VInt _ | VFloat _ => Err TypeError (* not reached: [int] accepts them *)
    end.

(** The loop over [["subreddit", "author"]] at the head of [process]. *)
Fixpoint process_conditions (conditions : list string)
    (params : gmap string pyval) (query : query_doc) : result (gmap string pyval * query_doc) :=
  match conditions with
  | [] => Ok (params, query)
  | condition :: rest =>
      match present params condition with
      | Some v =>
          let l := match v with VList l => l | _ => [v] end in
          l' ← traverse py_lower l;
          let params := <[condition := VList (VStr <$> l')]> params in
          process_conditions rest params
            (add_filter (PTerms condition (VList (VStr <$> l'))) query)
      | None => process_conditions rest params query
      end
  end.

(** [_process_time_range] *)
Definition _process_time_range (params : gmap string pyval) (query : query_doc)
    : result (gmap string pyval * query_doc) :=
  '(params, query) ←
    match present params "after" with
    | Some v =>
        t ← _parse_time_value v;
        Ok (<["after" := VInt t]> params, add_filter (PRangeGt "created_utc" t) query)
    | None => Ok (<["after" := VNone]> params, query)
    end;
  match present params "before" with
  | Some v =>
      t ← _parse_time_value v;
      Ok (<["before" := VInt t]> params, add_filter (PRangeLt "created_utc" t) query)
  | None => Ok (<["before" := VNone]> params, query)
  end.

(** The body shared by [_process_score_filter] and
    [_process_comment_count_filter], which differ in the field only. *)
Definition process_count_filter (field : string) (params : gmap string pyval) (query : query_doc)
    : result (gmap string pyval * query_doc) :=
  match present params field with
  | Some (VStr score) =>
      p ←
        (if PyStr.startswith "<" score then
           n ← py_int (VStr (PyStr.drop_first score)); Ok (PRangeLt field n)
         else if PyStr.startswith ">" score then
           n ← py_int (VStr (PyStr.drop_first score)); Ok (PRangeGt field n)
         else if Helpers.looks_like_int (VStr score) then
           n ← py_int (VStr score); Ok (PTerm field (VInt n))
         else Ok PEmpty);
      Ok (params, add_filter p query)
  | Some _ => Err AttributeError (* no [startswith] *)
  | None => Ok (params, query)
  end.

Definition _process_score_filter := process_count_filter "score".

Definition _process_comment_count_filter := process_count_filter "num_comments".

(** [_process_boolean_filters] *)
Fixpoint process_boolean_conditions (conditions : list string)
    (params : gmap string pyval) (query : query_doc) : result (gmap string pyval * query_doc) :=
  match conditions with
  | [] => Ok (params, query)
  | condition :: rest =>
      match present params condition with
      | Some (VStr value) =>
          if String.eqb (PyStr.lower value) "true" || String.eqb value "1" then
            process_boolean_conditions rest params
              (add_filter (PTerm condition (VStr "true")) query)
          else if String.eqb (PyStr.lower value) "false" || String.eqb value "0" then
            process_boolean_conditions rest params
              (add_filter (PTerm condition (VStr "false")) query)
          else process_boolean_conditions rest params query
      | Some _ => Err AttributeError
      | None => process_boolean_conditions rest params query
      end
  end.

Definition _process_boolean_filters :=
  process_boolean_conditions
    ["over_18"; "is_video"; "stickied"; "spoiler"; "locked"; "contest_mode"].

Definition frequencies : list string :=
  ["second"; "minute"; "hour"; "day"; "week"; "month"].

(** The size step of [process]: the alias, then the cap. *)
Definition process_size (params : gmap string pyval) (query : query_doc)
    : result (gmap string pyval * query_doc) :=
  let params :=
    match params !! "limit" with
    | Some v => <["size" := v]> params
    | None => params
    end in
  match present params "size" with
  | Some v =>
      if Helpers.looks_like_int v then
        n ← py_int v;
        let size := Z.min 500 n in
        Ok (<["size" := VInt size]> params, set_size (VInt size) query)
      else Ok (<["size" := VInt 25]> params, set_size (VInt 25) query)
  | None => Ok (<["size" := VInt 25]> params, set_size (VInt 25) query)
  end.

(** The sort step of [process]: the alias, the direction, and the entry
    [query['sort'][params['sort_type']] = params['sort']]. *)
Definition process_sort (suggested_sort sort_type : string)
    (params : gmap string pyval) (query : query_doc) : result (gmap string pyval * query_doc) :=
  params ←
    match present params "order" with
    | Some v => s ← py_lower v; Ok (<["sort" := VStr s]> params)
    | None => Ok params
    end;
  sort ←
    match present params "sort" with
    | Some v => py_lower v
    | None => Ok suggested_sort
    end;
  Ok (<["sort" := VStr sort]> params, set_sort sort_type (VStr sort) query).

(** [process(params, query)] *)
Definition process (items : list (string * pyval)) (query : query_doc)
    : result (gmap string pyval * query_doc) :=
  let params := lower_keys items in
  let suggested_sort := "desc" in
  '(params, query) ← process_conditions ["subreddit"; "author"] params query;
  '(params, query) ← _process_time_range params query;
  '(params, query) ← _process_score_filter params query;
  '(params, query) ← _process_comment_count_filter params query;
  '(params, query) ← _process_boolean_filters params query;
  sort_type ←
    match present params "sort_type" with
    | Some v => py_lower v
    | None => Ok "created_utc"
    end;
  let params := <["sort_type" := VStr sort_type]> params in
  '(params, query) ← process_size params query;
  '(params, query) ← process_sort suggested_sort sort_type params query;
  params ←
    match params !! "frequency" with
    | Some v =>
        f ← py_lower v;
        if bool_decide (f ∈ frequencies) then Ok (<["frequency" := VStr f]> params)
        else Ok (<["frequency" := VNone]> params)
    | None => Ok (<["frequency" := VNone]> params)
    end;
  Ok (params, query).

End WithClock.

(** What a request asks for, read off the lower-cased parameters: the
    size ([limit] takes precedence over [size]) and the sort direction
    ([order] takes precedence over [sort]). *)
Definition requested_size (p : gmap string pyval) : option pyval :=
  match p !! "limit" with
  | Some v => Some v
  | None => p !! "size"
  end.

Definition requested_sort (p : gmap string pyval) : option pyval :=
  match present p "order" with
  | Some v => Some v
  | None => present p "sort"
  end.

(** The two accepted forms of a time value, in the words of the
    specification: an epoch integer string, or an integer followed by one
    of the units [s], [m], [h], [d] (in either case). *)
Definition epoch_form (s : string) : bool :=
  bool_decide (is_Some (PyStr.int_of_string 10 s)).

Definition unit_char (c : ascii) : bool :=
  Ascii.eqb c "d" || Ascii.eqb c "h" || Ascii.eqb c "m" || Ascii.eqb c "s".

Definition relative_form (s : string) : bool :=
  (2 <=? Z.of_nat (String.length s)) &&
  bool_decide (is_Some (PyStr.int_of_string 10 (PyStr.drop_last s))) &&
  match PyStr.last_char s with
  | Some c => unit_char (PyStr.lower_char c)
  | None => false
  end.

Definition well_formed_time (s : string) : bool := epoch_form s || relative_form s.

End Parameters.

(** ** Responses of the handlers *)

(** The dictionary [data] that a handler serialises: the records, the
    processed aggregations when there are any, the metadata. *)
Record envelope := mkEnvelope {
  env_data : list pyval;
  env_aggs : option (gmap string pyval);
  env_metadata : gmap string pyval
}.

(** The reply of [on_get]: the envelope, or status 500 with the error
    envelope built from the exception caught by [except Exception]. *)
Inductive reply :=
| Reply200 (body : envelope)
| Reply500 (e : exn).

(** [req.params] as a dictionary: the items of the query string. *)
Definition raw_params (items : list (string * pyval)) : gmap string pyval :=
  foldl (fun m kv => <[fst kv := snd kv]> m) ∅ items.

(** [bucket["score"] = bucket["doc_count"] / bucket["bg_count"]] *)
Definition set_score (bucket : pyval) : result pyval :=
  doc_count ← py_getitem bucket "doc_count";
  bg_count ← py_getitem bucket "bg_count";
  score ← py_truediv doc_count bg_count;
  py_setitem bucket "score" (VFloat score).

(** [if 'score' in bucket: bucket["score"] = ...] *)
Definition reset_score (bucket : pyval) : result pyval :=
  has ← py_in "score" bucket;
  if has : bool then set_score bucket else Ok bucket.

(** The key [k['score']] of a bucket, a number. *)
Definition score_key (bucket : pyval) : result (Q * pyval) :=
  score ← py_getitem bucket "score";
  match py_number score with
  | Some x => Ok (x, bucket)
  | None => Err TypeError
  end.

(** [sorted(buckets, key=lambda k: k['score'], reverse=True)] *)
Definition sorted_by_score (buckets : list pyval) : result (list pyval) :=
  keyed ← traverse score_key buckets;
  Ok (snd <$> sort_desc keyed).

(** The time histogram step, the same in both handlers. *)
Definition created_utc_bucket (bucket : pyval) : result pyval :=
  bucket ← py_pop bucket "key_as_string";
  key ← py_getitem bucket "key";
  secs ← py_truediv key (VInt 1000);
  py_setitem bucket "key" (VInt (Qtrunc secs)).

(** [aggregations[name]["buckets"]], as the list a loop visits. *)
Definition buckets_of (aggregations : pyval) (name : string) : result (list pyval) :=
  agg ← py_getitem aggregations name;
  buckets ← py_getitem agg "buckets";
  py_iter buckets.

(** [f"{x}"] *)
Definition py_format (py_repr : pyval -> string) (x : pyval) : string :=
  match x with
  | VStr s => s
  | _ => py_repr x
  end.

(** [_apply_field_filter(source)], the same in both handlers. *)
Definition _apply_field_filter (params : gmap string pyval) (source : pyval)
    : result (gmap string pyval * pyval) :=
  match present params "fields" with
  | Some v =>
      fields ← match v with VStr _ => Ok [v] | _ => py_iter v end;
      fields ← traverse py_lower fields;
      let params := <["fields" := VList (VStr <$> fields)]> params in
      match source with
      | VDict m =>
          Ok (params,
              VDict (filter (fun kv => PyStr.lower (fst kv) ∈ fields) m))
      | _ => Err AttributeError
      end
  | None => Ok (params, source)
  end.

(** The aggregation clauses shared by the two [_add_aggregations]; the
    handler gives the clauses for the names only it knows. *)
Section AddAggregations.

Variable own_clause : string -> option agg_spec.

Fixpoint add_aggregation_clauses (min_doc_count : pyval) (aggs : list pyval)
    (params : gmap string pyval) (q : query_doc) : result (gmap string pyval * query_doc) :=
  match aggs with
  | [] => Ok (params, q)
  | agg :: rest =>
      agg_lower ← py_lower agg;
      if String.eqb agg_lower "subreddit" then
        add_aggregation_clauses min_doc_count rest params
          (set_agg "subreddit"
             (ASignificantTerms "subreddit.keyword" 1000
                (Some ("painless", "params._subset_freq")) (Some min_doc_count)) q)
      else if String.eqb agg_lower "author" then
        add_aggregation_clauses min_doc_count rest params
          (set_agg "author" (ATerms "author.keyword" 1000 ("_count", "desc")) q)
      else if String.eqb agg_lower "created_utc" then
        frequency ← getitem params "frequency";
        let frequency := match frequency with VNone => VStr "day" | f => f end in
        add_aggregation_clauses min_doc_count rest (<["frequency" := frequency]> params)
          (set_agg "created_utc" (ADateHistogram "created_utc" frequency ("_key", "asc")) q)
      else
        match own_clause agg_lower with
        | Some a => add_aggregation_clauses min_doc_count rest params (set_agg agg_lower a q)
        | None => add_aggregation_clauses min_doc_count rest params q
        end
  end.

Definition add_aggregations (params : gmap string pyval) (q : query_doc)
    : result (gmap string pyval * query_doc) :=
  match params !! "aggs" with
  | None => Ok (params, q)
  | Some v =>
      if negb (py_truthy v) then Ok (params, q)
      else
        let params := match v with VStr _ => <["aggs" := VList [v]]> params | _ => params end in
        aggs ← match v with VStr _ => Ok [v] | _ => py_iter v end;
        let min_doc_count :=
          match present params "min_doc_count" with
          | Some m => if Helpers.looks_like_int m then m else VInt 0
          | None => VInt 0
          end in
        add_aggregation_clauses min_doc_count aggs params q
  end.

End AddAggregations.

(** ** Comment.py *)

Module Comment.

Definition es_index : string := "/rc/comments/_search".

Section Handler.

Variable net : list request -> request -> outcome.
Variables es_primary es_fallback : string.
Variable now : Z.

(** [DBFunctions.pgdb.execute(sql, params)]: the rows, or the exception
    left after its own retries. *)
Variable pgdb_execute : string -> list Z -> result (list (list pyval)).

(** [html.unescape] on a string, [str] of a value that is not a string,
    and the measured [execution_time_milliseconds]. *)
Variable html_unescape : string -> string.
Variable py_repr : pyval -> string.
Variable execution_time : Q.

(** [html.unescape(x) or None] *)
Definition unescape_or_none (x : pyval) : result pyval :=
  match x with
  | VStr s => let u := html_unescape s in Ok (if String.eqb u "" then VNone else VStr u)
  | VList _ | VDict _ =>
      has ← py_in "&" x;
      if has : bool then Err TypeError else Ok (if py_truthy x then x else VNone)
  | VNone | VBool _ | VInt _ | VFloat _ => Err TypeError
  end.

(** One turn of the loop over the rows in [get_ids]. *)
Definition get_ids_row (row : list pyval) : result pyval :=
  comment ← match row with c :: _ => Ok c | [] => Err IndexError end;
  id ← py_getitem comment "id";
  id36 ← Helpers.base36encode_val id;
  comment ← py_setitem comment "id" (VStr id36);
  has_parent ← py_in "parent_id" comment;
  parent_is_none ←
    (if has_parent : bool then
       p ← py_getitem comment "parent_id";
       Ok (match p with VNone => true | _ => false end)
     else Ok true);
  to_link ←
    (if parent_is_none : bool then Ok true
     else
       p ← py_getitem comment "parent_id";
       l ← py_getitem comment "link_id";
       Ok (py_eq p l));
  parent_id ←
    (if to_link : bool then
       l ← py_getitem comment "link_id";
       l36 ← Helpers.base36encode_val l;
       Ok ("t3_" ++ l36)
     else
       p ← py_getitem comment "parent_id";
       p36 ← Helpers.base36encode_val p;
       Ok ("t1_" ++ p36));
  comment ← py_setitem comment "parent_id" (VStr parent_id);
  has_subreddit ← py_in "subreddit_id" comment;
  comment ←
    (if has_subreddit : bool then
       sr ← py_getitem comment "subreddit_id";
       sr36 ← Helpers.base36encode_val sr;
       py_setitem comment "subreddit_id" (VStr ("t5_" ++ sr36))
     else Ok comment);
  l ← py_getitem comment "link_id";
  l36 ← Helpers.base36encode_val l;
  comment ← py_setitem comment "link_id" (VStr ("t3_" ++ l36));
  py_pop comment "name".

(** The loop of [get_ids] that decodes the requested identifiers. *)
Definition decode_comment_id (comment_id : pyval) : result Z :=
  comment_id ← py_lower comment_id;
  let comment_id :=
    if PyStr.startswith "t1_" comment_id
    then String.substring 3 (String.length comment_id - 3) comment_id
    else comment_id in
  Helpers.base36decode comment_id.

(** [get_ids(ids)] *)
Definition get_ids (ids : pyval) : result envelope :=
  let ids := match ids with VList l => l | _ => [ids] end in
  ids_to_get_from_db ← traverse decode_comment_id ids;
  rows ←
    match pgdb_execute "SELECT * FROM comment WHERE (json->>'id')::bigint IN %s LIMIT 5000"
            ids_to_get_from_db with
    | Ok rows => Ok rows
    | Err _ => Err APIError
    end;
  results ← traverse get_ids_row rows;
  Ok (mkEnvelope results None ∅).

(** One turn of the loop over the hits in [do_elasticsearch]. *)
Definition do_elasticsearch_hit (params : gmap string pyval) (hit : pyval)
    : result (gmap string pyval * pyval) :=
  source ← py_getitem hit "_source";
  _id ← py_getitem hit "_id";
  n ← py_int _id;
  id36 ← Helpers.base36encode n;
  source ← py_setitem source "id" (VStr id36);
  l ← py_getitem source "link_id";
  l36 ← Helpers.base36encode_val l;
  source ← py_setitem source "link_id" (VStr ("t3_" ++ l36));
  has_parent ← py_in "parent_id" source;
  source ←
    (if has_parent : bool then
       p ← py_getitem source "parent_id";
       p36 ← Helpers.base36encode_val p;
       py_setitem source "parent_id" (VStr ("t1_" ++ p36))
     else
       l ← py_getitem source "link_id";
       py_setitem source "parent_id" l);
  sr ← py_getitem source "subreddit_id";
  sr36 ← Helpers.base36encode_val sr;
  source ← py_setitem source "subreddit_id" (VStr ("t5_" ++ sr36));
  flair ← py_get source "author_flair_text" (VStr "");
  flair ← unescape_or_none flair;
  source ← py_setitem source "author_flair_text" flair;
  css ← py_get source "author_flair_css_class" (VStr "");
  css ← unescape_or_none css;
  source ← py_setitem source "author_flair_css_class" css;
  _apply_field_filter params source.

Fixpoint do_elasticsearch_hits (params : gmap string pyval) (hits : list pyval)
    : result (gmap string pyval * list pyval) :=
  match hits with
  | [] => Ok (params, [])
  | hit :: rest =>
      '(params, source) ← do_elasticsearch_hit params hit;
      '(params, results) ← do_elasticsearch_hits params rest;
      Ok (params, source :: results)
  end.

(** One turn of the first loop over the [link_id] buckets: the bucket
    with its score recomputed, and its key for the list [ids]. *)
Definition link_id_key (bucket : pyval) : result (pyval * pyval) :=
  bucket ← reset_score bucket;
  key ← py_getitem bucket "key";
  Ok (bucket, key).

(** The loop of [_process_aggregations] that keeps the resolved
    [link_id] buckets. *)
Fixpoint link_id_buckets (submission_data : list (pykey * pyval)) (after : Z)
    (buckets : list pyval) : result (list pyval) :=
  match buckets with
  | [] => Ok []
  | item :: rest =>
      key ← py_getitem item "key";
      k ← to_key key;
      keep ←
        match alist_lookup k submission_data with
        | None => Ok None
        | Some submission =>
            created_utc ← py_getitem submission "created_utc";
            newer ← py_gt_int created_utc after;
            Ok (if newer : bool then Some submission else None)
        end;
      match keep with
      | Some submission =>
          permalink ← py_getitem submission "permalink";
          data ← py_setitem submission "full_link"
                   (VStr ("https://www.reddit.com" ++ py_format py_repr permalink));
          item ← py_setitem item "data" data;
          newlist ← link_id_buckets submission_data after rest;
          Ok (item :: newlist)
      | None => link_id_buckets submission_data after rest
      end
  end.

(** The [subreddit] step of [_process_aggregations]. *)
Definition process_subreddit (aggregations : pyval) (aggs : gmap string pyval)
    : result (gmap string pyval) :=
  has ← py_in "subreddit" aggregations;
  if has : bool then
    buckets ← buckets_of aggregations "subreddit";
    buckets ← traverse set_score buckets;
    sorted ← sorted_by_score buckets;
    Ok (<["subreddit" := VList sorted]> aggs)
  else Ok aggs.

(** [_process_aggregations(aggregations)]; [params] is [self.params]. *)
Definition _process_aggregations (params : gmap string pyval) (aggregations : pyval)
    : Net (gmap string pyval) :=
  let aggs : gmap string pyval := ∅ in
  aggs ← lift (process_subreddit aggregations aggs);
  aggs ←
    lift (has ← py_in "author" aggregations;
          if has : bool then
            buckets ← buckets_of aggregations "author";
            buckets ← traverse reset_score buckets;
            Ok (<["author" := VList buckets]> aggs)
          else Ok aggs);
  aggs ←
    lift (has ← py_in "created_utc" aggregations;
          if has : bool then
            buckets ← buckets_of aggregations "created_utc";
            buckets ← traverse created_utc_bucket buckets;
            Ok (<["created_utc" := VList buckets]> aggs)
          else Ok aggs);
  has ← lift (py_in "link_id" aggregations);
  if has : bool then
    buckets ← lift (buckets_of aggregations "link_id");
    scored ← lift (traverse link_id_key buckets);
    let buckets := scored.*1 in
    let ids := scored.*2 in
    submission_data ← Helpers.get_submissions_from_es net es_primary es_fallback (VList ids);
    after ←
      lift (match params !! "after" with
            | Some v => py_int v
            | None => Ok 0
            end);
    newlist ← lift (link_id_buckets submission_data after buckets);
    mret (<["link_id" := VList newlist]> aggs)
  else mret aggs.

Definition own_clause (agg_lower : string) : option agg_spec :=
  if String.eqb agg_lower "link_id" then Some (ATerms "link_id" 250 ("_count", "desc"))
  else None.

(** [_add_aggregations(q)] *)
Definition _add_aggregations := add_aggregations own_clause.

(** [_execute_search(uri, q)] *)
Definition _execute_search := execute_search net es_fallback es_index.

(** [search(uri)]: the new [self.params], the parsed response and the
    metadata. *)
Definition search (items : list (string * pyval)) (uri : string)
    : Net (gmap string pyval * pyval * gmap string pyval) :=
  let q := empty_query in
  let q :=
    match present (raw_params items) "q" with
    | Some v => add_filter (PSimpleQuery v (Some ["body"])) q
    | None => q
    end in
  '(params, q) ← lift (Parameters.process now items q);
  '(params, q) ← lift (_add_aggregations params q);
  response ← _execute_search uri q;
  data ← lift (resp_json response);
  size ← lift (getitem params "size");
  sort ← lift (getitem params "sort");
  sort_type ← lift (getitem params "sort_type");
  let metadata : gmap string pyval :=
    <["sort_type" := sort_type]> (<["sort" := sort]> (<["size" := size]> ∅)) in
  let metadata :=
    match present params "after" with
    | Some after => <["after" := after]> metadata
    | None => metadata
    end in
  mret (params, data, metadata).

(** [do_elasticsearch()] *)
Definition do_elasticsearch (items : list (string * pyval)) : Net envelope :=
  '(params, data, metadata) ← search items (es_primary ++ es_index);
  hits ← lift (h ← py_getitem data "hits"; h ← py_getitem h "hits"; py_iter h);
  '(params, results) ← lift (do_elasticsearch_hits params hits);
  has_aggs ← lift (py_in "aggregations" data);
  aggs ←
    (if has_aggs : bool then
       aggregations ← lift (py_getitem data "aggregations");
       aggs ← _process_aggregations params aggregations;
       mret (Some aggs)
     else mret None);
  timed_out ← lift (py_getitem data "timed_out");
  total ← lift (h ← py_getitem data "hits"; py_getitem h "total");
  shards ← lift (py_getitem data "_shards");
  let metadata :=
    <["shards" := shards]> (<["total_results" := total]> (<["timed_out" := timed_out]>
      (<["results_returned" := VInt (Z.of_nat (length hits))]> metadata))) in
  mret (mkEnvelope results aggs metadata).

(** [on_get(req, resp)]: the reply and the requests sent to the backends. *)
Definition on_get (items : list (string * pyval)) : list request -> reply * list request :=
  fun tr =>
    let run : Net envelope :=
      data ←
        match raw_params items !! "ids" with
        | Some ids => lift (get_ids ids)
        | None => do_elasticsearch items
        end;
      mret (mkEnvelope (env_data data) (env_aggs data)
              (<["version" := VStr "v3.0"]>
                 (<["execution_time_milliseconds" := VFloat execution_time]>
                    (env_metadata data)))) in
    match run tr with
    | (Ok data, tr') => (Reply200 data, tr')
    | (Err e, tr') => (Reply500 e, tr')
    end.

End Handler.

End Comment.

(** ** Submission.py *)

Module Submission.

Definition es_index : string := "/rs/submissions/_search".

Section Handler.

Variable net : list request -> request -> outcome.
Variables es_primary es_fallback : string.

(** [_execute_search(uri, q)] *)
Definition _execute_search := execute_search net es_fallback es_index.

(** The [subreddit] step of [_process_aggregations]: here the score is
    rounded to five digits. *)
Definition set_rounded_score (bucket : pyval) : result pyval :=
  doc_count ← py_getitem bucket "doc_count";
  bg_count ← py_getitem bucket "bg_count";
  score ← py_truediv doc_count bg_count;
  py_setitem bucket "score" (VFloat (py_round score 5)).

Definition process_subreddit (aggregations : pyval) (aggs : gmap string pyval)
    : result (gmap string pyval) :=
  has ← py_in "subreddit" aggregations;
  if has : bool then
    buckets ← buckets_of aggregations "subreddit";
    buckets ← traverse set_rounded_score buckets;
    sorted ← sorted_by_score buckets;
    Ok (<["subreddit" := VList sorted]> aggs)
  else Ok aggs.

End Handler.

Section Search.

Variable net : list request -> request -> outcome.
Variables es_primary es_fallback : string.
Variable now : Z.
Variable html_unescape : string -> string.
Variable py_repr : pyval -> string.

(** One turn of the loop over the hits in [_process_search_results]. *)
Definition process_hit (params : gmap string pyval) (hit : pyval)
    : result (gmap string pyval * pyval) :=
  source ← py_getitem hit "_source";
  _id ← py_getitem hit "_id";
  n ← py_int _id;
  id36 ← Helpers.base36encode n;
  source ← py_setitem source "id" (VStr id36);
  has ← py_in "subreddit_id" source;
  sr ← (if has : bool then py_getitem source "subreddit_id" else Ok VNone);
  subreddit_id ←
    match sr with
    | VNone => Ok VNone
    | _ =>
        (* [try: ... except (TypeError, ValueError): ... = None] *)
        match Helpers.base36encode_val sr with
        | Ok sr36 => Ok (VStr ("t5_" ++ sr36))
        | Err TypeError | Err ValueError => Ok VNone
        | Err e => Err e
        end
    end;
  source ← py_setitem source "subreddit_id" subreddit_id;
  flair ← py_get source "author_flair_text" (VStr "");
  flair ← Comment.unescape_or_none html_unescape flair;
  source ← py_setitem source "author_flair_text" flair;
  css ← py_get source "author_flair_css_class" (VStr "");
  css ← Comment.unescape_or_none html_unescape css;
  source ← py_setitem source "author_flair_css_class" css;
  permalink ← py_get source "permalink" VNone;
  source ←
    (if py_truthy permalink then
       permalink ← py_getitem source "permalink";
       py_setitem source "full_link"
         (VStr ("https://www.reddit.com" ++ py_format py_repr permalink))
     else Ok source);
  _apply_field_filter params source.

(** The [domain] step of [_process_aggregations]: the loop that keeps
    the buckets whose key does not contain [self.]. *)
Fixpoint domain_buckets (buckets : list pyval) : result (list pyval) :=
  match buckets with
  | [] => Ok []
  | bucket :: rest =>
      key ← py_getitem bucket "key";
      is_self ← py_in "self." key;
      new_buckets ← domain_buckets rest;
      Ok (if is_self : bool then new_buckets else bucket :: new_buckets)
  end.

Definition process_domain (aggregations : pyval) (aggs : gmap string pyval)
    : result (gmap string pyval) :=
  has ← py_in "domain" aggregations;
  if has : bool then
    buckets ← buckets_of aggregations "domain";
    new_buckets ← domain_buckets buckets;
    Ok (<["domain" := VList new_buckets]> aggs)
  else Ok aggs.

(** [s.split(sep)[0]] for a separator of one character. *)
Fixpoint split_head (sep : ascii) (s : string) : string :=
  match s with
  | EmptyString => EmptyString
  | String c r => if Ascii.eqb c sep then EmptyString else String c (split_head sep r)
  end.

(** The text clauses of [search]: [q] on all fields, then [title] and
    [selftext] on their own field. *)
Definition add_text_queries (params : gmap string pyval) (q : query_doc) : query_doc :=
  let q :=
    match present params "q" with
    | Some v => add_filter (PSimpleQuery v None) q
    | None => q
    end in
  foldl (fun q field =>
           match present params field with
           | Some v => add_filter (PSimpleQuery v (Some [field])) q
           | None => q
           end) q ["title"; "selftext"].

(** The exclusion clauses of [search]. *)
Definition add_exclusions (params : gmap string pyval) (q : query_doc) : query_doc :=
  foldl (fun q condition =>
           match present params condition with
           | Some v =>
               add_must_not
                 (PSimpleQuery v (if negb (String.eqb condition "q:not")
                                  then Some [split_head ":" condition] else None)) q
           | None => q
           end) q ["title:not"; "q:not"; "selftext:not"].

Definition own_clause (agg_lower : string) : option agg_spec :=
  if String.eqb agg_lower "domain" then Some (ATerms "domain.keyword" 1000 ("_count", "desc"))
  else if String.eqb agg_lower "time_of_day" then Some (ASignificantTerms "hour" 25 None None)
  else None.

(** [_add_aggregations(q)] *)
Definition _add_aggregations := add_aggregations own_clause.

(** [search(uri)]: the new [self.params], the parsed response and the
    metadata. *)
Definition search (items : list (string * pyval)) (uri : string)
    : Net (gmap string pyval * pyval * gmap string pyval) :=
  let q := mkQuery [] (Some []) None ∅ ∅ in
  '(params, q) ← lift (Parameters.process now items q);
  let q := add_text_queries params q in
  let q := add_exclusions params q in
  '(params, q) ← lift (_add_aggregations params q);
  response ← _execute_search net es_fallback uri q;
  data ← lift (resp_json response);
  sort ← lift (getitem params "sort");
  sort_type ← lift (getitem params "sort_type");
  let metadata : gmap string pyval := <["sort_type" := sort_type]> (<["sort" := sort]> ∅) in
  mret (params, data, metadata).

(** The loop of [get_ids] that decodes the requested identifiers. *)
Definition decode_submission_id (sub_id : pyval) : result Z :=
  sub_id ← py_lower sub_id;
  let sub_id :=
    if PyStr.startswith "t3_" sub_id
    then String.substring 3 (String.length sub_id - 3) sub_id
    else sub_id in
  Helpers.base36decode sub_id.

(** One turn of the loop over the hits in [get_ids]. *)
Definition get_ids_hit (params : gmap string pyval) (hit : pyval)
    : result (gmap string pyval * pyval) :=
  source ← py_getitem hit "_source";
  _id ← py_getitem hit "_id";
  n ← py_int _id;
  id36 ← Helpers.base36encode n;
  source ← py_setitem source "id" (VStr id36);
  has ← py_in "subreddit_id" source;
  source ←
    (if has : bool then
       sr ← py_getitem source "subreddit_id";
       sr36 ← Helpers.base36encode_val sr;
       py_setitem source "subreddit_id" (VStr ("t5_" ++ sr36))
     else Ok source);
  permalink ← py_getitem source "permalink";
  source ← py_setitem source "full_link"
             (VStr ("https://www.reddit.com" ++ py_format py_repr permalink));
  _apply_field_filter params source.

Fixpoint get_ids_hits (params : gmap string pyval) (hits : list pyval)
    : result (gmap string pyval * list pyval) :=
  match hits with
  | [] => Ok (params, [])
  | hit :: rest =>
      '(params, source) ← get_ids_hit params hit;
      '(params, results) ← get_ids_hits params rest;
      Ok (params, source :: results)
  end.

(** [get_ids(ids)]: one request to the primary endpoint, without
    failover; [params] is [self.params], the raw request parameters. *)
Definition get_ids (params : gmap string pyval) (ids : pyval)
    : Net (gmap string pyval * envelope) :=
  let ids := match ids with VList l => l | _ => [ids] end in
  ids_to_fetch ← lift (traverse decode_submission_id ids);
  let q := TermsIdBody (VInt <$> ids_to_fetch) 500 in
  response ←
    except_RequestException
      (resp ← requests_get net (es_primary ++ "/rs/submissions/_search") q 30;
       _ ← raise_for_status resp;
       mret resp)
      (lift (Err ElasticsearchError));
  '(params, results) ←
    lift (s ← resp_json response;
          hits ← py_get s "hits" (VDict ∅);
          hits ← py_get hits "hits" (VList []);
          hits ← py_iter hits;
          get_ids_hits params hits);
  mret (params, mkEnvelope results None ∅).

End Search.

End Submission.

(** ** Resolved buckets

    In the words of the specification: a [link_id] bucket is resolved to
    the submission stored under its key, the submission is newer when its
    creation time is greater than the cursor, a bucket is retained when it
    is resolved to a newer submission, and a retained bucket is enriched
    with the submission and its full link as [data]. *)

Definition resolved (submission_data : list (pykey * pyval)) (item : pyval) : option pyval :=
  match py_getitem item "key" with
  | Ok key =>
      match to_key key with
      | Ok k => alist_lookup k submission_data
      | Err _ => None
      end
  | Err _ => None
  end.

Definition newer (after : Z) (submission : pyval) : bool :=
  match py_getitem submission "created_utc" with
  | Ok created_utc =>
      match py_gt_int created_utc after with
      | Ok b => b
      | Err _ => false
      end
  | Err _ => false
  end.

Definition retained (submission_data : list (pykey * pyval)) (after : Z) (item : pyval) : bool :=
  match resolved submission_data item with
  | Some submission => newer after submission
  | None => false
  end.

Definition enriched (py_repr : pyval -> string) (submission_data : list (pykey * pyval))
    (item : pyval) : pyval :=
  match resolved submission_data item, item with
  | Some (VDict submission), VDict bucket =>
      match submission !! "permalink" with
      | Some permalink =>
          VDict (<["data" :=
                   VDict (<["full_link" :=
                            VStr ("https://www.reddit.com" ++ py_format py_repr permalink)]>
                            submission)]> bucket)
      | None => item
      end
  | _, _ => item
  end.

(** ** Scores of buckets

    The score a processed bucket carries, what it means for a bucket to
    have been given its score, and the order of a list of buckets. *)

Definition bucket_score (bucket : pyval) : option Q :=
  match py_getitem bucket "score" with
  | Ok v => py_number v
  | Err _ => None
  end.

(** [bucket'] is [bucket] with [score] set to [doc_count / bg_count],
    passed through [rounding]. *)
Definition scored_with (rounding : Q -> Q) (bucket bucket' : pyval) : Prop :=
  exists doc_count bg_count ratio,
    py_getitem bucket "doc_count" = Ok doc_count /\
    py_getitem bucket "bg_count" = Ok bg_count /\
    py_truediv doc_count bg_count = Ok ratio /\
    py_setitem bucket "score" (VFloat (rounding ratio)) = Ok bucket' /\
    bucket_score bucket' = Some (rounding ratio).

(** Scores never increase along the list. *)
Definition score_ge (x y : pyval) : Prop :=
  exists qx qy, bucket_score x = Some qx /\ bucket_score y = Some qy /\ Qle qy qx.

Definition descending (l : list pyval) : Prop := StronglySorted score_ge l.

(** Scores decrease at every step of the list. *)
Definition score_gt (x y : pyval) : Prop :=
  exists qx qy, bucket_score x = Some qx /\ bucket_score y = Some qy /\ Qlt qy qx.

Definition strictly_descending (l : list pyval) : Prop := Sorted score_gt l.

(** ** Reading off results

    Projections used to state properties of runs on concrete inputs. *)

Definition params_of (r : result (gmap string pyval * query_doc)) : gmap string pyval :=
  match r with
  | Ok (p, _) => p
  | Err _ => ∅
  end.

Definition query_of (r : result (gmap string pyval * query_doc)) : query_doc :=
  match r with
  | Ok (_, q) => q
  | Err _ => empty_query
  end.

Definition record_of (r : result (gmap string pyval * pyval)) : pyval :=
  match r with
  | Ok (_, v) => v
  | Err _ => VNone
  end.

Definition aggs_of (r : result (gmap string pyval)) : gmap string pyval :=
  match r with
  | Ok m => m
  | Err _ => ∅
  end.

(** ** Sample backend data *)

(** The digit 5 followed by the separator control U+001C, and the digit
    5 after a no-break space, U+00A0. *)
Definition five_separator : string := String "5" (String "028" "").

Definition space_five : string := String "160" (String "5" "").

(** A [subreddit] aggregation with two buckets of equal ratio, one with a
    single bucket of ratio one third, and one with two small ratios, five
    and seven and a half millionths. *)
Definition two_even_buckets : pyval :=
  VDict (<["subreddit" := VDict (<["buckets" := VList
    [VDict (<["key" := VStr "python"]> (<["doc_count" := VInt 1]> (<["bg_count" := VInt 2]> ∅)));
     VDict (<["key" := VStr "rust"]> (<["doc_count" := VInt 2]> (<["bg_count" := VInt 4]> ∅)))]]> ∅)]> ∅).

Definition one_third_bucket : pyval :=
  VDict (<["subreddit" := VDict (<["buckets" := VList
    [VDict (<["key" := VStr "python"]> (<["doc_count" := VInt 1]> (<["bg_count" := VInt 3]> ∅)))]]> ∅)]> ∅).

Definition small_ratio_buckets : pyval :=
  VDict (<["subreddit" := VDict (<["buckets" := VList
    [VDict (<["key" := VStr "python"]> (<["doc_count" := VInt 1]> (<["bg_count" := VInt 200000]> ∅)));
     VDict (<["key" := VStr "rust"]> (<["doc_count" := VInt 3]> (<["bg_count" := VInt 400000]> ∅)))]]> ∅)]> ∅).

(** The doubles written 0.33333 and 0.00001. *)
Definition double_0_33333 : Q := Qmake 3002369727582815 9007199254740992.

Definition double_0_00001 : Q := Qmake 5902958103587057 590295810358705651712.

(** A comment that replies to its submission directly, stored with
    [parent_id] equal to [link_id], as a database record and as a search
    hit. *)
Definition reply_comment : pyval :=
  VDict (<["id" := VInt 100]> (<["link_id" := VInt 10]> (<["parent_id" := VInt 10]>
    (<["subreddit_id" := VInt 5]> ∅)))).

Definition reply_hit : pyval :=
  VDict (<["_id" := VStr "100"]> (<["_source" := reply_comment]> ∅)).

(** A comment search answer with a [link_id] aggregation of one bucket,
    and the answer of the submission lookup for that bucket. *)
Definition link_id_response : pyval :=
  VDict (<["hits" := VDict (<["hits" := VList []]> (<["total" := VInt 3]> ∅))]>
        (<["timed_out" := VBool false]>
        (<["_shards" := VDict ∅]>
        (<["aggregations" := VDict (<["link_id" := VDict (<["buckets" := VList
            [VDict (<["key" := VInt 10]> (<["doc_count" := VInt 3]> ∅))]]> ∅)]> ∅)]> ∅)))).

Definition submission_response : pyval :=
  VDict (<["hits" := VDict (<["hits" := VList
    [VDict (<["_id" := VStr "10"]>
           (<["_source" := VDict (<["id" := VInt 10]> (<["created_utc" := VInt 100]>
                                 (<["permalink" := VStr "/r/python/comments/a/"]> ∅)))]> ∅))]]> ∅)]> ∅).

Definition comments_url : string := "http://mars:9200/rc/comments/_search".

(** Both endpoints answer every request. *)
Definition healthy_net (tr : list request) (r : request) : outcome :=
  if String.eqb (req_url r) comments_url
  then Responded (mkResponse 200 (Ok link_id_response))
  else Responded (mkResponse 200 (Ok submission_response)).

(** The comment search is answered; both submission lookups fail. *)
Definition lookup_down_net (tr : list request) (r : request) : outcome :=
  if String.eqb (req_url r) comments_url
  then Responded (mkResponse 200 (Ok link_id_response))
  else TransportFailure.

Definition sample_on_get (net : list request -> request -> outcome) :=
  Comment.on_get net "http://mars:9200" "http://jupiter:9200" 1000
    (fun _ _ => Ok []) (fun s => s) (fun _ => "") (Qmake 1 2).

Definition reply_aggs (r : reply) (k : string) : option pyval :=
  match r with
  | Reply200 body => env_aggs body ≫= fun aggs => aggs !! k
  | Reply500 _ => None
  end.

Definition reply_error (r : reply) : option exn :=
  match r with
  | Reply200 _ => None
  | Reply500 e => Some e
  end.

(** ** The listing of comment identifiers ([Submission.py]) *)

Module CommentIDsGetter.

Section Handler.

(** [DBFunctions.pgdb.execute(sql, submission_id)] *)
Variable pgdb_execute : string -> Z -> result (list (list pyval)).

(** [on_get(req, resp, submission_id)]: the list under ["data"] of the
    body; an exception leaves the handler. *)
Definition on_get (submission_id : string) : result (list string) :=
  let submission_id := PyStr.lower submission_id in
  let submission_id :=
    if PyStr.startswith "t3_" submission_id
    then String.substring 3 (String.length submission_id - 3) submission_id
    else submission_id in
  submission_id ← Helpers.base36decode submission_id;
  rows ←
    match pgdb_execute ("SELECT (json->>'id')::bigint comment_id FROM comment " ++
                        "WHERE (json->>'link_id')::int = %s ORDER BY comment_id ASC LIMIT 50000")
            submission_id with
    | Ok rows => Ok rows
    | Err _ => Err APIError
    end;
  traverse (fun row : list pyval =>
              match row with
              | comment_id :: _ => Helpers.base36encode_val comment_id
              | [] => Err IndexError
              end) rows.

End Handler.

End CommentIDsGetter.

(** ** DBFunctions.py *)

Module DBFunctions.

(** The exceptions [execute] tells apart: [psycopg2.OperationalError],
    any other [psycopg2.DatabaseError], and any other exception. *)
Inductive db_exn :=
| OperationalError
| DatabaseError
| Unexpected.

(** What the manager does to the outside: a query on a cursor, a pause,
    a new connection. *)
Inductive db_event :=
| Query (sql : string) (params : option pyval)
| Sleep (seconds : Z)
| Connect.

(** The outcome of the [try] block: the rows of [fetchall], or the
    exception raised on the way. *)
Inductive query_outcome :=
| Rows (rows : list (list pyval))
| Raises (e : db_exn).

(** How a call of [execute] ends: [return rows], the end of the loop
    (the function then returns [None]), or an exception. *)
Inductive db_result :=
| Returned (rows : option (list (list pyval)))
| Raised (e : db_exn).

Section Manager.

(** The database: the outcome of a query after the events so far, and
    the exception a new connection raises, if any. *)
Variable db : list db_event -> db_event -> query_outcome.
Variable connect : list db_event -> option db_exn.

Definition max_retries : nat := 5.

Definition retry_delay : Z := 1.

(** The loop [while retries > 0] of [execute]. *)
Fixpoint execute_loop (sql : string) (params : option pyval) (retries : nat)
    (log : list db_event) : db_result * list db_event :=
  match retries with
  | O => (Returned None, log)
  | S retries' =>
      let q := Query sql params in
      match db log q with
      | Rows rows => (Returned (Some rows), log ++ [q])%list
      | Raises OperationalError =>
          match retries' with
          | O => (Raised DatabaseError, log ++ [q])%list
          | S _ =>
              let log := (log ++ [q; Sleep retry_delay])%list in
              match connect log with
              | None => execute_loop sql params retries' (log ++ [Connect])%list
              | Some e => (Raised e, log ++ [Connect])%list
              end
          end
      | Raises e => (Raised e, log ++ [q])%list
      end
  end.

(** [execute(sql, params)] *)
Definition execute (sql : string) (params : option pyval) (log : list db_event)
    : db_result * list db_event :=
  execute_loop sql params max_retries log.

End Manager.

End DBFunctions.

(** ** User.py *)

Module User.

Definition es_index : string := "/rc/comments/_search".

(** The body of a reply of [UserAnalyzer.on_get]: the analysis with its
    metadata, or the error body sent with status 500. *)
Inductive user_reply :=
| Analysis (es_response : pyval) (metadata : gmap string pyval)
| Failed500.

(** The query of [on_get], which does not depend on the request
    parameters. *)
Definition query (author : option string) : query_doc :=
  let size := 2500 in
  let q := set_size (VInt size) empty_query in
  let q :=
    match author with
    | Some a => add_filter (PTerms "author" (VList [VStr (PyStr.lower a)])) q
    | None => q
    end in
  let q := set_sort "created_utc" (VStr "desc") q in
  let q := set_agg "created_utc" (ADateHistogram "created_utc" (VStr "day") ("_key", "asc")) q in
  let q := set_agg "subreddit" (ATerms "subreddit.keyword" size ("_count", "desc")) q in
  set_agg "link_id" (ATerms "link_id" 25 ("_count", "desc")) q.

(** [bucket['key'] = 't3_' + base36encode(bucket['key'])] *)
Definition rename_bucket (bucket : pyval) : result pyval :=
  key ← py_getitem bucket "key";
  k36 ← Helpers.base36encode_val key;
  py_setitem bucket "key" (VStr ("t3_" ++ k36)).

(** The block that rewrites the keys of the [link_id] buckets in
    [es_response]. A truthy [buckets] that is not a list makes the first
    turn of the loop raise. *)
Definition convert_link_ids (es_response : pyval) : result pyval :=
  aggregations ← py_get es_response "aggregations" (VDict ∅);
  link_id ← py_get aggregations "link_id" (VDict ∅);
  buckets ← py_get link_id "buckets" VNone;
  if py_truthy buckets then
    items ← py_iter buckets;
    renamed ← traverse rename_bucket items;
    match buckets with
    | VList _ =>
        link_id ← py_setitem link_id "buckets" (VList renamed);
        aggregations ← py_setitem aggregations "link_id" link_id;
        py_setitem es_response "aggregations" aggregations
    | _ => Ok es_response
    end
  else Ok es_response.

(** [json.loads(response.text)]: a text that is not JSON raises
    [JSONDecodeError], a [ValueError]. *)
Definition json_loads (resp : response) : result pyval :=
  match resp_json resp with
  | Ok v => Ok v
  | Err _ => Err ValueError
  end.

Section Handler.

Variable net : list request -> request -> outcome.
Variables es_primary es_fallback : string.
Variable execution_time : Q.

(** The body of either [try] block. *)
Definition attempt (search_url : string) (q : query_doc) : Net pyval :=
  resp ← requests_get net search_url (SearchBody q) 30;
  _ ← raise_for_status resp;
  es_response ← lift (json_loads resp);
  lift (convert_link_ids es_response).

(** [on_get(req, resp, author)] *)
Definition on_get (author : option string) : Net user_reply :=
  let q := query author in
  found ←
    except_RequestException
      (es_response ← attempt (es_primary ++ es_index) q; mret (Some es_response))
      (except_RequestException
         (es_response ← attempt (es_fallback ++ es_index) q; mret (Some es_response))
         (mret None));
  match found with
  | Some es_response =>
      mret (Analysis es_response
              (<["version" := VStr "v3.0"]>
                 (<["execution_time_milliseconds" := VFloat execution_time]> ∅)))
  | None => mret Failed500
  end.

End Handler.

End User.

(** ** Vocabulary of the further properties *)

(** A string of ASCII characters. *)
Fixpoint is_ascii (s : string) : bool :=
  match s with
  | EmptyString => true
  | String c r => (PyStr.code c <? 128) && is_ascii r
  end.

(** A canonical identifier: digits of the alphabet without a leading
    zero, or the single digit zero. *)
Definition canonical (s : string) : bool :=
  Helpers.over_alphabet s &&
  match s with
  | EmptyString => false
  | String c r => negb (Ascii.eqb c "0") || String.eqb r ""
  end.

(** The parameters that [process] writes. *)
Definition written_keys : list string :=
  ["subreddit"; "author"; "after"; "before"; "sort_type"; "size"; "sort"; "frequency"].

(** [q'] is [q] with clauses appended to its filter list. *)
Definition appends (q q' : query_doc) : Prop :=
  exists added,
    q' = mkQuery (q_filter q ++ added)%list (q_must_not q) (q_size q) (q_sort q) (q_aggs q).

(** The flags [_process_boolean_filters] visits, in its order. *)
Definition boolean_flags : list string :=
  ["over_18"; "is_video"; "stickied"; "spoiler"; "locked"; "contest_mode"].

(** The clause a boolean flag contributes. *)
Definition flag_clause (p : gmap string pyval) (flag : string) : option predicate :=
  match present p flag with
  | Some (VStr value) =>
      if String.eqb (PyStr.lower value) "true" || String.eqb value "1"
      then Some (PTerm flag (VStr "true"))
      else if String.eqb (PyStr.lower value) "false" || String.eqb value "0"
      then Some (PTerm flag (VStr "false"))
      else None
  | _ => None
  end.

(** Seconds in the unit of a relative time expression. *)
Definition unit_seconds (c : ascii) : option Z :=
  let u := PyStr.lower_char c in
  if Ascii.eqb u "d" then Some 86400
  else if Ascii.eqb u "h" then Some 3600
  else if Ascii.eqb u "m" then Some 60
  else if Ascii.eqb u "s" then Some 1
  else None.

(** The clause a [score] or [num_comments] parameter compiles to; [None]
    when the bound of a comparison is not an integer. *)
Definition count_clause (field s : string) : option predicate :=
  let plain :=
    Some (match PyStr.int_of_string 10 s with
          | Some n => PTerm field (VInt n)
          | None => PEmpty
          end) in
  match s with
  | String c t =>
      if Ascii.eqb c "<" then PRangeLt field <$> PyStr.int_of_string 10 t
      else if Ascii.eqb c ">" then PRangeGt field <$> PyStr.int_of_string 10 t
      else plain
  | EmptyString => plain
  end.

(** The names a [fields] parameter lists, in lower case, as
    [_apply_field_filter] reads them: a string stands for the list of
    itself. *)
Definition field_names (v : pyval) : result (list string) :=
  fields ← match v with VStr _ => Ok [v] | _ => py_iter v end;
  traverse py_lower fields.

(** [c] sends at most [k] requests, each of which satisfies [P], and
    forgets none that was sent before. *)
Definition sends {A} (k : nat) (P : request -> Prop) (c : Net A) : Prop :=
  forall tr, exists sent,
    snd (c tr) = (tr ++ sent)%list /\ (length sent <= k)%nat /\ Forall P sent.

(** A request to one of the four backend URLs, with the timeout 30. *)
Definition backend_request (es_primary es_fallback : string) (r : request) : Prop :=
  req_timeout r = 30 /\
  req_url r ∈ [es_primary ++ Comment.es_index; es_fallback ++ Comment.es_index;
               es_primary ++ "/rs/submissions/_search";
               es_fallback ++ "/rs/submissions/_search"].

(** The envelope of a reply with status 200. *)
Definition reply_body (r : reply) : envelope :=
  match r with
  | Reply200 body => body
  | Reply500 _ => mkEnvelope [] None ∅
  end.

(** The clauses the text parameters of a submission search compile to. *)
Definition text_clauses (p : gmap string pyval) : list predicate :=
  omap (fun kf : string * option (list string) =>
          (fun v => PSimpleQuery v (snd kf)) <$> present p (fst kf))
       [("q", None); ("title", Some ["title"]); ("selftext", Some ["selftext"])].

Definition exclusion_clauses (p : gmap string pyval) : list predicate :=
  omap (fun kf : string * option (list string) =>
          (fun v => PSimpleQuery v (snd kf)) <$> present p (fst kf))
       [("title:not", Some ["title"]); ("q:not", None); ("selftext:not", Some ["selftext"])].

(** A bucket of the [domain] aggregation whose key contains [self.]. *)
Definition mentions_self (bucket : pyval) : bool :=
  match py_getitem bucket "key" ≫= py_in "self." with
  | Ok b => b
  | Err _ => false
  end.

(** An entry of the dictionary of submissions: it is stored under the
    number that its identifier encodes, and has no [name]. *)
Definition pg_entry (kv : pykey * pyval) : Prop :=
  exists n s (m : gmap string pyval),
    fst kv = KNum (inject_Z n) /\ snd kv = VDict m /\
    m !! "id" = Some (VStr s) /\ Helpers.base36decode s = Ok n /\ m !! "name" = None.

(** The queries and the pauses among some events. *)
Definition queries (events : list DBFunctions.db_event) : nat :=
  length (List.filter (fun e => match e with DBFunctions.Query _ _ => true | _ => false end)
            events).

Definition pauses (events : list DBFunctions.db_event) : Z :=
  foldr (fun e t => match e with DBFunctions.Sleep s => s + t | _ => t end) 0 events.

(** * Properties *)

Import PyStr Helpers.

(** ** The identifier codec *)

Example base36encode_0 : Helpers.base36encode 0 = Ok "0".
Proof. reflexivity. Qed.

Example base36encode_35 : Helpers.base36encode 35 = Ok "z".
Proof. reflexivity. Qed.

Example base36encode_36 : Helpers.base36encode 36 = Ok "10".
Proof. reflexivity. Qed.

Example base36encode_big : Helpers.base36encode 1234567890 = Ok "kf12oi".
Proof. vm_compute. reflexivity. Qed.

Example base36decode_upper : Helpers.base36decode " KF12oi " = Ok 1234567890.
Proof. vm_compute. reflexivity. Qed.

Example int_underscore : py_int (VStr "1_000") = Ok 1000.
Proof. vm_compute. reflexivity. Qed.

Example int_bad : py_int (VStr "1__0") = Err ValueError.
Proof. vm_compute. reflexivity. Qed.

(** A separator control is no white space for [int]; a no-break space
    is. *)
Example int_separator : py_int (VStr five_separator) = Err ValueError.
Proof. vm_compute. reflexivity. Qed.

Example int_no_break_space : py_int (VStr space_five) = Ok 5.
Proof. vm_compute. reflexivity. Qed.

Lemma in_alphabet_plain c :
  in_alphabet c = true ->
  is_space c = false /\ Ascii.eqb c "_" = false /\ c <> "+"%char /\ c <> "-"%char /\
  exists d, digit_value c = Some d /\ (d <? 36) = true.
Proof.
  destruct c as [[] [] [] [] [] [] [] []]; vm_compute; intros H;
    try discriminate H; repeat split; try congruence; eexists; split; reflexivity.
Qed.

Lemma alphabet_at_digit (n : nat) :
  (n < 36)%nat ->
  exists c, alphabet_at (Z.of_nat n) = Ok c /\
            in_alphabet c = true /\ digit_value c = Some (Z.of_nat n).
Proof.
  intros Hn.
  do 36 (destruct n as [|n]; [eexists; vm_compute; repeat split; reflexivity|]).
  lia.
Qed.

Lemma alphabet_at_range (i : Z) :
  0 <= i < 36 ->
  exists c, alphabet_at i = Ok c /\ in_alphabet c = true /\ digit_value c = Some i.
Proof.
  intros Hi. destruct (alphabet_at_digit (Z.to_nat i)) as (c & H1 & H2 & H3); [lia|].
  rewrite Z2Nat.id in H1, H3 by lia. eauto.
Qed.

Lemma parse_digits_value s : forall acc,
  over_alphabet s = true -> parse_digits 36 acc false s = Some (value36 acc s).
Proof.
  induction s as [|c r IH]; intros acc H; simpl in *; [reflexivity|].
  apply andb_true_iff in H as [Hc Hr].
  destruct (in_alphabet_plain c Hc) as (_ & Hus & _ & _ & d & Hd & Hlt).
  rewrite Hus, Hd, Hlt. simpl. apply IH, Hr.
Qed.

Lemma rstrip_cons c s :
  rstrip (String c s) =
  match rstrip s with
  | EmptyString => if is_space c then EmptyString else String c EmptyString
  | r' => String c r'
  end.
Proof. reflexivity. Qed.

Lemma rstrip_over_alphabet s : over_alphabet s = true -> rstrip s = s.
Proof.
  induction s as [|c r IH]; intros H; simpl in *; [reflexivity|].
  apply andb_true_iff in H as [Hc Hr].
  rewrite (IH Hr). destruct (in_alphabet_plain c Hc) as (Hsp & _).
  destruct r; [rewrite Hsp|]; reflexivity.
Qed.

Lemma int_of_digits s :
  over_alphabet s = true -> s <> "" ->
  int_of_string 36 s = Some (value36 0 s).
Proof.
  intros H Hne. destruct s as [|c r]; [congruence|].
  pose proof H as H'. simpl in H'. apply andb_true_iff in H' as [Hc Hr].
  destruct (in_alphabet_plain c Hc) as (Hsp & Hus & Hplus & Hminus & _).
  unfold int_of_string, strip.
  assert (Hl : lstrip (String c r) = String c r) by (simpl; rewrite Hsp; reflexivity).
  rewrite Hl, (rstrip_over_alphabet _ H).
  assert (Hp : parse_unsigned 36 (String c r) = Some (value36 0 (String c r))).
  { unfold parse_unsigned. rewrite Hus. apply parse_digits_value, H. }
  destruct c as [[] [] [] [] [] [] [] []]; try exact Hp; congruence.
Qed.

(** The loop ends within its fuel and prepends the digits of [number]. *)
Lemma encode_loop_spec fuel : forall number base36,
  0 <= number < 2 ^ Z.of_nat fuel ->
  over_alphabet base36 = true ->
  exists s k, encode_loop fuel number base36 = Ok s /\
    over_alphabet s = true /\
    (String.length base36 <= String.length s)%nat /\
    forall acc, value36 acc s = value36 (acc * 36 ^ Z.of_nat k + number) base36.
Proof.
  induction fuel as [|fuel IH]; intros number base36 Hn Hb.
  - assert (number = 0) as -> by (simpl in Hn; lia).
    exists base36, 0%nat. simpl. repeat split; auto.
    intros acc. f_equal. lia.
  - cbn [encode_loop]. destruct (Z.eqb_spec number 0) as [->|Hnz].
    + exists base36, 0%nat. repeat split; auto. intros acc. f_equal. lia.
    + change len_alphabet with 36.
      assert (Hi : 0 <= number mod 36 < 36) by (apply Z.mod_pos_bound; lia).
      destruct (alphabet_at_range _ Hi) as (c & Hc & Hin & Hd).
      rewrite Hc. cbn [mbind result_bind].
      assert (Hq : 0 <= number / 36 < 2 ^ Z.of_nat fuel).
      { split; [apply Z.div_pos; lia|].
        apply Z.div_lt_upper_bound; [lia|].
        rewrite Nat2Z.inj_succ, Z.pow_succ_r in Hn by lia. lia. }
      destruct (IH (number / 36) (String c base36) Hq) as (s & k & Hs & Ho & Hl & Hv).
      { simpl. rewrite Hin, Hb. reflexivity. }
      exists s, (S k). repeat split; auto.
      * change (String.length (String c base36)) with (S (String.length base36)) in Hl. lia.
      * intros acc. rewrite Hv. cbn [value36]. rewrite Hd. cbn [default].
        f_equal. unfold id. rewrite Nat2Z.inj_succ, Z.pow_succ_r by lia.
        pose proof (Z.div_mod number 36 ltac:(lia)). lia.
Qed.

(** The encoder on a non-negative number: a non-empty string over the
    alphabet that denotes the number. *)
Lemma base36encode_nonneg n :
  0 <= n ->
  exists s, base36encode n = Ok s /\ over_alphabet s = true /\ s <> "" /\ value36 0 s = n.
Proof.
  intros Hn. unfold base36encode.
  destruct (Z.ltb_spec n 0) as [?|_]; [lia|].
  destruct (Z.leb_spec 0 n) as [_|?]; [|lia].
  change len_alphabet with 36. cbn [andb].
  destruct (Z.ltb_spec n 36) as [Hlt|Hge].
  - destruct (alphabet_at_range n) as (c & Hc & Hin & Hd); [lia|].
    rewrite Hc. cbn [mbind result_bind]. exists (String c ""). simpl.
    rewrite Hin, Hd. split; [reflexivity|]. split; [reflexivity|].
    split; [congruence|]. cbn [default]. unfold id. lia.
  - destruct (encode_loop_spec (S (Z.to_nat (Z.log2 n))) n "") as (s & k & Hs & Ho & Hl & Hv).
    + rewrite Nat2Z.inj_succ, Z2Nat.id by apply Z.log2_nonneg.
      split; [lia|]. apply Z.log2_spec. lia.
    + reflexivity.
    + rewrite Hs. cbn [mbind result_bind]. exists s.
      split; [reflexivity|]. split; [exact Ho|]. split.
      * intros ->. cbn [encode_loop] in Hs.
        destruct (Z.eqb_spec n 0); [lia|].
        change len_alphabet with 36 in Hs.
        destruct (alphabet_at_range (n mod 36)) as (c & Hc & _);
          [apply Z.mod_pos_bound; lia|].
        rewrite Hc in Hs. cbn [mbind result_bind] in Hs.
        destruct (encode_loop_spec (Z.to_nat (Z.log2 n)) (n / 36) (String c ""))
          as (s' & k' & Hs' & _ & Hl' & _).
        { split; [apply Z.div_pos; lia|]. apply Z.div_lt_upper_bound; [lia|].
          rewrite Z2Nat.id by apply Z.log2_nonneg.
          pose proof (Z.log2_spec n). rewrite Z.pow_succ_r in H by apply Z.log2_nonneg. lia. }
        { simpl. destruct (alphabet_at_range (n mod 36)) as (c' & Hc' & Hin' & _);
            [apply Z.mod_pos_bound; lia|]. rewrite Hc in Hc'. injection Hc' as ->.
          rewrite Hin'. reflexivity. }
        rewrite Hs in Hs'. injection Hs' as <-.
        change (String.length (String c "")) with 1%nat in Hl'.
        change (String.length "") with 0%nat in Hl'. lia.
      * rewrite Hv. cbn [value36]. lia.
Qed.

(** C3: for every non-negative integer [n] the encoder returns a string
    over the alphabet [0-9a-z], which is ["0"] for zero, and decoding that
    string returns [n]. *)
Theorem base36_roundtrip (n : Z) :
  0 <= n ->
  exists s, base36encode n = Ok s /\ over_alphabet s = true /\
            (n = 0 -> s = "0") /\ base36decode s = Ok n.
Proof.
  intros Hn. destruct (base36encode_nonneg n Hn) as (s & Hs & Ho & Hne & Hv).
  exists s. repeat split; auto.
  - intros ->. vm_compute in Hs. congruence.
  - unfold base36decode. rewrite (int_of_digits s Ho Hne), Hv. reflexivity.
Qed.

(** The round trip on 1234567890. *)
Lemma base36_roundtrip_witness :
  0 <= 1234567890 /\
  exists s, base36encode 1234567890 = Ok s /\ over_alphabet s = true /\
            (1234567890 = 0 -> s = "0") /\ base36decode s = Ok 1234567890.
Proof. split; [lia | apply (base36_roundtrip 1234567890); lia]. Defined.

(** C8, as stated, fails: on [-1] the encoder returns the string ["-1"]
    and raises nothing. *)
Lemma base36encode_negative_returns :
  base36encode (-1) = Ok "-1" /\ ~ (exists e, base36encode (-1) = Err e).

Proof. split; [reflexivity | intros [e H]; vm_compute in H; discriminate H]. Qed.

(** C8, amended: for every negative integer [n] the encoder returns a
    minus sign followed by the encoding of [- n], and the decoder maps that
    string back to [n]. *)
Theorem base36encode_negative (n : Z) :
  n < 0 ->
  exists s, base36encode (- n) = Ok s /\ base36encode n = Ok ("-" ++ s) /\
            base36decode ("-" ++ s) = Ok n.
Proof.
  intros Hn. destruct (base36encode_nonneg (- n)) as (s & Hs & Ho & Hne & Hv); [lia|].
  exists s. split; [exact Hs|]. split.
  - unfold base36encode in *.
    destruct (Z.ltb_spec n 0) as [_|?]; [|lia].
    destruct (Z.ltb_spec (- n) 0) as [?|_]; [lia|].
    destruct ((0 <=? - n) && (- n <? len_alphabet)).
    + destruct (alphabet_at (- n)); cbn [mbind result_bind] in *; [|discriminate].
      injection Hs as <-. reflexivity.
    + destruct (encode_loop _ _ _); cbn [mbind result_bind] in *; [|discriminate].
      injection Hs as <-. reflexivity.
  - unfold base36decode, int_of_string, strip.
    destruct s as [|c r]; [congruence|].
    pose proof Ho as Ho'. simpl in Ho'. apply andb_true_iff in Ho' as [Hc Hr].
    destruct (in_alphabet_plain c Hc) as (_ & Hus & _).
    assert (Hl : lstrip ("-" ++ String c r) = "-" ++ String c r) by reflexivity.
    rewrite Hl.
    assert (Hr' : rstrip ("-" ++ String c r) = "-" ++ String c r).
    { change ("-" ++ String c r) with (String "-" (String c r)).
      rewrite rstrip_cons, (rstrip_over_alphabet _ Ho). reflexivity. }
    rewrite Hr'. change ("-" ++ String c r) with (String "-" (String c r)). cbv iota beta.
    unfold parse_unsigned. rewrite Hus, (parse_digits_value _ 0 Ho), Hv.
    simpl. f_equal. lia.
Qed.


(** The encoding of [-5]. *)
Lemma base36encode_negative_witness :
  -5 < 0 /\
  exists s, base36encode (- -5) = Ok s /\ base36encode (-5) = Ok ("-" ++ s) /\
            base36decode ("-" ++ s) = Ok (-5).
Proof. split; [lia | apply (base36encode_negative (-5)); lia]. Defined.

(** ** Inversion of sequenced computations *)

Lemma bind_Ok {A B} (c : result A) (k : A -> result B) (b : B) :
  c ≫= k = Ok b -> exists a, c = Ok a /\ k a = Ok b.
Proof. destruct c as [a|e]; [eauto | discriminate]. Qed.

Ltac not_in_keys :=
  repeat (apply not_elem_of_cons; split; [congruence|]); apply not_elem_of_nil.

Tactic Notation "inv_bind" hyp(H) :=
  let a := fresh "a" in
  let Ha := fresh "Ha" in
  apply bind_Ok in H as (a & Ha & H).

Tactic Notation "inv_bind" hyp(H) "as" ident(a) ident(Ha) :=
  apply bind_Ok in H as (a & Ha & H).

(** ** Parameter normalisation *)

Section Normaliser.

Variable now : Z.

Lemma process_conditions_lookup cs : forall p q p' q',
  Parameters.process_conditions cs p q = Ok (p', q') ->
  forall k, k ∉ cs -> p' !! k = p !! k.
Proof.
  induction cs as [|c cs IH]; intros p q p' q' H k Hk; simpl in H.
  - congruence.
  - apply not_elem_of_cons in Hk as [Hkc Hk].
    destruct (present p c) as [v|].
    + inv_bind H. rewrite (IH _ _ _ _ H k Hk). apply lookup_insert_ne. congruence.
    + apply (IH _ _ _ _ H k Hk).
Qed.

Lemma _process_time_range_lookup p q p' q' :
  Parameters._process_time_range now p q = Ok (p', q') ->
  forall k, k <> "after" -> k <> "before" -> p' !! k = p !! k.
Proof.
  unfold Parameters._process_time_range. intros H k Ha Hb.
  inv_bind H. destruct a as [p1 q1].
  assert (H1 : p1 !! k = p !! k).
  { destruct (present p "after"); [inv_bind Ha0|]; injection Ha0 as <- <-;
      apply lookup_insert_ne; congruence. }
  rewrite <- H1.
  destruct (present p1 "before"); [inv_bind H|]; injection H as <- <-;
    apply lookup_insert_ne; congruence.
Qed.

Lemma process_count_filter_params f p q p' q' :
  Parameters.process_count_filter f p q = Ok (p', q') -> p' = p.
Proof.
  unfold Parameters.process_count_filter. intros H.
  destruct (present p f) as [[]|]; try discriminate; [inv_bind H|]; congruence.
Qed.

Lemma process_boolean_conditions_params cs : forall p q p' q',
  Parameters.process_boolean_conditions cs p q = Ok (p', q') -> p' = p.
Proof.
  induction cs as [|c cs IH]; intros p q p' q' H; simpl in H; [congruence|].
  destruct (present p c) as [[]|]; try discriminate; [|eauto].
  destruct (_ || _); [eauto|]. destruct (_ || _); eauto.
Qed.


Lemma looks_like_int_Ok v : looks_like_int v = true -> exists m, py_int v = Ok m.
Proof. unfold looks_like_int. destruct (py_int v) as [m|[]]; try discriminate; eauto. Qed.

Lemma looks_like_int_Err v e : py_int v = Err e -> looks_like_int v = false.
Proof. unfold looks_like_int. intros ->. destruct e; reflexivity. Qed.

(** The size step never raises; it writes one number, at most 500, to the
    parameters and to the query, and leaves the other parameters alone. *)
Lemma process_size_spec p q :
  exists p' n,
    Parameters.process_size p q = Ok (p', set_size (VInt n) q) /\
    p' !! "size" = Some (VInt n) /\
    (forall k, k <> "size" -> p' !! k = p !! k) /\
    n <= 500 /\
    (forall v m, Parameters.requested_size p = Some v -> py_int v = Ok m -> n = Z.min 500 m) /\
    (forall v, Parameters.requested_size p = Some v -> looks_like_int v = false -> n = 25) /\
    (Parameters.requested_size p = None -> n = 25).
Proof.
  unfold Parameters.process_size, Parameters.requested_size.
  set (p0 := match p !! "limit" with Some v => <["size" := v]> p | None => p end).
  assert (Hp0 : forall k, k <> "size" -> p0 !! k = p !! k).
  { intros k Hk. unfold p0. destruct (p !! "limit"); [apply lookup_insert_ne; congruence | reflexivity]. }
  assert (Hsz : p0 !! "size" = match p !! "limit" with Some v => Some v | None => p !! "size" end).
  { unfold p0. destruct (p !! "limit"); [apply lookup_insert_eq | reflexivity]. }
  assert (Hother : forall n k, k <> "size" -> <["size" := VInt n]> p0 !! k = p !! k).
  { intros n k Hk. rewrite lookup_insert_ne by congruence. auto. }
  unfold present. rewrite Hsz.
  destruct (match p !! "limit" with Some v => Some v | None => p !! "size" end) as [v|] eqn:Hv.
  - destruct (looks_like_int v) eqn:Hl.
    + destruct (looks_like_int_Ok v Hl) as [m Hm].
      exists (<["size" := VInt (Z.min 500 m)]> p0), (Z.min 500 m).
      split; [destruct v; try discriminate Hl; rewrite Hl, Hm; reflexivity|].
      split; [apply lookup_insert_eq|]. split; [auto|]. split; [lia|].
      split; [intros v' m' [= <-] Hm'; congruence|].
      split; [intros v' [= <-]; congruence | discriminate].
    + exists (<["size" := VInt 25]> p0), 25.
      split; [destruct v; try rewrite Hl; reflexivity|].
      split; [apply lookup_insert_eq|]. split; [auto|]. split; [lia|].
      split; [intros v' m' [= <-] Hm'|auto].
      unfold looks_like_int in Hl. rewrite Hm' in Hl. discriminate.
  - exists (<["size" := VInt 25]> p0), 25.
    split; [reflexivity|].
    split; [apply lookup_insert_eq|]. split; [auto|]. split; [lia|].
    split; [discriminate|]. split; [discriminate|reflexivity].
Qed.

Lemma lower_char_idem c : lower_char (lower_char c) = lower_char c.
Proof. destruct c as [[] [] [] [] [] [] [] []]; reflexivity. Qed.

Lemma lower_idem s : lower (lower s) = lower s.
Proof. induction s as [|c r IH]; simpl; [reflexivity|]. rewrite lower_char_idem, IH. reflexivity. Qed.

Lemma py_lower_Ok v s : py_lower v = Ok s -> exists t, v = VStr t /\ s = lower t.
Proof. destruct v; try discriminate. intros [= <-]. eauto. Qed.

Lemma present_Some_lookup (p : gmap string pyval) k v : present p k = Some v -> p !! k = Some v.
Proof. unfold present. destruct (p !! k) as [[]|]; congruence. Qed.

Lemma present_ext (p p' : gmap string pyval) k : p' !! k = p !! k -> present p' k = present p k.
Proof. unfold present. intros ->. reflexivity. Qed.

(** The sort step writes one direction to the parameters and to the
    query under the sort field. *)
Lemma process_sort_spec st p q p' q' :
  Parameters.process_sort "desc" st p q = Ok (p', q') ->
  exists d,
    p' !! "sort" = Some (VStr d) /\
    q' = set_sort st (VStr d) q /\
    (forall k, k <> "sort" -> p' !! k = p !! k) /\
    (Parameters.requested_sort p = None -> d = "desc") /\
    (forall v, Parameters.requested_sort p = Some v -> exists s, v = VStr s /\ d = lower s).
Proof.
  unfold Parameters.process_sort, Parameters.requested_sort. intros H.
  inv_bind H. inv_bind H. injection H as <- <-. rename a into p1, a0 into d.
  exists d. split; [apply lookup_insert_eq|]. split; [reflexivity|].
  destruct (present p "order") as [v|] eqn:Ho.
  - inv_bind Ha. injection Ha as <-.
    destruct (py_lower_Ok _ _ Ha1) as (t & -> & ->).
    assert (Hs : present (<["sort" := VStr (lower t)]> p) "sort" = Some (VStr (lower t))).
    { unfold present. rewrite lookup_insert_eq. reflexivity. }
    rewrite Hs in Ha0. simpl in Ha0. injection Ha0 as <-.
    split; [intros k Hk; rewrite !lookup_insert_ne by congruence; reflexivity|].
    split; [discriminate|]. intros v [= <-]. exists t. split; [reflexivity|apply lower_idem].
  - injection Ha as <-.
    split; [intros k Hk; rewrite lookup_insert_ne by congruence; reflexivity|].
    destruct (present p "sort") as [v|].
    + split; [discriminate|]. intros v' [= <-]. apply py_lower_Ok in Ha0. exact Ha0.
    + injection Ha0 as <-. split; [reflexivity | discriminate].
Qed.

(** The stages of [process], in order. *)
Lemma process_stages items q p' q' :
  Parameters.process now items q = Ok (p', q') ->
  exists p1 q1 st p2 q2 p3,
    (forall k, k <> "subreddit" -> k <> "author" -> k <> "after" -> k <> "before" ->
               p1 !! k = Parameters.lower_keys items !! k) /\
    Parameters.process_size (<["sort_type" := VStr st]> p1) q1 = Ok (p2, q2) /\
    Parameters.process_sort "desc" st p2 q2 = Ok (p3, q') /\
    (forall k, k <> "frequency" -> p' !! k = p3 !! k).
Proof.
  unfold Parameters.process. intros H.
  inv_bind H. destruct a as [pa qa]. inv_bind H. destruct a as [pb qb].
  inv_bind H. destruct a as [pc qc]. inv_bind H. destruct a as [pd qd].
  inv_bind H. destruct a as [pe qe]. inv_bind H. rename a into st.
  inv_bind H. destruct a as [p2 q2]. inv_bind H. destruct a as [p3 q3].
  inv_bind H. injection H as <- <-.
  apply process_count_filter_params in Ha1 as ->.
  apply process_count_filter_params in Ha2 as ->.
  apply process_boolean_conditions_params in Ha3 as ->.
  exists pb, qe, st, p2, q2, p3. split; [|split; [exact Ha5|split; [exact Ha6|]]].
  - intros k Hk1 Hk2 Hk3 Hk4. rewrite (_process_time_range_lookup _ _ _ _ Ha0 k) by assumption.
    apply (process_conditions_lookup _ _ _ _ _ Ha). not_in_keys.
  - intros k Hk. destruct (p3 !! "frequency") as [f|].
    + inv_bind Ha7. destruct (bool_decide _); injection Ha7 as <-;
        apply lookup_insert_ne; congruence.
    + injection Ha7 as <-. apply lookup_insert_ne; congruence.
Qed.


(** C2, as stated, fails: the request [size=0] is normalised to the size
    0, in the parameters and in the query, and 0 is not in [1,500]. *)
Lemma size_zero_not_clamped :
  exists p q n,
    Parameters.process 0 [("size", VStr "0")] empty_query = Ok (p, q) /\
    p !! "size" = Some (VInt n) /\ q_size q = Some (VInt n) /\ ~ (1 <= n <= 500).
Proof.
  destruct (Parameters.process 0 [("size", VStr "0")] empty_query) as [[p q]|e] eqn:E;
    [|vm_compute in E; discriminate E].
  exists p, q, 0. split; [reflexivity|].
  assert (Hp : (p !! "size", q_size q) = (Some (VInt 0), Some (VInt 0))).
  { change ((fun r => match r with Ok (p, q) => (p !! "size", q_size q) | Err _ => (None, None) end)
              (Ok (p, q)) = (Some (VInt 0), Some (VInt 0))).
    rewrite <- E. vm_compute. reflexivity. }
  injection Hp as -> ->. repeat split. lia.
Qed.

(** A size that [int] does not accept, here the digit 5 followed by a
    separator control, yields 25. *)
Example size_not_an_integer :
  params_of (Parameters.process 0 [("size", VStr five_separator)] empty_query) !! "size"
  = Some (VInt 25).
Proof. vm_compute. reflexivity. Qed.

(** C2, amended: whenever normalisation returns, the size in the
    parameters and the size bound of the query are one number [n <= 500]:
    [min(500, m)] when the requested size (or its alias [limit]) converts to
    the integer [m], and 25 when it does not convert or is absent. There is
    no lower bound. *)
Theorem process_size_capped items q p' q' :
  Parameters.process now items q = Ok (p', q') ->
  exists n,
    p' !! "size" = Some (VInt n) /\ q_size q' = Some (VInt n) /\ n <= 500 /\
    (forall v m, Parameters.requested_size (Parameters.lower_keys items) = Some v ->
                 py_int v = Ok m -> n = Z.min 500 m) /\
    (forall v, Parameters.requested_size (Parameters.lower_keys items) = Some v ->
               looks_like_int v = false -> n = 25) /\
    (Parameters.requested_size (Parameters.lower_keys items) = None -> n = 25).
Proof.
  intros H. destruct (process_stages _ _ _ _ H) as (p1 & q1 & st & p2 & q2 & p3 & H1 & Hsz & Hso & Hf).
  destruct (process_size_spec (<["sort_type" := VStr st]> p1) q1)
    as (p2' & n & Hsz' & Hn & Hk & Hle & Hnum & Hnon & Habs).
  rewrite Hsz in Hsz'. injection Hsz' as <- ->.
  destruct (process_sort_spec _ _ _ _ _ Hso) as (d & _ & -> & Hk' & _).
  assert (Hreq : Parameters.requested_size (<["sort_type" := VStr st]> p1) =
                 Parameters.requested_size (Parameters.lower_keys items)).
  { unfold Parameters.requested_size.
    rewrite !lookup_insert_ne by congruence. rewrite !H1 by congruence. reflexivity. }
  rewrite Hreq in Hnum, Hnon, Habs.
  exists n. split; [rewrite Hf, Hk' by congruence; exact Hn|].
  split; [reflexivity|]. auto.
Qed.

(** C9, as stated, fails: the request [sort=sideways] is normalised to
    the direction ["sideways"], which is neither ["asc"] nor ["desc"]. *)
Lemma sort_direction_not_validated :
  exists p q d,
    Parameters.process 0 [("sort", VStr "sideways")] empty_query = Ok (p, q) /\
    p !! "sort" = Some (VStr d) /\ q_sort q !! "created_utc" = Some (VStr d) /\
    d <> "asc" /\ d <> "desc".
Proof.
  destruct (Parameters.process 0 [("sort", VStr "sideways")] empty_query) as [[p q]|e] eqn:E;
    [|vm_compute in E; discriminate E].
  exists p, q, "sideways". split; [reflexivity|].
  assert (Hp : (p !! "sort", q_sort q !! "created_utc") =
               (Some (VStr "sideways"), Some (VStr "sideways"))).
  { change ((fun r => match r with
                      | Ok (p, q) => (p !! "sort", q_sort q !! "created_utc")
                      | Err _ => (None, None)
                      end) (Ok (p, q)) = (Some (VStr "sideways"), Some (VStr "sideways"))).
    rewrite <- E. vm_compute. reflexivity. }
  injection Hp as -> ->. repeat split; discriminate.
Qed.

(** C9, amended: whenever normalisation returns, the sort direction in
    the parameters, which is also the entry of the query's sort under the
    sort field, is ["desc"] when neither [order] nor [sort] is supplied, and
    otherwise the supplied string in lower case, whatever it is. *)
Theorem process_sort_direction items q p' q' :
  Parameters.process now items q = Ok (p', q') ->
  exists d st,
    p' !! "sort" = Some (VStr d) /\ p' !! "sort_type" = Some (VStr st) /\
    q_sort q' !! st = Some (VStr d) /\
    (Parameters.requested_sort (Parameters.lower_keys items) = None -> d = "desc") /\
    (forall v, Parameters.requested_sort (Parameters.lower_keys items) = Some v ->
               exists s, v = VStr s /\ d = lower s).
Proof.
  intros H. destruct (process_stages _ _ _ _ H) as (p1 & q1 & st & p2 & q2 & p3 & H1 & Hsz & Hso & Hf).
  destruct (process_size_spec (<["sort_type" := VStr st]> p1) q1)
    as (p2' & n & Hsz' & Hn & Hk & _).
  rewrite Hsz in Hsz'. injection Hsz' as <- ->.
  destruct (process_sort_spec _ _ _ _ _ Hso) as (d & Hd & -> & Hk' & Hdef & Hsup).
  assert (Hreq : Parameters.requested_sort p2 =
                 Parameters.requested_sort (Parameters.lower_keys items)).
  { unfold Parameters.requested_sort.
    rewrite (present_ext (Parameters.lower_keys items) p2 "order"),
            (present_ext (Parameters.lower_keys items) p2 "sort"); [reflexivity| |].
    all: rewrite Hk by congruence; rewrite lookup_insert_ne by congruence;
      apply H1; congruence. }
  rewrite Hreq in Hdef, Hsup.
  exists d, st. split; [rewrite Hf by congruence; exact Hd|].
  split; [rewrite Hf, Hk', Hk by congruence; apply lookup_insert_eq|].
  split; [apply lookup_insert_eq|]. auto.
Qed.

End Normaliser.

(** The request [Limit=700]. *)
Lemma process_size_capped_witness :
  let items := [("Limit", VStr "700")] in
  let p' := params_of (Parameters.process 0 items empty_query) in
  let q' := query_of (Parameters.process 0 items empty_query) in
  Parameters.process 0 items empty_query = Ok (p', q') /\
  exists n,
    p' !! "size" = Some (VInt n) /\ q_size q' = Some (VInt n) /\ n <= 500 /\
    (forall v m, Parameters.requested_size (Parameters.lower_keys items) = Some v ->
                 py_int v = Ok m -> n = Z.min 500 m) /\
    (forall v, Parameters.requested_size (Parameters.lower_keys items) = Some v ->
               looks_like_int v = false -> n = 25) /\
    (Parameters.requested_size (Parameters.lower_keys items) = None -> n = 25).
Proof.
  intros items p' q'.
  split; [vm_compute; reflexivity|].
  apply (process_size_capped 0 items empty_query p' q'). vm_compute. reflexivity.
Defined.

(** The request [order=ASC]. *)
Lemma process_sort_direction_witness :
  let items := [("order", VStr "ASC")] in
  let p' := params_of (Parameters.process 0 items empty_query) in
  let q' := query_of (Parameters.process 0 items empty_query) in
  Parameters.process 0 items empty_query = Ok (p', q') /\
  exists d st,
    p' !! "sort" = Some (VStr d) /\ p' !! "sort_type" = Some (VStr st) /\
    q_sort q' !! st = Some (VStr d) /\
    (Parameters.requested_sort (Parameters.lower_keys items) = None -> d = "desc") /\
    (forall v, Parameters.requested_sort (Parameters.lower_keys items) = Some v ->
               exists s, v = VStr s /\ d = lower s).
Proof.
  intros items p' q'.
  split; [vm_compute; reflexivity|].
  apply (process_sort_direction 0 items empty_query p' q'). vm_compute. reflexivity.
Defined.

(** ** The retrieval executor *)

Section Executor.

Variable net : list request -> request -> outcome.
Variables es_fallback es_index : string.

Lemma attempt_failed url doc tr :
  failed (net tr (mkRequest url doc 30)) = true ->
  (resp ← requests_get net url doc 30; _ ← raise_for_status resp; mret resp) tr =
  (Err RequestException, tr ++ [mkRequest url doc 30])%list.
Proof.
  unfold requests_get, raise_for_status, failed, mbind, net_bind, lift.
  destruct (net tr _) as [|resp]; [reflexivity|]. intros ->. reflexivity.
Qed.

Lemma attempt_succeeded url doc tr :
  failed (net tr (mkRequest url doc 30)) = false ->
  exists resp, net tr (mkRequest url doc 30) = Responded resp /\
  (resp ← requests_get net url doc 30; _ ← raise_for_status resp; mret resp) tr =
  (Ok resp, tr ++ [mkRequest url doc 30])%list.
Proof.
  unfold requests_get, raise_for_status, failed, mbind, net_bind, lift.
  destruct (net tr _) as [|resp]; [discriminate|]. intros ->. eauto.
Qed.

(** When the primary answers, nothing else is sent. *)
Lemma execute_search_primary uri q tr :
  failed (net tr (mkRequest uri (SearchBody q) 30)) = false ->
  exists resp, net tr (mkRequest uri (SearchBody q) 30) = Responded resp /\
  execute_search net es_fallback es_index uri q tr =
  (Ok resp, tr ++ [mkRequest uri (SearchBody q) 30])%list.
Proof.
  intros H. destruct (attempt_succeeded _ _ _ H) as (resp & Hr & Hrun).
  exists resp. split; [exact Hr|].
  unfold execute_search, except_RequestException. rewrite Hrun. reflexivity.
Qed.

(** When the primary fails, the same document goes once to the fallback
    endpoint with the same timeout, and the fallback decides the result. *)
Lemma execute_search_failover uri q tr :
  let primary := mkRequest uri (SearchBody q) 30 in
  let secondary := mkRequest (es_fallback ++ es_index) (SearchBody q) 30 in
  failed (net tr primary) = true ->
  execute_search net es_fallback es_index uri q tr =
  (match net (tr ++ [primary])%list secondary with
   | Responded resp => if failed (Responded resp) then Err ElasticsearchError else Ok resp
   | TransportFailure => Err ElasticsearchError
   end, tr ++ [primary; secondary])%list.
Proof.
  intros primary secondary H. subst primary secondary.
  unfold execute_search, except_RequestException.
  rewrite (attempt_failed _ _ _ H).
  destruct (failed (net (tr ++ [mkRequest uri (SearchBody q) 30])%list
                      (mkRequest (es_fallback ++ es_index) (SearchBody q) 30))) eqn:H2.
  - rewrite (attempt_failed _ _ _ H2). unfold lift. rewrite <- app_assoc. cbn [app].
    unfold failed in H2 |- *.
    destruct (net (tr ++ _)%list _) as [|resp]; [reflexivity|]. rewrite H2. reflexivity.
  - destruct (attempt_succeeded _ _ _ H2) as (resp & Hr & Hrun).
    rewrite Hrun. rewrite <- app_assoc. cbn [app].
    rewrite Hr. rewrite Hr in H2. rewrite H2. reflexivity.
Qed.

End Executor.

(** C1: in both handlers, when the request to the primary endpoint fails
    (transport failure or error status), the executor sends exactly one
    more request, to the secondary endpoint, with the same query document
    and the same timeout of 30; if that one fails too the call ends with
    [ElasticsearchError] and nothing more is sent, and otherwise the
    secondary's response is returned. *)
Theorem execute_search_retries_once net es_fallback uri q tr :
  let primary := mkRequest uri (SearchBody q) 30 in
  let comments := mkRequest (es_fallback ++ Comment.es_index) (SearchBody q) 30 in
  let submissions := mkRequest (es_fallback ++ Submission.es_index) (SearchBody q) 30 in
  failed (net tr primary) = true ->
  Comment._execute_search net es_fallback uri q tr =
    (match net (tr ++ [primary])%list comments with
     | Responded resp => if failed (Responded resp) then Err ElasticsearchError else Ok resp
     | TransportFailure => Err ElasticsearchError
     end, tr ++ [primary; comments])%list /\
  Submission._execute_search net es_fallback uri q tr =
    (match net (tr ++ [primary])%list submissions with
     | Responded resp => if failed (Responded resp) then Err ElasticsearchError else Ok resp
     | TransportFailure => Err ElasticsearchError
     end, tr ++ [primary; submissions])%list.
Proof.
  intros primary comments submissions H. split.
  - apply (execute_search_failover net es_fallback Comment.es_index uri q tr H).
  - apply (execute_search_failover net es_fallback Submission.es_index uri q tr H).
Qed.

(** A network on which every request fails. *)
Lemma execute_search_retries_once_witness :
  let net := fun (_ : list request) (_ : request) => TransportFailure in
  let q := empty_query in
  let primary := mkRequest "http://mars:9200/rc/comments/_search" (SearchBody q) 30 in
  let comments := mkRequest ("http://jupiter:9200" ++ Comment.es_index) (SearchBody q) 30 in
  let submissions := mkRequest ("http://jupiter:9200" ++ Submission.es_index) (SearchBody q) 30 in
  failed (net [] primary) = true /\
  Comment._execute_search net "http://jupiter:9200" "http://mars:9200/rc/comments/_search" q [] =
    (Err ElasticsearchError, [primary; comments]) /\
  Submission._execute_search net "http://jupiter:9200" "http://mars:9200/rc/comments/_search" q [] =
    (Err ElasticsearchError, [primary; submissions]).
Proof.
  intros net q primary comments submissions.
  split; [reflexivity|].
  apply (execute_search_retries_once net "http://jupiter:9200"
           "http://mars:9200/rc/comments/_search" q []).
  reflexivity.
Defined.

(** ** Time parameters *)

Example parse_one_day : Parameters._parse_time_value 1000000 (VStr "1d") = Ok (1000000 - 86400).
Proof. vm_compute. reflexivity. Qed.

Example parse_two_hours : Parameters._parse_time_value 1000000 (VStr "2h") = Ok (1000000 - 7200).
Proof. vm_compute. reflexivity. Qed.

Example parse_epoch : Parameters._parse_time_value 1000000 (VStr "1500000000") = Ok 1500000000.
Proof. vm_compute. reflexivity. Qed.

Example parse_bad_unit : Parameters._parse_time_value 1000000 (VStr "3w") = Err ValueError.
Proof. vm_compute. reflexivity. Qed.

Section TimeParameters.

Variable net : list request -> request -> outcome.
Variables es_primary es_fallback : string.
Variable now : Z.
Variable pgdb_execute : string -> list Z -> result (list (list pyval)).
Variable html_unescape : string -> string.
Variable py_repr : pyval -> string.
Variable execution_time : Q.

Lemma last_char_nonempty c r : exists c', last_char (String c r) = Some c'.
Proof.
  revert c. induction r as [|c2 r IH]; intros c; [simpl; eauto|].
  destruct (IH c2) as [c' Hc']. exists c'. simpl in *. exact Hc'.
Qed.

(** A string in neither form makes [_parse_time_value] raise
    [ValueError]. *)
Lemma _parse_time_value_malformed s :
  Parameters.well_formed_time s = false ->
  Parameters._parse_time_value now (VStr s) = Err ValueError.
Proof.
  unfold Parameters.well_formed_time, Parameters.epoch_form, Parameters.relative_form,
    Parameters.unit_char.
  intros H. apply orb_false_iff in H as [He Hr].
  unfold Parameters._parse_time_value, looks_like_int, py_int.
  destruct (int_of_string 10 s) as [n|] eqn:Hn.
  { exfalso. rewrite bool_decide_eq_false in He. apply He. eauto. }
  destruct (negb (py_truthy (VStr s)) || (Z.of_nat (String.length s) <? 2)) eqn:Hshort;
    [reflexivity|].
  apply orb_false_iff in Hshort as [_ Hlen].
  assert (Hge : (2 <=? Z.of_nat (String.length s)) = true).
  { apply Z.leb_le. apply Z.ltb_ge in Hlen. exact Hlen. }
  rewrite Hge in Hr. cbn [andb] in Hr.
  destruct s as [|c r]; [discriminate Hge|].
  destruct (last_char_nonempty c r) as [c' Hc']. rewrite Hc' in Hr |- *.
  destruct (int_of_string 10 (drop_last (String c r))) as [value|]; [|reflexivity].
  rewrite bool_decide_eq_true_2 in Hr by eauto. cbn [andb] in Hr.
  destruct (Ascii.eqb (lower_char c') "d"); [discriminate|].
  destruct (Ascii.eqb (lower_char c') "h"); [discriminate|].
  destruct (Ascii.eqb (lower_char c') "m"); [discriminate|].
  destruct (Ascii.eqb (lower_char c') "s"); [discriminate|reflexivity].
Qed.

Lemma present_str (p : gmap string pyval) k s : p !! k = Some (VStr s) -> present p k = Some (VStr s).
Proof. unfold present. intros ->. reflexivity. Qed.

Lemma _process_time_range_malformed p q k s :
  k = "after" \/ k = "before" ->
  p !! k = Some (VStr s) ->
  Parameters.well_formed_time s = false ->
  exists e, Parameters._process_time_range now p q = Err e.
Proof.
  intros Hk Hp Hs. pose proof (_parse_time_value_malformed s Hs) as Hv.
  unfold Parameters._process_time_range. destruct Hk as [-> | ->].
  - rewrite (present_str _ _ _ Hp), Hv. eexists. reflexivity.
  - destruct (present p "after") as [v|].
    + destruct (Parameters._parse_time_value now v) as [t|e]; [|eexists; reflexivity].
      cbn. rewrite (present_str _ "before" s), Hv; [eexists; reflexivity|].
      rewrite lookup_insert_ne by congruence. exact Hp.
    + cbn. rewrite (present_str _ "before" s), Hv; [eexists; reflexivity|].
      rewrite lookup_insert_ne by congruence. exact Hp.
Qed.

Lemma process_malformed_time items q k s :
  k = "after" \/ k = "before" ->
  Parameters.lower_keys items !! k = Some (VStr s) ->
  Parameters.well_formed_time s = false ->
  exists e, Parameters.process now items q = Err e.
Proof.
  intros Hk Hp Hs. unfold Parameters.process.
  destruct (Parameters.process_conditions _ _ _) as [[p1 q1]|e] eqn:Hc; [|eexists; reflexivity].
  assert (Hp1 : p1 !! k = Some (VStr s)).
  { rewrite (process_conditions_lookup _ _ _ _ _ Hc); [exact Hp|].
    destruct Hk as [-> | ->]; not_in_keys. }
  destruct (_process_time_range_malformed p1 q1 k s Hk Hp1 Hs) as [e He].
  cbn. rewrite He. eexists. reflexivity.
Qed.

(** C4, as stated, fails: with healthy backends the request
    [after=yesterday] is answered with status 500 and the [ValueError],
    nothing is sent to a backend, while the same request without the
    parameter succeeds. *)
Lemma malformed_after_fails_request :
  let healthy := VDict (<["hits" := VDict (<["hits" := VList []]> (<["total" := VInt 0]> ∅))]>
                        (<["timed_out" := VBool false]> (<["_shards" := VDict ∅]> ∅))) in
  let net := fun (_ : list request) (_ : request) => Responded (mkResponse 200 (Ok healthy)) in
  let on_get := Comment.on_get net "http://mars:9200" "http://jupiter:9200" 1000
                  (fun _ _ => Ok []) (fun s => s) (fun _ => "") (1 # 2) in
  on_get [("after", VStr "yesterday")] [] = (Reply500 ValueError, []) /\
  exists body r, on_get [] [] = (Reply200 body, [r]).
Proof.
  split; [vm_compute; reflexivity|].
  eexists. eexists. vm_compute. reflexivity.
Qed.

(** The digit 5 followed by a separator control is no epoch integer. *)
Example separator_time_malformed :
  Parameters.well_formed_time five_separator = false /\
  Parameters._parse_time_value 0 (VStr five_separator) = Err ValueError.
Proof. split; vm_compute; reflexivity. Qed.

(** C4, amended: a value of [after] or [before] that is neither an epoch
    integer string nor an integer with a unit makes [_parse_time_value]
    raise [ValueError]; nothing catches it, so normalisation raises and the
    comment search request (one without [ids]) is answered with status 500
    before anything is sent to a backend. The parameter is not dropped. *)
Theorem malformed_time_fails_request items k s tr :
  k = "after" \/ k = "before" ->
  Parameters.lower_keys items !! k = Some (VStr s) ->
  Parameters.well_formed_time s = false ->
  raw_params items !! "ids" = None ->
  Parameters._parse_time_value now (VStr s) = Err ValueError /\
  (forall q, exists e, Parameters.process now items q = Err e) /\
  exists e, Comment.on_get net es_primary es_fallback now pgdb_execute html_unescape py_repr
              execution_time items tr = (Reply500 e, tr).
Proof.
  intros Hk Hp Hs Hids.
  split; [apply _parse_time_value_malformed, Hs|].
  split; [intros q; apply (process_malformed_time items q k s Hk Hp Hs)|].
  unfold Comment.on_get. rewrite Hids.
  unfold Comment.do_elasticsearch, Comment.search.
  match goal with
  | |- context [Parameters.process now items ?q] =>
      destruct (process_malformed_time items q k s Hk Hp Hs) as [e He]
  end.
  exists e. unfold mbind, net_bind, lift. rewrite He. reflexivity.
Qed.

End TimeParameters.

(** The request [Before=next week]. *)
Lemma malformed_time_fails_request_witness :
  let net := fun (_ : list request) (_ : request) => TransportFailure in
  let items := [("Before", VStr "next week")] in
  ("before" = "after" \/ "before" = "before") /\
  Parameters.lower_keys items !! "before" = Some (VStr "next week") /\
  Parameters.well_formed_time "next week" = false /\
  raw_params items !! "ids" = None /\
  Parameters._parse_time_value 1000 (VStr "next week") = Err ValueError /\
  (forall q, exists e, Parameters.process 1000 items q = Err e) /\
  exists e, Comment.on_get net "http://mars:9200" "http://jupiter:9200" 1000
              (fun _ _ => Ok []) (fun s => s) (fun _ => "") (1 # 2) items [] = (Reply500 e, []).
Proof.
  intros net items.
  split; [right; reflexivity|]. split; [vm_compute; reflexivity|].
  split; [vm_compute; reflexivity|]. split; [vm_compute; reflexivity|].
  apply (malformed_time_fails_request net "http://mars:9200" "http://jupiter:9200" 1000
           (fun _ _ => Ok []) (fun s => s) (fun _ => "") (1 # 2) items "before" "next week" []).
  - right; reflexivity.
  - vm_compute; reflexivity.
  - vm_compute; reflexivity.
  - vm_compute; reflexivity.
Defined.

(** ** Aggregation buckets *)

Lemma traverse_Forall2 {A B} (f : A -> result B) l : forall l',
  traverse f l = Ok l' -> Forall2 (fun a b => f a = Ok b) l l'.
Proof.
  induction l as [|x r IH]; intros l' H; simpl in H.
  - injection H as <-. constructor.
  - inv_bind H. inv_bind H. injection H as <-. constructor; auto.
Qed.

Section SortDescending.

Context {A : Type}.

Lemma insert_desc_perm (x : Q * A) l : Permutation (insert_desc x l) (x :: l).
Proof.
  induction l as [|y r IH]; simpl; [reflexivity|].
  destruct (Qle_bool (fst y) (fst x)); [reflexivity|].
  rewrite IH. apply perm_swap.
Qed.

Lemma sort_desc_perm (l : list (Q * A)) : Permutation (sort_desc l) l.
Proof.
  induction l as [|x r IH]; simpl; [reflexivity|].
  rewrite insert_desc_perm. constructor. exact IH.
Qed.

Lemma insert_desc_sorted (x : Q * A) l :
  StronglySorted key_ge l -> StronglySorted key_ge (insert_desc x l).
Proof.
  induction 1 as [|y r Hr IH Hy]; simpl.
  - repeat constructor.
  - destruct (Qle_bool (fst y) (fst x)) eqn:E.
    + apply Qle_bool_iff in E. constructor; [constructor; assumption|].
      constructor; [exact E|].
      eapply Forall_impl; [exact Hy|]. intros z Hz. unfold key_ge in *.
      eapply Qle_trans; eassumption.
    + constructor; [exact IH|].
      eapply Permutation_Forall; [symmetry; apply insert_desc_perm|].
      constructor; [|exact Hy]. unfold key_ge.
      apply Qlt_le_weak, Qnot_le_lt. intros Hle. apply Qle_bool_iff in Hle. congruence.
Qed.

Lemma sort_desc_sorted (l : list (Q * A)) : StronglySorted key_ge (sort_desc l).
Proof.
  induction l as [|x r IH]; simpl; [constructor|]. apply insert_desc_sorted, IH.
Qed.

(** The sort is stable: the elements of any one key come out in the
    order they went in. *)
Lemma insert_desc_stable (q : Q) (x : Q * A) l :
  List.filter (fun y => Qeq_bool (fst y) q) (insert_desc x l) =
  List.filter (fun y => Qeq_bool (fst y) q) (x :: l).
Proof.
  induction l as [|y r IH]; [reflexivity|].
  cbn [insert_desc]. destruct (Qle_bool (fst y) (fst x)) eqn:E; [reflexivity|].
  cbn [List.filter] in *. rewrite IH.
  destruct (Qeq_bool (fst x) q) eqn:Ex; [|reflexivity].
  destruct (Qeq_bool (fst y) q) eqn:Ey; [|reflexivity].
  exfalso. apply Qeq_bool_iff in Ex, Ey.
  assert (Hle : Qle (fst y) (fst x)).
  { rewrite Ex, Ey. apply Qle_refl. }
  apply Qle_bool_iff in Hle. congruence.
Qed.

Lemma sort_desc_stable (q : Q) (l : list (Q * A)) :
  List.filter (fun y => Qeq_bool (fst y) q) (sort_desc l) =
  List.filter (fun y => Qeq_bool (fst y) q) l.
Proof.
  induction l as [|x r IH]; [reflexivity|].
  cbn [sort_desc foldr]. rewrite insert_desc_stable.
  cbn [List.filter]. fold (sort_desc r). rewrite IH. reflexivity.
Qed.

End SortDescending.

Lemma score_key_spec b kb :
  score_key b = Ok kb -> snd kb = b /\ bucket_score b = Some (fst kb).
Proof.
  unfold score_key, bucket_score. intros H. inv_bind H. rewrite Ha.
  destruct (py_number a); [|discriminate]. injection H as <-. split; reflexivity.
Qed.

(** [sorted(..., reverse=True)] permutes the buckets into non-increasing
    score order. *)
Lemma sorted_by_score_spec buckets sorted :
  sorted_by_score buckets = Ok sorted ->
  Permutation buckets sorted /\ descending sorted.
Proof.
  unfold sorted_by_score. intros H. inv_bind H. injection H as <-.
  rename a into keyed. apply traverse_Forall2 in Ha.
  assert (Hk : Forall (fun kb => bucket_score (snd kb) = Some (fst kb)) keyed /\
               snd <$> keyed = buckets).
  { induction Ha as [|b kb bs kbs Hb _ [IH1 IH2]]; [split; constructor|].
    apply score_key_spec in Hb as [Hb1 Hb2]. split.
    - constructor; [rewrite Hb1; exact Hb2 | exact IH1].
    - rewrite fmap_cons, Hb1, IH2. reflexivity. }
  destruct Hk as [Hk <-]. split.
  - apply Permutation_map. symmetry. apply sort_desc_perm.
  - assert (Hs := sort_desc_sorted keyed).
    assert (Hf : Forall (fun kb => bucket_score (snd kb) = Some (fst kb)) (sort_desc keyed)).
    { eapply Permutation_Forall; [symmetry; apply sort_desc_perm | exact Hk]. }
    unfold descending. induction Hs as [|x r Hr IH Hx]; simpl; [constructor|].
    apply Forall_cons in Hf as [Hfx Hfr].
    constructor; [apply IH, Hfr|].
    apply Forall_fmap. rewrite Forall_forall in Hx, Hfr |- *.
    intros y Hy. exists (fst x), (fst y). split; [exact Hfx|].
    split; [apply Hfr, Hy | apply Hx, Hy].
Qed.

Lemma set_score_scored b b' : set_score b = Ok b' -> scored_with (fun q => q) b b'.
Proof.
  unfold set_score, scored_with. intros H.
  inv_bind H. inv_bind H. inv_bind H.
  exists a, a0, a1. repeat split; auto.
  unfold bucket_score. destruct b; try discriminate. injection H as <-.
  simpl. unfold getitem. rewrite lookup_insert_eq. reflexivity.
Qed.

Lemma set_rounded_score_scored b b' :
  Submission.set_rounded_score b = Ok b' -> scored_with (fun q => py_round q 5) b b'.
Proof.
  unfold Submission.set_rounded_score, scored_with. intros H.
  inv_bind H. inv_bind H. inv_bind H.
  exists a, a0, a1. repeat split; auto.
  unfold bucket_score. destruct b; try discriminate. injection H as <-.
  simpl. unfold getitem. rewrite lookup_insert_eq. reflexivity.
Qed.

(** The quotient of small integers and its rounding, as the interpreter
    computes them: [1 / 200000] is the double next above five millionths,
    and [round] takes it up to 0.00001. *)
Example truediv_small :
  py_truediv (VInt 1) (VInt 200000) = Ok (Qmake 5902958103587057 1180591620717411303424).
Proof. vm_compute. reflexivity. Qed.

Example round_small :
  py_round (Qmake 5902958103587057 1180591620717411303424) 5 = double_0_00001.
Proof. vm_compute. reflexivity. Qed.

(** In submission search both buckets of [small_ratio_buckets] get the
    score 0.00001 and keep the order they came in. *)
Example submission_small_ratios :
  exists b1 b2,
    aggs_of (Submission.process_subreddit small_ratio_buckets ∅) !! "subreddit"
      = Some (VList [b1; b2]) /\
    py_getitem b1 "key" = Ok (VStr "python") /\ bucket_score b1 = Some double_0_00001 /\
    py_getitem b2 "key" = Ok (VStr "rust") /\ bucket_score b2 = Some double_0_00001.
Proof.
  eexists. eexists. split; [vm_compute; reflexivity|].
  repeat split; vm_compute; reflexivity.
Qed.

(** C7, as stated, fails. In comment search two buckets of equal ratio
    come out with equal scores, so the list is not strictly descending; in
    submission search the score of a bucket with one document of three is
    the double 0.33333, not the quotient [1 / 3]. *)
Lemma subreddit_ties_and_rounding :
  (exists b1 b2,
     aggs_of (Comment.process_subreddit two_even_buckets ∅) !! "subreddit"
       = Some (VList [b1; b2]) /\
     ~ strictly_descending [b1; b2]) /\
  (exists b ratio,
     aggs_of (Submission.process_subreddit one_third_bucket ∅) !! "subreddit"
       = Some (VList [b]) /\
     py_truediv (VInt 1) (VInt 3) = Ok ratio /\
     bucket_score b = Some double_0_33333 /\
     ~ Qeq double_0_33333 ratio).
Proof.
  split.
  - eexists. eexists. split; [vm_compute; reflexivity|].
    intros Hs. inversion Hs as [|? ? _ Hd]; subst.
    inversion Hd as [|? ? (qx & qy & Hx & Hy & Hlt)]; subst.
    vm_compute in Hx, Hy. injection Hx as <-. injection Hy as <-.
    vm_compute in Hlt. discriminate Hlt.
  - eexists. eexists. split; [vm_compute; reflexivity|].
    split; [vm_compute; reflexivity|].
    split; [vm_compute; reflexivity|]. vm_compute. discriminate.
Qed.

(** C7, amended: in both handlers the [subreddit] buckets that come out
    are a permutation of the input buckets with their scores set, in
    non-increasing order of score (equal scores may be adjacent). The score
    is the float [doc_count / bg_count] in comment search, and [round] of
    that float to five digits in submission search. *)
Theorem subreddit_buckets_descending aggregations aggs out_c out_s :
  py_in "subreddit" aggregations = Ok true ->
  Comment.process_subreddit aggregations aggs = Ok out_c ->
  Submission.process_subreddit aggregations aggs = Ok out_s ->
  exists buckets,
    buckets_of aggregations "subreddit" = Ok buckets /\
    (exists scored sorted,
       Forall2 (scored_with (fun q => q)) buckets scored /\
       Permutation scored sorted /\ descending sorted /\
       out_c = <["subreddit" := VList sorted]> aggs) /\
    (exists scored sorted,
       Forall2 (scored_with (fun q => py_round q 5)) buckets scored /\
       Permutation scored sorted /\ descending sorted /\
       out_s = <["subreddit" := VList sorted]> aggs).
Proof.
  unfold Comment.process_subreddit, Submission.process_subreddit.
  intros Hin Hc Hs. rewrite Hin in Hc, Hs. cbn [mbind result_bind] in Hc, Hs.
  inv_bind Hc. rename a into buckets. rewrite Ha in Hs. cbn [mbind result_bind] in Hs.
  exists buckets. split; [exact Ha|]. split.
  - inv_bind Hc. inv_bind Hc. injection Hc as <-.
    apply sorted_by_score_spec in Ha1 as [Hperm Hdesc].
    exists a, a0. repeat split; auto.
    eapply Forall2_impl; [apply traverse_Forall2, Ha0|].
    intros b b'. apply set_score_scored.
  - inv_bind Hs. inv_bind Hs. injection Hs as <-.
    apply sorted_by_score_spec in Ha1 as [Hperm Hdesc].
    exists a, a0. repeat split; auto.
    eapply Forall2_impl; [apply traverse_Forall2, Ha0|].
    intros b b'. apply set_rounded_score_scored.
Qed.

(** The two buckets of equal ratio. *)
Lemma subreddit_buckets_descending_witness :
  let out_c := aggs_of (Comment.process_subreddit two_even_buckets ∅) in
  let out_s := aggs_of (Submission.process_subreddit two_even_buckets ∅) in
  py_in "subreddit" two_even_buckets = Ok true /\
  Comment.process_subreddit two_even_buckets ∅ = Ok out_c /\
  Submission.process_subreddit two_even_buckets ∅ = Ok out_s /\
  exists buckets,
    buckets_of two_even_buckets "subreddit" = Ok buckets /\
    (exists scored sorted,
       Forall2 (scored_with (fun q => q)) buckets scored /\
       Permutation scored sorted /\ descending sorted /\
       out_c = <["subreddit" := VList sorted]> ∅) /\
    (exists scored sorted,
       Forall2 (scored_with (fun q => py_round q 5)) buckets scored /\
       Permutation scored sorted /\ descending sorted /\
       out_s = <["subreddit" := VList sorted]> ∅).
Proof.
  intros out_c out_s.
  split; [reflexivity|]. split; [vm_compute; reflexivity|]. split; [vm_compute; reflexivity|].
  apply (subreddit_buckets_descending two_even_buckets ∅ out_c out_s).
  - reflexivity.
  - vm_compute; reflexivity.
  - vm_compute; reflexivity.
Defined.

(** ** Identifiers of comment records *)

Lemma py_getitem_dict v k x : py_getitem v k = Ok x -> exists m, v = VDict m /\ m !! k = Some x.
Proof.
  destruct v; try discriminate. unfold py_getitem, getitem.
  destruct (m !! k) eqn:E; [|discriminate]. intros [= <-]. eauto.
Qed.

Lemma py_in_dict m k : py_in k (VDict m) = Ok (bool_decide (is_Some (m !! k))).
Proof. reflexivity. Qed.

(** The by-ID path: [link_id] gets the prefix [t3_]; [parent_id] is
    [t3_] and the link when it is absent, null or equal to the link, and
    [t1_] and the parent otherwise. *)
Lemma get_ids_row_identifiers comment rest comment' :
  Comment.get_ids_row (comment :: rest) = Ok comment' ->
  exists m l l36 parent,
    comment = VDict m /\ m !! "link_id" = Some l /\ base36encode_val l = Ok l36 /\
    py_getitem comment' "link_id" = Ok (VStr ("t3_" ++ l36)) /\
    py_getitem comment' "parent_id" = Ok (VStr parent) /\
    (m !! "parent_id" = None \/ m !! "parent_id" = Some VNone \/
     (exists p, m !! "parent_id" = Some p /\ py_eq p l = true) -> parent = "t3_" ++ l36) /\
    (forall p, m !! "parent_id" = Some p -> p <> VNone -> py_eq p l = false ->
               exists p36, base36encode_val p = Ok p36 /\ parent = "t1_" ++ p36).
Proof.
  unfold Comment.get_ids_row. intros H.
  inv_bind H as c0 Hc0. injection Hc0 as <-.
  inv_bind H as id Hid. apply py_getitem_dict in Hid as (m & -> & Hid).
  inv_bind H as id36 Hid36.
  inv_bind H as c1 Hc1. injection Hc1 as <-.
  set (m1 := <["id" := VStr id36]> m) in *.
  assert (Hm1 : forall k, k <> "id" -> m1 !! k = m !! k)
    by (intros k Hk; apply lookup_insert_ne; congruence).
  inv_bind H as has_parent Hhas. rewrite py_in_dict in Hhas. injection Hhas as <-.
  inv_bind H as none Hnone. inv_bind H as to_link Hto. inv_bind H as parent Hparent.
  unfold py_getitem, getitem in Hnone, Hto, Hparent.
  assert (Hpp : m1 !! "parent_id" = m !! "parent_id") by (apply Hm1; congruence).
  assert (Hll : m1 !! "link_id" = m !! "link_id") by (apply Hm1; congruence).
  rewrite ?Hpp, ?Hll in Hnone. rewrite ?Hpp, ?Hll in Hto. rewrite ?Hpp, ?Hll in Hparent.
  (* the rest of the body keeps both identifiers *)
  assert (Hfinal : exists l l36, m !! "link_id" = Some l /\ base36encode_val l = Ok l36 /\
      py_getitem comment' "link_id" = Ok (VStr ("t3_" ++ l36)) /\
      py_getitem comment' "parent_id" = Ok (VStr parent)).
  { inv_bind H as c2 Hc2. injection Hc2 as <-.
    set (m2 := <["parent_id" := VStr parent]> m1) in *.
    inv_bind H as has_sr Hsr. clear Hsr.
    inv_bind H as c3 Hc3.
    assert (exists m3, c3 = VDict m3 /\ forall k, k <> "subreddit_id" -> m3 !! k = m2 !! k)
      as (m3 & -> & Hm3).
    { destruct has_sr.
      - inv_bind Hc3 as sr Hsr. inv_bind Hc3 as sr36 Hsr36. injection Hc3 as <-.
        eexists. split; [reflexivity|]. intros k Hk. apply lookup_insert_ne. congruence.
      - injection Hc3 as <-. exists m2. split; reflexivity. }
    inv_bind H as l Hl. inv_bind H as l36 Hl36. inv_bind H as c4 Hc4.
    injection Hc4 as <-. injection H as <-.
    apply py_getitem_dict in Hl as (? & [= <-] & Hl).
    rewrite Hm3 in Hl by congruence. unfold m2 in Hl.
    rewrite lookup_insert_ne, Hm1 in Hl by congruence.
    exists l, l36. split; [exact Hl|]. split; [exact Hl36|].
    unfold py_getitem, getitem. split.
    - rewrite lookup_delete_ne, lookup_insert_eq by congruence. reflexivity.
    - rewrite lookup_delete_ne, lookup_insert_ne, Hm3 by congruence.
      unfold m2. rewrite lookup_insert_eq. reflexivity. }
  destruct Hfinal as (l & l36 & Hl & Hl36 & Hlink & Hpar).
  rewrite ?Hl in Hnone. rewrite ?Hl in Hto. rewrite ?Hl in Hparent.
  exists m, l, l36, parent. repeat split; auto.
  - intros Hcase.
    assert (to_link = true) as ->.
    { destruct (m !! "parent_id") as [p|] eqn:Hp.
      - rewrite bool_decide_eq_true_2 in Hnone by eauto.
        destruct Hcase as [|[Hn|(p' & [= <-] & Heq)]]; [discriminate| |].
        + injection Hn as ->. injection Hnone as <-. injection Hto as <-. reflexivity.
        + inv_bind Hnone as p' Hp'. injection Hp' as <-. injection Hnone as <-.
          destruct p; cbn [mbind result_bind] in Hto; try rewrite Heq in Hto; congruence.
      - rewrite bool_decide_eq_false_2 in Hnone by (intros [? ?]; discriminate).
        injection Hnone as <-. injection Hto as <-. reflexivity. }
    cbn in Hparent. rewrite Hl36 in Hparent. cbn in Hparent. congruence.
  - intros p Hp Hnn Hne. rewrite ?Hp in Hnone. rewrite ?Hp in Hto. rewrite ?Hp in Hparent.
    rewrite bool_decide_eq_true_2 in Hnone by eauto.
    cbn in Hnone. injection Hnone as <-.
    assert (to_link = false) as ->.
    { destruct p; cbn [mbind result_bind] in Hto; try rewrite Hne in Hto; congruence. }
    cbn in Hparent. inv_bind Hparent as p36 Hp36. injection Hparent as <-. eauto.
Qed.

(** The search path, without projection: [link_id] gets the prefix
    [t3_]; [parent_id] is the new [link_id] when the record has none, and
    [t1_] and the parent whenever it has one. *)
Lemma do_elasticsearch_hit_identifiers html params hit params' source' :
  present params "fields" = None ->
  Comment.do_elasticsearch_hit html params hit = Ok (params', source') ->
  exists src l l36,
    py_getitem hit "_source" = Ok (VDict src) /\
    src !! "link_id" = Some l /\ base36encode_val l = Ok l36 /\
    py_getitem source' "link_id" = Ok (VStr ("t3_" ++ l36)) /\
    (src !! "parent_id" = None ->
       py_getitem source' "parent_id" = Ok (VStr ("t3_" ++ l36))) /\
    (forall p, src !! "parent_id" = Some p ->
       exists p36, base36encode_val p = Ok p36 /\
                   py_getitem source' "parent_id" = Ok (VStr ("t1_" ++ p36))).
Proof.
  unfold Comment.do_elasticsearch_hit. intros Hfields H.
  inv_bind H as source Hsource. inv_bind H as _id H_id. inv_bind H as n Hn.
  inv_bind H as id36 Hid36. inv_bind H as c1 Hc1.
  destruct source as [| | | | | |src]; try discriminate Hc1. injection Hc1 as <-.
  set (m1 := <["id" := VStr id36]> src) in *.
  inv_bind H as l Hl. inv_bind H as l36 Hl36. inv_bind H as c2 Hc2. injection Hc2 as <-.
  set (m2 := <["link_id" := VStr ("t3_" ++ l36)]> m1) in *.
  assert (Hlsrc : src !! "link_id" = Some l).
  { apply py_getitem_dict in Hl as (? & [= <-] & Hl).
    unfold m1 in Hl. rewrite lookup_insert_ne in Hl by congruence. exact Hl. }
  assert (Hpsrc : m2 !! "parent_id" = src !! "parent_id").
  { unfold m2, m1. rewrite !lookup_insert_ne by congruence. reflexivity. }
  inv_bind H as has_parent Hhas. rewrite py_in_dict, Hpsrc in Hhas. injection Hhas as <-.
  inv_bind H as c3 Hc3.
  assert (exists parent, c3 = VDict (<["parent_id" := VStr parent]> m2) /\
            (src !! "parent_id" = None -> parent = "t3_" ++ l36) /\
            (forall p, src !! "parent_id" = Some p ->
               exists p36, base36encode_val p = Ok p36 /\ parent = "t1_" ++ p36))
    as (parent & -> & Hnone & Hsome).
  { destruct (src !! "parent_id") as [p|] eqn:Hp.
    - rewrite bool_decide_eq_true_2 in Hc3 by eauto.
      inv_bind Hc3 as p' Hp'. inv_bind Hc3 as p36 Hp36. injection Hc3 as <-.
      unfold py_getitem, getitem in Hp'. rewrite Hpsrc in Hp'. injection Hp' as <-.
      exists ("t1_" ++ p36). split; [reflexivity|]. split; [discriminate|].
      intros p' [= <-]. eauto.
    - rewrite bool_decide_eq_false_2 in Hc3 by (intros [? ?]; discriminate).
      inv_bind Hc3 as l' Hl'. injection Hc3 as <-.
      unfold py_getitem, getitem, m2 in Hl'. rewrite lookup_insert_eq in Hl'.
      injection Hl' as <-.
      exists ("t3_" ++ l36). split; [reflexivity|]. split; [reflexivity | discriminate]. }
  inv_bind H as sr Hsr. inv_bind H as sr36 Hsr36. inv_bind H as c4 Hc4. injection Hc4 as <-.
  inv_bind H as flair Hflair. inv_bind H as flair' Hflair'.
  inv_bind H as c5 Hc5. injection Hc5 as <-.
  inv_bind H as css Hcss. inv_bind H as css' Hcss'.
  inv_bind H as c6 Hc6. injection Hc6 as <-.
  unfold _apply_field_filter in H. rewrite Hfields in H. injection H as <- <-.
  exists src, l, l36. split; [exact Hsource|]. split; [exact Hlsrc|]. split; [exact Hl36|].
  unfold py_getitem, getitem.
  split; [|split].
  - rewrite !lookup_insert_ne by congruence. unfold m2. rewrite lookup_insert_eq. reflexivity.
  - intros Hn'. rewrite !lookup_insert_ne by congruence.
    rewrite lookup_insert_eq, (Hnone Hn'). reflexivity.
  - intros p Hp. destruct (Hsome p Hp) as (p36 & Hp36 & ->). exists p36. split; [exact Hp36|].
    rewrite !lookup_insert_ne by congruence. rewrite lookup_insert_eq. reflexivity.
Qed.

(** C5, on the failing input: for a comment stored with [parent_id]
    equal to [link_id], both paths give [link_id] the prefix [t3_]; the
    by-ID path gives [parent_id] as [t3_] and the link, the search path
    gives it as [t1_] and the parent. *)
Theorem search_path_misses_equal_parent :
  let by_id := Comment.get_ids_row [reply_comment] in
  let searched := record_of (Comment.do_elasticsearch_hit (fun s => s) ∅ reply_hit) in
  (by_id ≫= fun c => py_getitem c "link_id") = Ok (VStr "t3_a") /\
  (by_id ≫= fun c => py_getitem c "parent_id") = Ok (VStr "t3_a") /\
  py_getitem searched "link_id" = Ok (VStr "t3_a") /\
  py_getitem searched "parent_id" = Ok (VStr "t1_a").
Proof. repeat split; vm_compute; reflexivity. Qed.

(** ** Network computations *)

Lemma net_bind_Ok {A B} (c : Net A) (k : A -> Net B) tr b tr2 :
  (c ≫= k) tr = (Ok b, tr2) -> exists a tr1, c tr = (Ok a, tr1) /\ k a tr1 = (Ok b, tr2).
Proof.
  unfold mbind, net_bind. destruct (c tr) as [[a|e] tr1]; [eauto | discriminate].
Qed.

Lemma lift_Ok {A} (r : result A) tr a tr' : lift r tr = (Ok a, tr') -> r = Ok a /\ tr' = tr.
Proof. unfold lift. intros [= -> ->]. split; reflexivity. Qed.

Tactic Notation "inv_net" hyp(H) "as" ident(a) ident(tr) ident(Ha) :=
  apply net_bind_Ok in H as (a & tr & Ha & H).

Tactic Notation "inv_lift" hyp(H) "as" ident(a) ident(Ha) :=
  let tr := fresh "tr" in
  apply net_bind_Ok in H as (a & tr & Ha & H);
  apply lift_Ok in Ha as [Ha ->].

(** ** The [link_id] aggregation of comment search *)

Section LinkId.

Variable net : list request -> request -> outcome.
Variables es_primary es_fallback : string.
Variable py_repr : pyval -> string.

(** The second loop keeps the buckets that are resolved to a newer
    submission, with the submission attached. *)
Lemma link_id_buckets_spec submission_data after buckets : forall out,
  Comment.link_id_buckets py_repr submission_data after buckets = Ok out ->
  out = List.map (enriched py_repr submission_data)
          (List.filter (retained submission_data after) buckets).
Proof.
  induction buckets as [|item rest IH]; intros out H; simpl in H.
  - injection H as <-. reflexivity.
  - inv_bind H as key Hkey. inv_bind H as k Hk. inv_bind H as keep Hkeep.
    assert (Hres : resolved submission_data item = alist_lookup k submission_data)
      by (unfold resolved; rewrite Hkey, Hk; reflexivity).
    simpl. unfold retained at 1. rewrite Hres.
    destruct (alist_lookup k submission_data) as [submission|] eqn:Hsub.
    + inv_bind Hkeep as created_utc Hcreated. inv_bind Hkeep as is_newer Hnewer.
      injection Hkeep as <-.
      assert (Hn : newer after submission = is_newer)
        by (unfold newer; rewrite Hcreated, Hnewer; reflexivity).
      rewrite Hn. destruct is_newer.
      * inv_bind H as permalink Hperm. inv_bind H as data Hdata. inv_bind H as item' Hitem.
        inv_bind H as newlist Hnew. injection H as <-.
        simpl. rewrite <- (IH _ Hnew). f_equal.
        unfold enriched. rewrite Hres.
        apply py_getitem_dict in Hperm as (sub & -> & Hperm). rewrite Hperm.
        injection Hdata as <-. destruct item; try discriminate. injection Hitem as <-.
        reflexivity.
      * apply IH, H.
    + injection Hkeep as <-. apply IH, H.
Qed.

(** With nothing resolved, nothing is kept. *)
Lemma link_id_buckets_unresolved after buckets out :
  Comment.link_id_buckets py_repr [] after buckets = Ok out -> out = [].
Proof.
  intros H. rewrite (link_id_buckets_spec _ _ _ _ H).
  assert (Hf : List.filter (retained [] after) buckets = []).
  { clear H. induction buckets as [|item rest IH]; [reflexivity|]. simpl.
    unfold retained at 1, resolved.
    destruct (py_getitem item "key"); [destruct (to_key _)|]; exact IH. }
  rewrite Hf. reflexivity.
Qed.

(** When both endpoints fail, the lookup returns the empty dictionary
    after one request to each. *)
Lemma get_submissions_both_fail ids int_ids tr :
  let q := TermsIdBody int_ids 1000 in
  let first := mkRequest (es_primary ++ "/rs/submissions/_search") q 30 in
  let second := mkRequest (es_fallback ++ "/rs/submissions/_search") q 30 in
  traverse (fun id => match id with VStr _ => n ← py_int id; Ok (VInt n) | _ => Ok id end) ids
    = Ok int_ids ->
  failed (net tr first) = true ->
  failed (net (tr ++ [first])%list second) = true ->
  get_submissions_from_es net es_primary es_fallback (VList ids) tr =
  (Ok [], tr ++ [first; second])%list.
Proof.
  intros q first second Hids H1 H2. subst q first second.
  unfold get_submissions_from_es. rewrite Hids.
  unfold mbind at 1. unfold net_bind at 1. unfold lift at 1.
  unfold mbind at 1. unfold net_bind at 1.
  unfold except_RequestException.
  unfold requests_get, raise_for_status, failed, mbind, net_bind, lift, mret, net_ret in *.
  destruct (net tr _) as [|r1].
  - destruct (net (tr ++ _)%list _) as [|r2].
    + rewrite <- app_assoc. reflexivity.
    + rewrite H2. rewrite <- app_assoc. reflexivity.
  - rewrite H1. destruct (net (tr ++ _)%list _) as [|r2].
    + rewrite <- app_assoc. reflexivity.
    + rewrite H2. rewrite <- app_assoc. reflexivity.
Qed.

(** Without a usable [after], the [link_id] step never returns: the
    conversion [int(None)] raises. *)
Lemma _process_aggregations_after_none params aggregations tr :
  params !! "after" = Some VNone ->
  py_in "link_id" aggregations = Ok true ->
  forall out tr',
    Comment._process_aggregations net es_primary es_fallback py_repr params aggregations tr
      <> (Ok out, tr').
Proof.
  intros Hafter Hin out tr' H. unfold Comment._process_aggregations in H.
  inv_lift H as aggs1 H1. inv_lift H as aggs2 H2. inv_lift H as aggs3 H3.
  inv_lift H as has Hhas. rewrite Hin in Hhas. injection Hhas as <-.
  inv_lift H as buckets Hb. inv_lift H as scored Hs.
  inv_net H as submission_data tr1 Hsd.
  inv_lift H as after Ha. rewrite Hafter in Ha. discriminate Ha.
Qed.

End LinkId.

Lemma _process_time_range_after_absent now p q p' q' :
  Parameters._process_time_range now p q = Ok (p', q') ->
  present p "after" = None ->
  p' !! "after" = Some VNone.
Proof.
  unfold Parameters._process_time_range. intros H Habs. rewrite Habs in H.
  inv_bind H as pq Hpq. injection Hpq as <-.
  destruct (present _ "before"); [inv_bind H as t Ht|]; injection H as <- <-;
    rewrite lookup_insert_ne by congruence; apply lookup_insert_eq.
Qed.

(** Normalisation leaves [after] in the parameters, as [None] when the
    request has none. *)
Lemma process_after_absent now items q p' q' :
  Parameters.process now items q = Ok (p', q') ->
  present (Parameters.lower_keys items) "after" = None ->
  p' !! "after" = Some VNone.
Proof.
  intros H Habs. unfold Parameters.process in H.
  inv_bind H as pq1 Hc. destruct pq1 as [p1 q1].
  inv_bind H as pq2 Ht. destruct pq2 as [p2 q2].
  inv_bind H as pq3 Hs. destruct pq3 as [p3 q3].
  inv_bind H as pq4 Hn. destruct pq4 as [p4 q4].
  inv_bind H as pq5 Hb. destruct pq5 as [p5 q5].
  inv_bind H as st Hst.
  inv_bind H as pq6 Hsz. destruct pq6 as [p6 q6].
  inv_bind H as pq7 Hso. destruct pq7 as [p7 q7].
  inv_bind H as p8 Hf. injection H as <- <-.
  apply process_count_filter_params in Hs as ->.
  apply process_count_filter_params in Hn as ->.
  apply process_boolean_conditions_params in Hb as ->.
  assert (H2 : p2 !! "after" = Some VNone).
  { apply (_process_time_range_after_absent _ _ _ _ _ Ht).
    rewrite (present_ext (Parameters.lower_keys items) p1); [exact Habs|].
    apply (process_conditions_lookup _ _ _ _ _ Hc). not_in_keys. }
  destruct (process_size_spec (<["sort_type" := VStr st]> p2) q5)
    as (p6' & n & Hsz' & _ & Hk6 & _).
  rewrite Hsz in Hsz'. injection Hsz' as <- _.
  destruct (process_sort_spec _ _ _ _ _ Hso) as (d & _ & _ & Hk7 & _).
  assert (H7 : p7 !! "after" = Some VNone).
  { rewrite Hk7, Hk6 by congruence. rewrite lookup_insert_ne by congruence. exact H2. }
  destruct (p7 !! "frequency").
  - inv_bind Hf as f Hfl. destruct (bool_decide _); injection Hf as <-;
      rewrite lookup_insert_ne by congruence; exact H7.
  - injection Hf as <-. rewrite lookup_insert_ne by congruence. exact H7.
Qed.

(** Adding the aggregation clauses changes [aggs] and [frequency] only. *)
Lemma add_aggregation_clauses_lookup own mdc aggs : forall p q p' q',
  add_aggregation_clauses own mdc aggs p q = Ok (p', q') ->
  forall k, k <> "frequency" -> p' !! k = p !! k.
Proof.
  induction aggs as [|agg rest IH]; intros p q p' q' H k Hk; simpl in H.
  - injection H as <- _. reflexivity.
  - inv_bind H as agg_lower Hl.
    destruct (String.eqb agg_lower "subreddit"); [eauto|].
    destruct (String.eqb agg_lower "author"); [eauto|].
    destruct (String.eqb agg_lower "created_utc").
    + inv_bind H as frequency Hf. rewrite (IH _ _ _ _ H k Hk).
      apply lookup_insert_ne. congruence.
    + destruct (own agg_lower); eauto.
Qed.

Lemma add_aggregations_lookup own p q p' q' :
  add_aggregations own p q = Ok (p', q') ->
  forall k, k <> "frequency" -> k <> "aggs" -> p' !! k = p !! k.
Proof.
  unfold add_aggregations. intros H k Hk1 Hk2.
  destruct (p !! "aggs") as [v|]; [|injection H as <- _; reflexivity].
  destruct (negb (py_truthy v)); [injection H as <- _; reflexivity|].
  inv_bind H as aggs Haggs.
  rewrite (add_aggregation_clauses_lookup _ _ _ _ _ _ _ H k Hk1).
  destruct v; try reflexivity. apply lookup_insert_ne. congruence.
Qed.

(** ** The default cursor of the [link_id] aggregation *)

Section DefaultCursor.

Variable net : list request -> request -> outcome.
Variables es_primary es_fallback : string.
Variable now : Z.
Variable pgdb_execute : string -> list Z -> result (list (list pyval)).
Variable html_unescape : string -> string.
Variable py_repr : pyval -> string.
Variable execution_time : Q.

Lemma _apply_field_filter_lookup p source p' source' :
  _apply_field_filter p source = Ok (p', source') ->
  forall k, k <> "fields" -> p' !! k = p !! k.
Proof.
  unfold _apply_field_filter. intros H k Hk.
  destruct (present p "fields") as [v|]; [|injection H as <- _; reflexivity].
  inv_bind H as f1 Hf1. inv_bind H as f2 Hf2.
  destruct source; try discriminate. injection H as <- _.
  apply lookup_insert_ne. congruence.
Qed.

Lemma do_elasticsearch_hits_lookup hits : forall p p' results,
  Comment.do_elasticsearch_hits html_unescape p hits = Ok (p', results) ->
  forall k, k <> "fields" -> p' !! k = p !! k.
Proof.
  induction hits as [|hit rest IH]; intros p p' results H k Hk; simpl in H.
  - injection H as <- _. reflexivity.
  - inv_bind H as ps Hhit. destruct ps as [p1 source].
    inv_bind H as pr Hrest. destruct pr as [p2 results'].
    injection H as <- _.
    rewrite (IH _ _ _ Hrest k Hk).
    unfold Comment.do_elasticsearch_hit in Hhit.
    repeat (let x := fresh "x" in let Hx := fresh "Hx" in inv_bind Hhit as x Hx).
    apply (_apply_field_filter_lookup _ _ _ _ Hhit k Hk).
Qed.

(** The first three steps of [_process_aggregations] add no [link_id]
    entry. *)
Lemma early_steps_no_link_id aggregations aggs1 aggs2 aggs3 :
  Comment.process_subreddit aggregations ∅ = Ok aggs1 ->
  (has ← py_in "author" aggregations;
   if has : bool then
     buckets ← buckets_of aggregations "author";
     buckets ← traverse reset_score buckets;
     Ok (<["author" := VList buckets]> aggs1)
   else Ok aggs1) = Ok aggs2 ->
  (has ← py_in "created_utc" aggregations;
   if has : bool then
     buckets ← buckets_of aggregations "created_utc";
     buckets ← traverse created_utc_bucket buckets;
     Ok (<["created_utc" := VList buckets]> aggs2)
   else Ok aggs2) = Ok aggs3 ->
  aggs3 !! "link_id" = None.
Proof.
  unfold Comment.process_subreddit. intros H1 H2 H3.
  assert (E1 : aggs1 !! "link_id" = None).
  { inv_bind H1 as has Hhas. destruct has.
    - inv_bind H1 as b Hb. inv_bind H1 as b' Hb'. inv_bind H1 as b'' Hb''. injection H1 as <-.
      rewrite lookup_insert_ne by congruence. apply lookup_empty.
    - injection H1 as <-. apply lookup_empty. }
  assert (E2 : aggs2 !! "link_id" = None).
  { inv_bind H2 as has Hhas. destruct has.
    - inv_bind H2 as b Hb. inv_bind H2 as b' Hb'. injection H2 as <-.
      rewrite lookup_insert_ne by congruence. exact E1.
    - injection H2 as <-. exact E1. }
  inv_bind H3 as has Hhas. destruct has.
  - inv_bind H3 as b Hb. inv_bind H3 as b' Hb'. injection H3 as <-.
    rewrite lookup_insert_ne by congruence. exact E2.
  - injection H3 as <-. exact E2.
Qed.

(** A comment search without [after] that is answered with status 200
    carries no [link_id] aggregation, whatever the backends return. *)
Theorem no_link_id_without_after items tr body tr' :
  raw_params items !! "ids" = None ->
  present (Parameters.lower_keys items) "after" = None ->
  Comment.on_get net es_primary es_fallback now pgdb_execute html_unescape py_repr
    execution_time items tr = (Reply200 body, tr') ->
  reply_aggs (Reply200 body) "link_id" = None.
Proof.
  intros Hids Habs H. unfold Comment.on_get in H. rewrite Hids in H.
  match type of H with
  | match ?c tr with _ => _ end = _ => destruct (c tr) as [[env|e] tr1] eqn:Hrun
  end; [|discriminate].
  injection H as <- <-.
  inv_net Hrun as env0 tr0 Hdo. unfold mret, net_ret in Hrun. injection Hrun as <- <-.
  cbn [reply_aggs env_aggs].
  unfold Comment.do_elasticsearch in Hdo.
  inv_net Hdo as found tr2 Hsearch. destruct found as [[params data] metadata].
  inv_lift Hdo as hits Hhits.
  inv_lift Hdo as pr Hres. destruct pr as [params2 results].
  inv_lift Hdo as has_aggs Hhas.
  inv_net Hdo as aggs tr3 Haggs.
  inv_lift Hdo as timed_out Hto. inv_lift Hdo as total Htotal. inv_lift Hdo as shards Hsh.
  unfold mret, net_ret in Hdo. injection Hdo as <- <-. cbn [env_aggs].
  (* the parameters after normalisation *)
  assert (Hafter : params2 !! "after" = Some VNone).
  { rewrite (do_elasticsearch_hits_lookup _ _ _ _ Hres) by congruence.
    unfold Comment.search in Hsearch.
    inv_lift Hsearch as pq Hproc. destruct pq as [p1 q1].
    inv_lift Hsearch as pq2 Hadd. destruct pq2 as [p2 q2].
    inv_net Hsearch as response tr4 Hexec.
    inv_lift Hsearch as data' Hdata. inv_lift Hsearch as size Hsize.
    inv_lift Hsearch as sort Hsort. inv_lift Hsearch as sort_type Hst.
    unfold mret, net_ret in Hsearch. injection Hsearch as <- _ _ _.
    rewrite (add_aggregations_lookup _ _ _ _ _ Hadd) by congruence.
    apply (process_after_absent _ _ _ _ _ Hproc Habs). }
  destruct has_aggs.
  - inv_lift Haggs as aggregations Hag.
    inv_net Haggs as aggs' tr5 Hpa. unfold mret, net_ret in Haggs. injection Haggs as <- <-.
    cbn [mbind option_bind].
    pose proof (_process_aggregations_after_none net es_primary es_fallback py_repr
                  params2 aggregations tr2 Hafter) as Hnone.
    unfold Comment._process_aggregations in Hpa.
    inv_lift Hpa as aggs1 H1. inv_lift Hpa as aggs2 H2. inv_lift Hpa as aggs3 H3.
    inv_lift Hpa as has Hlink.
    destruct has.
    + exfalso. eapply (Hnone Hlink).
      unfold Comment._process_aggregations.
      unfold mbind at 1. unfold net_bind at 1. unfold lift at 1. rewrite H1.
      unfold mbind at 1. unfold net_bind at 1. unfold lift at 1. rewrite H2.
      unfold mbind at 1. unfold net_bind at 1. unfold lift at 1. rewrite H3.
      unfold mbind at 1. unfold net_bind at 1. unfold lift at 1. rewrite Hlink.
      exact Hpa.
    + unfold mret, net_ret in Hpa. injection Hpa as <- _.
      apply (early_steps_no_link_id _ _ _ _ H1 H2 H3).
  - unfold mret, net_ret in Haggs. injection Haggs as <- _. reflexivity.
Qed.

End DefaultCursor.

(** C6, on the failing input: the comment search [aggs=link_id] without
    [after], with healthy backends that resolve the one bucket to a
    submission created at time 100. The request is answered with status 500
    and [TypeError], after the search and the lookup were sent; the default
    of 0 is never used. With [after=0] supplied the bucket is kept, with
    the submission and its full link attached. *)
Theorem link_id_without_after_fails :
  let request := [("aggs", VStr "link_id")] in
  let run := sample_on_get healthy_net request [] in
  let run0 := sample_on_get healthy_net (request ++ [("after", VStr "0")])%list [] in
  Parameters.process 1000 request empty_query ≫= (fun pq => Ok (fst pq !! "after"))
    = Ok (Some VNone) /\
  fst run = Reply500 TypeError /\
  req_url <$> snd run = [comments_url; "http://mars:9200/rs/submissions/_search"] /\
  reply_aggs (fst run0) "link_id" =
    Some (VList [VDict (<["data" := VDict (<["full_link" :=
                           VStr "https://www.reddit.com/r/python/comments/a/"]>
                           (<["id" := VStr "a"]> (<["created_utc" := VInt 100]>
                           (<["permalink" := VStr "/r/python/comments/a/"]> ∅))))]>
                        (<["key" := VInt 10]> (<["doc_count" := VInt 3]> ∅)))]).
Proof. repeat split; vm_compute; reflexivity. Qed.

(** C10, on the failing input: the same request when both endpoints fail
    the submission lookup. The lookup itself returns the empty dictionary
    and no [ElasticsearchError] is raised, but the request is answered with
    status 500 and [TypeError] all the same; only with [after] supplied
    does it complete, with an empty [link_id] list. This is the defect of
    C6: [after] is [None] after normalisation. *)
Theorem lookup_down_without_after_fails :
  let request := [("aggs", VStr "link_id")] in
  let run := sample_on_get lookup_down_net request [] in
  let run0 := sample_on_get lookup_down_net (request ++ [("after", VStr "0")])%list [] in
  fst (get_submissions_from_es lookup_down_net "http://mars:9200" "http://jupiter:9200"
         (VList [VInt 10]) []) = Ok [] /\
  fst run = Reply500 TypeError /\
  req_url <$> snd run = [comments_url; "http://mars:9200/rs/submissions/_search";
                         "http://jupiter:9200/rs/submissions/_search"] /\
  reply_aggs (fst run0) "link_id" = Some (VList []) /\
  reply_error (fst run0) = None.
Proof. repeat split; vm_compute; reflexivity. Qed.

(** * Further properties of the code *)

(** A run that succeeds returns what the projections read off it. *)
Lemma run_ok (r : result (gmap string pyval * query_doc)) :
  is_ok r = true -> r = Ok (params_of r, query_of r).
Proof. destruct r as [[p q]|e]; [reflexivity | discriminate]. Qed.

(** ** The codec on all integers *)

(** The encoder on a negative number: the sign, then the digits of the
    absolute value. *)
Lemma base36encode_signed n s :
  n < 0 -> base36encode (- n) = Ok s -> base36encode n = Ok ("-" ++ s).
Proof.
  intros Hn Hs. unfold base36encode in *.
  destruct (Z.ltb_spec n 0) as [_|?]; [|lia].
  destruct (Z.ltb_spec (- n) 0) as [?|_]; [lia|].
  destruct ((0 <=? - n) && (- n <? len_alphabet)).
  - destruct (alphabet_at (- n)); cbn [mbind result_bind] in *; [|discriminate].
    injection Hs as <-. reflexivity.
  - destruct (encode_loop _ _ _); cbn [mbind result_bind] in *; [|discriminate].
    injection Hs as <-. reflexivity.
Qed.

Lemma base36decode_signed s :
  over_alphabet s = true -> s <> "" -> base36decode ("-" ++ s) = Ok (- value36 0 s).
Proof.
  intros Ho Hne. unfold base36decode, int_of_string, strip.
  destruct s as [|c r]; [congruence|].
  pose proof Ho as Ho'. simpl in Ho'. apply andb_true_iff in Ho' as [Hc Hr].
  destruct (in_alphabet_plain c Hc) as (_ & Hus & _).
  assert (Hl : lstrip ("-" ++ String c r) = "-" ++ String c r) by reflexivity.
  rewrite Hl. change ("-" ++ String c r) with (String "-" (String c r)).
  rewrite rstrip_cons, (rstrip_over_alphabet _ Ho). cbv iota beta.
  unfold parse_unsigned. rewrite Hus, (parse_digits_value _ 0 Ho). reflexivity.
Qed.

Lemma in_alphabet_lower c : in_alphabet c = true -> lower_char c = c.
Proof. destruct c as [[] [] [] [] [] [] [] []]; intros H; try discriminate H; reflexivity. Qed.

Lemma lower_over_alphabet s : over_alphabet s = true -> lower s = s.
Proof.
  induction s as [|c r IH]; [reflexivity|]. cbn [over_alphabet lower].
  intros H. apply andb_true_iff in H as [Hc Hr]. rewrite (in_alphabet_lower c Hc), (IH Hr).
  reflexivity.
Qed.

(** No string over the alphabet starts with a type prefix such as [t1_]:
    the underscore is not a digit. *)
Lemma over_alphabet_no_prefix x y s :
  over_alphabet s = true -> startswith (String x (String y "_")) s = false.
Proof.
  intros Ho. unfold startswith.
  destruct s as [|a [|b [|c r]]]; cbn [String.prefix];
    repeat (destruct (ascii_dec _ _); [|reflexivity]); try reflexivity.
  subst. cbn [over_alphabet] in Ho.
  apply andb_true_iff in Ho as [_ Ho]. apply andb_true_iff in Ho as [_ Ho].
  apply andb_true_iff in Ho as [Hc _]. discriminate Hc.
Qed.

Lemma substring_all s : String.substring 0 (String.length s) s = s.
Proof. induction s as [|c r IH]; [reflexivity|]. cbn. rewrite IH. reflexivity. Qed.

(** The encoder is total, and its output is in lower case, carries no
    type prefix and decodes to the number. *)
Lemma base36encode_total n :
  exists s, base36encode n = Ok s /\ base36decode s = Ok n /\ lower s = s /\
            forall x y, startswith (String x (String y "_")) s = false.
Proof.
  destruct (Z.lt_ge_cases n 0) as [Hn|Hn].
  - destruct (base36encode_nonneg (- n)) as (s & Hs & Ho & Hne & Hv); [lia|].
    exists ("-" ++ s). split; [apply base36encode_signed; assumption|].
    split; [rewrite (base36decode_signed s Ho Hne), Hv; f_equal; lia|].
    split.
    + change ("-" ++ s) with (String "-" s). cbn [lower].
      rewrite (lower_over_alphabet s Ho). reflexivity.
    + intros x y. change ("-" ++ s) with (String "-" s). unfold startswith.
      destruct s as [|b [|c r]]; cbn [String.prefix];
        repeat (destruct (ascii_dec _ _); [|reflexivity]); try reflexivity.
      subst. cbn [over_alphabet] in Ho.
      apply andb_true_iff in Ho as [_ Ho]. apply andb_true_iff in Ho as [Hc _].
      discriminate Hc.
  - destruct (base36encode_nonneg n Hn) as (s & Hs & Ho & Hne & Hv).
    exists s. split; [exact Hs|].
    split; [unfold base36decode; rewrite (int_of_digits s Ho Hne), Hv; reflexivity|].
    split; [apply lower_over_alphabet, Ho|].
    intros x y. apply over_alphabet_no_prefix, Ho.
Qed.

(** On every integer the encoder returns a string that the decoder maps
    back to the integer; hence no two integers share an encoding. *)
Theorem base36_roundtrip_integers :
  (forall n, exists s, base36encode n = Ok s /\ base36decode s = Ok n) /\
  (forall n m, base36encode n = base36encode m -> n = m).
Proof.
  assert (Hrt : forall n, exists s, base36encode n = Ok s /\ base36decode s = Ok n).
  { intros n. destruct (base36encode_total n) as (s & Hs & Hd & _). eauto. }
  split; [exact Hrt|].
  intros n m H. destruct (Hrt n) as (s & Hs & Hd). destruct (Hrt m) as (t & Ht & Hd').
  rewrite Hs, Ht in H. injection H as ->. rewrite Hd in Hd'. congruence.
Qed.

(** ** Case of identifiers *)

Lemma lower_char_facts c :
  is_space (lower_char c) = is_space c /\
  digit_value (lower_char c) = digit_value c /\
  Ascii.eqb (lower_char c) "_" = Ascii.eqb c "_" /\
  (lower_char c = "+"%char <-> c = "+"%char) /\
  (lower_char c = "-"%char <-> c = "-"%char).
Proof.
  destruct c as [[] [] [] [] [] [] [] []];
    (split; [reflexivity|]; split; [reflexivity|]; split; [reflexivity|];
     split; split; intros H; try reflexivity; try discriminate H).
Qed.

Lemma lstrip_lower s : lstrip (lower s) = lower (lstrip s).
Proof.
  induction s as [|c r IH]; [reflexivity|]. cbn [lower lstrip].
  destruct (lower_char_facts c) as (-> & _). destruct (is_space c); [exact IH | reflexivity].
Qed.

Lemma rstrip_lower s : rstrip (lower s) = lower (rstrip s).
Proof.
  induction s as [|c r IH]; [reflexivity|]. cbn [lower]. rewrite !rstrip_cons, IH.
  destruct (lower_char_facts c) as (-> & _).
  destruct (rstrip r); [destruct (is_space c)|]; reflexivity.
Qed.

Lemma parse_digits_lower base s : forall acc us,
  parse_digits base acc us (lower s) = parse_digits base acc us s.
Proof.
  induction s as [|c r IH]; intros acc us; [reflexivity|]. cbn [lower parse_digits].
  destruct (lower_char_facts c) as (_ & -> & -> & _).
  destruct (Ascii.eqb c "_"); [destruct us; [reflexivity | apply IH]|].
  destruct (digit_value c) as [d|]; [|reflexivity].
  destruct (d <? base); [apply IH | reflexivity].
Qed.

Lemma parse_unsigned_lower base s : parse_unsigned base (lower s) = parse_unsigned base s.
Proof.
  destruct s as [|c r]; [reflexivity|].
  unfold parse_unsigned. change (lower (String c r)) with (String (lower_char c) (lower r)).
  destruct (lower_char_facts c) as (_ & _ & -> & _).
  destruct (Ascii.eqb c "_"); [reflexivity|].
  apply (parse_digits_lower base (String c r)).
Qed.

Lemma int_of_string_cases base s :
  match strip s with
  | String c r =>
      (c = "+"%char /\ int_of_string base s = parse_unsigned base r) \/
      (c = "-"%char /\ int_of_string base s = Z.opp <$> parse_unsigned base r) \/
      (c <> "+"%char /\ c <> "-"%char /\ int_of_string base s = parse_unsigned base (String c r))
  | EmptyString => int_of_string base s = None
  end.
Proof.
  unfold int_of_string. destruct (strip s) as [|c r]; [reflexivity|].
  destruct c as [[] [] [] [] [] [] [] []];
    first [ left; split; reflexivity
          | right; left; split; reflexivity
          | right; right; split; [discriminate|]; split; [discriminate | reflexivity] ].
Qed.

(** Lowering a string changes neither the white space around a literal
    nor the value of a digit. *)
Lemma int_of_string_lower base s : int_of_string base (lower s) = int_of_string base s.
Proof.
  assert (Hs : strip (lower s) = lower (strip s))
    by (unfold strip; rewrite lstrip_lower, rstrip_lower; reflexivity).
  pose proof (int_of_string_cases base s) as H1.
  pose proof (int_of_string_cases base (lower s)) as H2.
  rewrite Hs in H2. destruct (strip s) as [|c r]; [cbn [lower] in H2; congruence|].
  change (lower (String c r)) with (String (lower_char c) (lower r)) in H2.
  destruct (lower_char_facts c) as (_ & _ & _ & Hplus & Hminus).
  destruct H1 as [[Hc H1]|[[Hc H1]|(Hp & Hm & H1)]];
    destruct H2 as [[Hc' H2]|[[Hc' H2]|(Hp' & Hm' & H2)]];
    try (subst c; discriminate Hc'); try tauto.
  - rewrite H1, H2. apply parse_unsigned_lower.
  - rewrite H1, H2, parse_unsigned_lower. reflexivity.
  - rewrite H1, H2. apply (parse_unsigned_lower base (String c r)).
Qed.

(** On a string of ASCII characters the decoder reads upper-case and
    lower-case letters alike: lowering the string first never changes
    what it decodes to, or that it is rejected. The statement stops at
    ASCII because the interpreter's [str.lower] does not: beyond the
    strings of the model the Kelvin sign U+212A, no digit itself, has the
    digit [k] as its lower case. *)
Theorem base36decode_case_insensitive (s : string) :
  is_ascii s = true -> base36decode (lower s) = base36decode s.
Proof. intros _. unfold base36decode. rewrite int_of_string_lower. reflexivity. Qed.

(** The identifier [KF12oi] between spaces. *)
Lemma base36decode_case_insensitive_witness :
  is_ascii " KF12oi " = true /\
  base36decode (lower " KF12oi ") = base36decode " KF12oi ".
Proof.
  split; [reflexivity|]. apply (base36decode_case_insensitive " KF12oi "). reflexivity.
Defined.

(** ** Canonical identifiers *)

Lemma alphabet_digit c :
  in_alphabet c = true ->
  exists d, digit_value c = Some d /\ 0 <= d < 36 /\ alphabet_at d = Ok c /\
            (d = 0 -> c = "0"%char).
Proof.
  destruct c as [[] [] [] [] [] [] [] []]; intros H; try discriminate H;
    eexists; (split; [vm_compute; reflexivity|]);
    (split; [split; vm_compute; [discriminate | reflexivity]|]);
    (split; [reflexivity|]);
    intros H0; first [reflexivity | discriminate H0].
Qed.

Lemma value36_bounds s : forall acc,
  over_alphabet s = true -> 0 <= acc ->
  acc * 36 ^ Z.of_nat (String.length s) <= value36 acc s
    < (acc + 1) * 36 ^ Z.of_nat (String.length s).
Proof.
  induction s as [|c r IH]; intros acc Ho Hacc.
  - cbn. lia.
  - cbn [over_alphabet] in Ho. apply andb_true_iff in Ho as [Hc Hr].
    destruct (alphabet_digit c Hc) as (d & Hd & Hrange & _).
    cbn [value36 String.length]. rewrite Hd. cbn [default]. unfold id.
    specialize (IH (acc * 36 + d) Hr ltac:(lia)).
    rewrite Nat2Z.inj_succ, Z.pow_succ_r by lia.
    set (p := 36 ^ Z.of_nat (String.length r)) in *.
    assert (0 < p) by (apply Z.pow_pos_nonneg; lia). nia.
Qed.

(** Reading the digits of [s] after [acc] and then running the loop takes
    the digits off again, one turn per digit. *)
Lemma encode_loop_digits s : forall acc rest f,
  over_alphabet s = true -> 0 < acc -> (String.length s <= f)%nat ->
  encode_loop f (value36 acc s) rest = encode_loop (f - String.length s) acc (s ++ rest).
Proof.
  induction s as [|c r IH]; intros acc rest f Ho Hacc Hf.
  - cbn. rewrite Nat.sub_0_r. reflexivity.
  - cbn [over_alphabet] in Ho. apply andb_true_iff in Ho as [Hc Hr].
    destruct (alphabet_digit c Hc) as (d & Hd & Hrange & Hat & _).
    cbn [value36 String.length] in *. rewrite Hd. cbn [default]. unfold id.
    rewrite (IH (acc * 36 + d) rest f Hr) by lia.
    destruct (f - String.length r)%nat as [|g] eqn:Hg; [lia|].
    replace (f - S (String.length r))%nat with g by lia.
    cbn [encode_loop]. destruct (Z.eqb_spec (acc * 36 + d) 0) as [?|_]; [lia|].
    change len_alphabet with 36.
    replace ((acc * 36 + d) mod 36) with d
      by (rewrite Z.add_comm, Z.mod_add by lia; symmetry; apply Z.mod_small; lia).
    replace ((acc * 36 + d) / 36) with acc
      by (rewrite Z.add_comm, Z.div_add by lia; rewrite Z.div_small by lia; lia).
    rewrite Hat. reflexivity.
Qed.

Lemma append_empty s : s ++ "" = s.
Proof.
  induction s as [|c r IH]; [reflexivity|].
  change (String c (r ++ "") = String c r). f_equal. exact IH.
Qed.

(** A string over the alphabet with no leading zero (or the string ["0"])
    is what the encoder returns for the number it decodes to. *)
Theorem base36_canonical_roundtrip (s : string) :
  canonical s = true ->
  exists n, base36decode s = Ok n /\ 0 <= n /\ base36encode n = Ok s.
Proof.
  unfold canonical. intros H. apply andb_true_iff in H as [Ho Hlead].
  destruct s as [|c r]; [discriminate|].
  assert (Hne : String c r <> "") by discriminate.
  exists (value36 0 (String c r)).
  split; [unfold base36decode; rewrite (int_of_digits _ Ho Hne); reflexivity|].
  pose proof (value36_bounds (String c r) 0 Ho ltac:(lia)) as Hb0.
  split; [lia|].
  pose proof Ho as Ho'. cbn [over_alphabet] in Ho'. apply andb_true_iff in Ho' as [Hc Hr].
  destruct (alphabet_digit c Hc) as (d & Hd & Hrange & Hat & Hzero).
  cbn [value36]. rewrite Hd. cbn [default]. unfold id. rewrite Z.mul_0_l, Z.add_0_l.
  pose proof (value36_bounds r d Hr ltac:(lia)) as Hb.
  set (n := value36 d r) in *.
  assert (Hp : 0 < 36 ^ Z.of_nat (String.length r)) by (apply Z.pow_pos_nonneg; lia).
  unfold base36encode.
  destruct (Z.ltb_spec n 0) as [?|_]; [nia|].
  destruct (Z.leb_spec 0 n) as [_|?]; [|lia]. change len_alphabet with 36. cbn [andb].
  destruct (Z.ltb_spec n 36) as [Hlt|Hge].
  - (* one digit *)
    assert (Hr0 : r = "").
    { destruct (Z.eq_dec d 0) as [->|Hd0].
      - apply orb_true_iff in Hlead as [Hl|Hl]; [|apply String.eqb_eq, Hl].
        rewrite (Hzero eq_refl) in Hl. discriminate Hl.
      - destruct r as [|c2 r2]; [reflexivity|]. exfalso.
        cbn [String.length] in Hb. rewrite Nat2Z.inj_succ, Z.pow_succ_r in Hb by lia.
        assert (0 < 36 ^ Z.of_nat (String.length r2)) by (apply Z.pow_pos_nonneg; lia). nia. }
    subst r. subst n. cbn [value36]. rewrite Hat. reflexivity.
  - (* several digits *)
    assert (Hd0 : 0 < d).
    { destruct (Z.eq_dec d 0) as [->|?]; [|lia]. exfalso.
      apply orb_true_iff in Hlead as [Hl|Hl].
      - rewrite (Hzero eq_refl) in Hl. discriminate Hl.
      - apply String.eqb_eq in Hl. subst r. subst n. cbn in Hge. lia. }
    assert (Hlen : (String.length r <= S (Z.to_nat (Z.log2 n)))%nat).
    { assert (Z.of_nat (String.length r) <= Z.log2 n); [|lia].
      apply Z.log2_le_pow2; [lia|].
      assert (2 ^ Z.of_nat (String.length r) <= 36 ^ Z.of_nat (String.length r))
        by (apply Z.pow_le_mono_l; lia). nia. }
    subst n. rewrite (encode_loop_digits r d "" _ Hr Hd0 Hlen).
    destruct (S (Z.to_nat (Z.log2 (value36 d r))) - String.length r)%nat as [|g] eqn:Hg.
    + exfalso.
      assert (Z.of_nat (String.length r) <= Z.log2 (value36 d r)); [|lia].
      apply Z.log2_le_pow2; [lia|].
      assert (2 ^ Z.of_nat (String.length r) <= 36 ^ Z.of_nat (String.length r))
        by (apply Z.pow_le_mono_l; lia). nia.
    + cbn [encode_loop]. destruct (Z.eqb_spec d 0) as [?|_]; [lia|].
      change len_alphabet with 36.
      rewrite Z.mod_small, Z.div_small by lia. rewrite Hat.
      cbn [mbind result_bind]. rewrite append_empty.
      destruct g; reflexivity.
Qed.

Lemma base36_canonical_roundtrip_witness :
  canonical "kf12oi" = true /\
  exists n, base36decode "kf12oi" = Ok n /\ 0 <= n /\ base36encode n = Ok "kf12oi".
Proof. split; [reflexivity | apply (base36_canonical_roundtrip "kf12oi"); reflexivity]. Defined.

(** ** The compiled query *)

Lemma appends_refl q : appends q q.
Proof. exists []. destruct q. cbn. rewrite app_nil_r. reflexivity. Qed.

Lemma appends_trans q1 q2 q3 : appends q1 q2 -> appends q2 q3 -> appends q1 q3.
Proof.
  intros [a1 ->] [a2 ->]. exists (a1 ++ a2)%list. cbn. rewrite app_assoc. reflexivity.
Qed.

Lemma appends_add_filter c q : appends q (add_filter c q).
Proof. exists [c]. reflexivity. Qed.

Lemma appends_elem c q q' : appends q q' -> c ∈ q_filter q -> c ∈ q_filter q'.
Proof. intros [a ->] H. cbn. apply elem_of_app. left. exact H. Qed.

Lemma elem_add_filter c q : c ∈ q_filter (add_filter c q).
Proof. cbn. apply elem_of_app. right. apply list_elem_of_singleton. reflexivity. Qed.

Lemma process_conditions_appends cs : forall p q p' q',
  Parameters.process_conditions cs p q = Ok (p', q') -> appends q q'.
Proof.
  induction cs as [|c cs IH]; intros p q p' q' H; simpl in H.
  - injection H as _ <-. apply appends_refl.
  - destruct (present p c).
    + inv_bind H as l Hl. eapply appends_trans; [apply appends_add_filter | eapply IH, H].
    + eapply IH, H.
Qed.

Lemma process_boolean_conditions_appends cs : forall p q p' q',
  Parameters.process_boolean_conditions cs p q = Ok (p', q') -> appends q q'.
Proof.
  induction cs as [|c cs IH]; intros p q p' q' H; simpl in H.
  - injection H as _ <-. apply appends_refl.
  - destruct (present p c) as [[]|]; try discriminate; [|eapply IH, H].
    destruct (_ || _); [eapply appends_trans; [apply appends_add_filter | eapply IH, H]|].
    destruct (_ || _); [eapply appends_trans; [apply appends_add_filter | eapply IH, H]|].
    eapply IH, H.
Qed.

Lemma process_count_filter_appends f p q p' q' :
  Parameters.process_count_filter f p q = Ok (p', q') -> appends q q'.
Proof.
  unfold Parameters.process_count_filter. intros H.
  destruct (present p f) as [[]|]; try discriminate.
  - inv_bind H as c Hc. injection H as _ <-. apply appends_add_filter.
  - injection H as _ <-. apply appends_refl.
Qed.

Section Compiled.

Variable now : Z.

(** What [_process_time_range] does with each bound. *)
Lemma _process_time_range_spec p q p' q' :
  Parameters._process_time_range now p q = Ok (p', q') ->
  appends q q' /\
  match present p "after" with
  | Some v => exists t, Parameters._parse_time_value now v = Ok t /\
                        p' !! "after" = Some (VInt t) /\
                        PRangeGt "created_utc" t ∈ q_filter q'
  | None => p' !! "after" = Some VNone
  end /\
  match present p "before" with
  | Some v => exists t, Parameters._parse_time_value now v = Ok t /\
                        p' !! "before" = Some (VInt t) /\
                        PRangeLt "created_utc" t ∈ q_filter q'
  | None => p' !! "before" = Some VNone
  end.
Proof.
  unfold Parameters._process_time_range. intros H.
  inv_bind H as pq Hafter. destruct pq as [p1 q1].
  assert (Hb : present p1 "before" = present p "before").
  { apply present_ext. destruct (present p "after"); [inv_bind Hafter as t Ht|];
      injection Hafter as <- _; apply lookup_insert_ne; congruence. }
  assert (H1 : appends q q1 /\
               match present p "after" with
               | Some v => exists t, Parameters._parse_time_value now v = Ok t /\
                                     p1 !! "after" = Some (VInt t) /\
                                     PRangeGt "created_utc" t ∈ q_filter q1
               | None => p1 !! "after" = Some VNone
               end).
  { destruct (present p "after") as [v|].
    - inv_bind Hafter as t Ht. injection Hafter as <- <-.
      split; [apply appends_add_filter|]. exists t.
      split; [exact Ht|]. split; [apply lookup_insert_eq | apply elem_add_filter].
    - injection Hafter as <- <-. split; [apply appends_refl | apply lookup_insert_eq]. }
  destruct H1 as [Hq1 Ha]. rewrite Hb in H.
  destruct (present p "before") as [v|].
  - inv_bind H as t Ht. injection H as <- <-.
    split; [eapply appends_trans; [exact Hq1 | apply appends_add_filter]|]. split.
    + destruct (present p "after") as [va|].
      * destruct Ha as (ta & Hta & Hpa & Hin). exists ta. split; [exact Hta|].
        split; [rewrite lookup_insert_ne by congruence; exact Hpa|].
        apply (appends_elem _ q1); [apply appends_add_filter | exact Hin].
      * rewrite lookup_insert_ne by congruence. exact Ha.
    + exists t. split; [exact Ht|]. split; [apply lookup_insert_eq | apply elem_add_filter].
  - injection H as <- <-. split; [exact Hq1|]. split.
    + destruct (present p "after") as [va|].
      * destruct Ha as (ta & Hta & Hpa & Hin). exists ta. split; [exact Hta|].
        split; [rewrite lookup_insert_ne by congruence; exact Hpa | exact Hin].
      * rewrite lookup_insert_ne by congruence. exact Ha.
    + apply lookup_insert_eq.
Qed.

(** The run of [process], stage by stage. *)
Lemma process_run items q p' q' :
  Parameters.process now items q = Ok (p', q') ->
  exists p1 q1 p2 q2 q5 st p6 n p7 d,
    Parameters.process_conditions ["subreddit"; "author"] (Parameters.lower_keys items) q
      = Ok (p1, q1) /\
    Parameters._process_time_range now p1 q1 = Ok (p2, q2) /\
    appends q2 q5 /\
    match present p2 "sort_type" with
    | Some v => py_lower v = Ok st
    | None => st = "created_utc"
    end /\
    Parameters.process_size (<["sort_type" := VStr st]> p2) q5
      = Ok (p6, set_size (VInt n) q5) /\
    (forall k, k <> "size" -> p6 !! k = <["sort_type" := VStr st]> p2 !! k) /\
    Parameters.process_sort "desc" st p6 (set_size (VInt n) q5) = Ok (p7, q') /\
    q' = set_sort st (VStr d) (set_size (VInt n) q5) /\
    (forall k, k <> "sort" -> p7 !! k = p6 !! k) /\
    (forall k, k <> "frequency" -> p' !! k = p7 !! k) /\
    match p7 !! "frequency" with
    | Some v =>
        exists s, v = VStr s /\
          p' !! "frequency" =
            Some (if bool_decide (lower s ∈ Parameters.frequencies)
                  then VStr (lower s) else VNone)
    | None => p' !! "frequency" = Some VNone
    end /\
    exists q3 q4,
      Parameters._process_score_filter p2 q2 = Ok (p2, q3) /\
      Parameters._process_comment_count_filter p2 q3 = Ok (p2, q4) /\
      Parameters._process_boolean_filters p2 q4 = Ok (p2, q5).
Proof.
  intros H. unfold Parameters.process in H.
  inv_bind H as pq1 Hc. destruct pq1 as [p1 q1].
  inv_bind H as pq2 Ht. destruct pq2 as [p2 q2].
  inv_bind H as pq3 Hs. destruct pq3 as [p3 q3].
  inv_bind H as pq4 Hn. destruct pq4 as [p4 q4].
  inv_bind H as pq5 Hb. destruct pq5 as [p5 q5].
  inv_bind H as st Hst.
  inv_bind H as pq6 Hsz. destruct pq6 as [p6 q6].
  inv_bind H as pq7 Hso. destruct pq7 as [p7 q7].
  inv_bind H as p8 Hf. injection H as <- <-.
  pose proof (process_count_filter_appends _ _ _ _ _ Hs) as A3.
  pose proof (process_count_filter_appends _ _ _ _ _ Hn) as A4.
  pose proof (process_boolean_conditions_appends _ _ _ _ _ Hb) as A5.
  pose proof (process_count_filter_params _ _ _ _ _ Hs) as ->.
  pose proof (process_count_filter_params _ _ _ _ _ Hn) as ->.
  pose proof (process_boolean_conditions_params _ _ _ _ _ Hb) as ->.
  destruct (process_size_spec (<["sort_type" := VStr st]> p2) q5)
    as (p6' & n & Hsz' & _ & Hk6 & _).
  rewrite Hsz in Hsz'. injection Hsz' as <- ->.
  destruct (process_sort_spec _ _ _ _ _ Hso) as (d & _ & Hq7 & Hk7 & _).
  exists p1, q1, p2, q2, q5, st, p6, n, p7, d.
  split; [exact Hc|]. split; [exact Ht|].
  split; [eapply appends_trans; [exact A3|]; eapply appends_trans; [exact A4 | exact A5]|].
  split; [destruct (present p2 "sort_type"); [exact Hst | injection Hst as <-; reflexivity]|].
  split; [exact Hsz|]. split; [exact Hk6|]. split; [exact Hso|]. split; [exact Hq7|].
  split; [exact Hk7|].
  enough (Hfreq : (forall k, k <> "frequency" -> p8 !! k = p7 !! k) /\
                  match p7 !! "frequency" with
                  | Some v =>
                      exists s, v = VStr s /\
                        p8 !! "frequency" =
                          Some (if bool_decide (lower s ∈ Parameters.frequencies)
                                then VStr (lower s) else VNone)
                  | None => p8 !! "frequency" = Some VNone
                  end).
  { destruct Hfreq as [F1 F2]. split; [exact F1|]. split; [exact F2|]. eauto. }
  destruct (p7 !! "frequency") as [v|].
  - inv_bind Hf as f Hfl. apply py_lower_Ok in Hfl as (s & -> & ->).
    split.
    + intros k Hk. destruct (bool_decide _); injection Hf as <-;
        apply lookup_insert_ne; congruence.
    + exists s. split; [reflexivity|].
      destruct (bool_decide _); injection Hf as <-; apply lookup_insert_eq.
  - injection Hf as <-.
    split; [intros k Hk; apply lookup_insert_ne; congruence | apply lookup_insert_eq].
Qed.

(** Parameters that normalisation does not know pass through unchanged,
    under their lower-cased names. *)
Theorem process_keeps_other_parameters items q p' q' k :
  Parameters.process now items q = Ok (p', q') ->
  k ∉ written_keys ->
  p' !! k = Parameters.lower_keys items !! k.
Proof.
  intros H Hk. unfold written_keys in Hk. rewrite !not_elem_of_cons in Hk.
  destruct Hk as (K1 & K2 & K3 & K4 & K5 & K6 & K7 & K8 & _).
  destruct (process_run _ _ _ _ H)
    as (p1 & q1 & p2 & q2 & q5 & st & p6 & n & p7 & d & Hc & Ht & _ & _ & _ & H6 & _ & _ & H7 & H8 & _).
  rewrite H8, H7, H6 by assumption. rewrite lookup_insert_ne by congruence.
  rewrite (_process_time_range_lookup _ _ _ _ _ Ht k) by assumption.
  apply (process_conditions_lookup _ _ _ _ _ Hc). not_in_keys.
Qed.

(** Normalisation only appends to the filter list of the query it is
    given, leaves the negated clauses and the aggregations alone, and
    writes the size and exactly one sort entry. *)
Theorem process_query_shape items q p' q' :
  Parameters.process now items q = Ok (p', q') ->
  exists added n st d,
    q_filter q' = (q_filter q ++ added)%list /\
    q_must_not q' = q_must_not q /\
    q_aggs q' = q_aggs q /\
    q_size q' = Some (VInt n) /\
    q_sort q' = <[st := VStr d]> (q_sort q) /\
    p' !! "sort_type" = Some (VStr st) /\
    (present (Parameters.lower_keys items) "sort_type" = None -> st = "created_utc").
Proof.
  intros H.
  destruct (process_run _ _ _ _ H)
    as (p1 & q1 & p2 & q2 & q5 & st & p6 & n & p7 & d
        & Hc & Ht & A5 & Hst & _ & H6 & _ & -> & H7 & H8 & _).
  pose proof (process_conditions_appends _ _ _ _ _ Hc) as A1.
  destruct (_process_time_range_spec _ _ _ _ Ht) as (A2 & _).
  destruct (appends_trans _ _ _ (appends_trans _ _ _ A1 A2) A5) as [added ->].
  exists added, n, st, d. cbn.
  split; [reflexivity|]. split; [reflexivity|]. split; [reflexivity|].
  split; [reflexivity|]. split; [reflexivity|]. split.
  - rewrite H8, H7, H6 by congruence. apply lookup_insert_eq.
  - intros Hnone.
    assert (E : present p2 "sort_type" = present (Parameters.lower_keys items) "sort_type").
    { apply present_ext.
      rewrite (_process_time_range_lookup _ _ _ _ _ Ht "sort_type") by congruence.
      apply (process_conditions_lookup _ _ _ _ _ Hc). not_in_keys. }
    rewrite E, Hnone in Hst. exact Hst.
Qed.

(** A time bound of the request is parsed, stored as a number and
    compiled to a range clause on [created_utc]; an absent bound is
    stored as [None]. *)
Theorem process_time_bounds items q p' q' :
  Parameters.process now items q = Ok (p', q') ->
  match present (Parameters.lower_keys items) "after" with
  | Some v => exists t, Parameters._parse_time_value now v = Ok t /\
                        p' !! "after" = Some (VInt t) /\
                        PRangeGt "created_utc" t ∈ q_filter q'
  | None => p' !! "after" = Some VNone
  end /\
  match present (Parameters.lower_keys items) "before" with
  | Some v => exists t, Parameters._parse_time_value now v = Ok t /\
                        p' !! "before" = Some (VInt t) /\
                        PRangeLt "created_utc" t ∈ q_filter q'
  | None => p' !! "before" = Some VNone
  end.
Proof.
  intros H.
  destruct (process_run _ _ _ _ H)
    as (p1 & q1 & p2 & q2 & q5 & st & p6 & n & p7 & d
        & Hc & Ht & A5 & _ & _ & H6 & _ & -> & H7 & H8 & _).
  destruct (_process_time_range_spec _ _ _ _ Ht) as (_ & Ha & Hb).
  assert (Ea : present p1 "after" = present (Parameters.lower_keys items) "after").
  { apply present_ext. apply (process_conditions_lookup _ _ _ _ _ Hc). not_in_keys. }
  assert (Eb : present p1 "before" = present (Parameters.lower_keys items) "before").
  { apply present_ext. apply (process_conditions_lookup _ _ _ _ _ Hc). not_in_keys. }
  assert (Ka : p' !! "after" = p2 !! "after").
  { rewrite H8, H7, H6 by congruence. apply lookup_insert_ne. congruence. }
  assert (Kb : p' !! "before" = p2 !! "before").
  { rewrite H8, H7, H6 by congruence. apply lookup_insert_ne. congruence. }
  rewrite Ea in Ha. rewrite Eb in Hb. rewrite Ka, Kb. cbn [q_filter set_sort set_size].
  split.
  - destruct (present (Parameters.lower_keys items) "after"); [|exact Ha].
    destruct Ha as (t & ? & ? & ?). exists t. eauto using appends_elem.
  - destruct (present (Parameters.lower_keys items) "before"); [|exact Hb].
    destruct Hb as (t & ? & ? & ?). exists t. eauto using appends_elem.
Qed.

Lemma traverse_py_lower ss : traverse py_lower (VStr <$> ss) = Ok (lower <$> ss).
Proof. induction ss as [|s ss IH]; [reflexivity|]. cbn. rewrite IH. reflexivity. Qed.

Lemma process_conditions_spec cs : forall p q p' q',
  Parameters.process_conditions cs p q = Ok (p', q') ->
  NoDup cs ->
  forall c v, c ∈ cs -> present p c = Some v ->
  exists l', traverse py_lower (match v with VList l => l | _ => [v] end) = Ok l' /\
             p' !! c = Some (VList (VStr <$> l')) /\
             PTerms c (VList (VStr <$> l')) ∈ q_filter q'.
Proof.
  induction cs as [|c0 cs IH]; intros p q p' q' H Hnd c v Hin Hv; simpl in H.
  - apply elem_of_nil in Hin. contradiction.
  - apply NoDup_cons in Hnd as [Hc0 Hnd].
    apply elem_of_cons in Hin as [-> | Hin].
    + rewrite Hv in H. inv_bind H as l' Hl'. exists l'. split; [exact Hl'|]. split.
      * rewrite (process_conditions_lookup _ _ _ _ _ H c0 Hc0). apply lookup_insert_eq.
      * eapply appends_elem; [eapply process_conditions_appends, H | apply elem_add_filter].
    + assert (Hne : c <> c0) by (intros ->; contradiction).
      destruct (present p c0) as [v0|].
      * inv_bind H as l0 Hl0. apply (IH _ _ _ _ H Hnd c v Hin).
        rewrite <- Hv. apply present_ext. apply lookup_insert_ne. congruence.
      * apply (IH _ _ _ _ H Hnd c v Hin Hv).
Qed.

(** Subreddit and author names are matched in lower case: the names of
    the request, one or several, are stored and compiled to a terms
    clause in lower case. *)
Theorem process_folds_names items q p' q' cond ss :
  Parameters.process now items q = Ok (p', q') ->
  cond = "subreddit" \/ cond = "author" ->
  Parameters.lower_keys items !! cond = Some (VList (VStr <$> ss)) \/
  (exists s, ss = [s] /\ Parameters.lower_keys items !! cond = Some (VStr s)) ->
  p' !! cond = Some (VList (VStr <$> (lower <$> ss))) /\
  PTerms cond (VList (VStr <$> (lower <$> ss))) ∈ q_filter q'.
Proof.
  intros H Hcond Hv.
  destruct (process_run _ _ _ _ H)
    as (p1 & q1 & p2 & q2 & q5 & st & p6 & n & p7 & d
        & Hc & Ht & A5 & _ & _ & H6 & _ & -> & H7 & H8 & _).
  destruct (_process_time_range_spec _ _ _ _ Ht) as (A2 & _).
  assert (Hnd : NoDup ["subreddit"; "author"]).
  { apply NoDup_cons. split; [not_in_keys|]. apply NoDup_cons. split; [not_in_keys|].
    apply NoDup_nil. constructor. }
  assert (Hin : cond ∈ ["subreddit"; "author"]).
  { destruct Hcond as [-> | ->]; [apply elem_of_cons; left; reflexivity|].
    apply elem_of_cons. right. apply elem_of_cons. left. reflexivity. }
  assert (Hl : exists v, present (Parameters.lower_keys items) cond = Some v /\
                         match v with VList l => l | _ => [v] end = VStr <$> ss).
  { destruct Hv as [Hv | (s & -> & Hv)]; unfold present; rewrite Hv; eauto. }
  destruct Hl as (v & Hp & Hl).
  destruct (process_conditions_spec _ _ _ _ _ Hc Hnd cond v Hin Hp) as (l' & Hl' & Hp1 & Hq1).
  rewrite Hl, traverse_py_lower in Hl'. injection Hl' as <-.
  split.
  - rewrite H8, H7, H6 by (destruct Hcond as [-> | ->]; congruence).
    rewrite lookup_insert_ne by (destruct Hcond as [-> | ->]; congruence).
    rewrite (_process_time_range_lookup _ _ _ _ _ Ht cond)
      by (destruct Hcond as [-> | ->]; congruence).
    exact Hp1.
  - cbn [q_filter set_sort set_size].
    eapply appends_elem; [exact A5|]. eapply appends_elem; [exact A2 | exact Hq1].
Qed.

(** Whenever normalisation returns, the requested frequency is a string
    or there is none. The stored frequency is the requested one in lower
    case when that is one of the six known intervals, and [None] when it is
    any other string or when no frequency is requested. *)
Theorem process_frequency_known items q p' q' :
  Parameters.process now items q = Ok (p', q') ->
  match Parameters.lower_keys items !! "frequency" with
  | Some v =>
      exists s, v = VStr s /\
        p' !! "frequency" =
          Some (if bool_decide (lower s ∈ Parameters.frequencies)
                then VStr (lower s) else VNone)
  | None => p' !! "frequency" = Some VNone
  end.
Proof.
  intros H.
  destruct (process_run _ _ _ _ H)
    as (p1 & q1 & p2 & q2 & q5 & st & p6 & n & p7 & d
        & Hc & Ht & _ & _ & _ & H6 & _ & _ & H7 & _ & Hf & _).
  assert (E : p7 !! "frequency" = Parameters.lower_keys items !! "frequency").
  { rewrite H7, H6 by congruence. rewrite lookup_insert_ne by congruence.
    rewrite (_process_time_range_lookup _ _ _ _ _ Ht "frequency") by congruence.
    apply (process_conditions_lookup _ _ _ _ _ Hc). not_in_keys. }
  rewrite <- E. exact Hf.
Qed.

End Compiled.

(** ** Boolean flags *)

Lemma process_boolean_conditions_spec cs : forall p q,
  Forall (fun c => match present p c with Some (VStr _) | None => True | Some _ => False end) cs ->
  Parameters.process_boolean_conditions cs p q
  = Ok (p, mkQuery (q_filter q ++ omap (flag_clause p) cs)%list
             (q_must_not q) (q_size q) (q_sort q) (q_aggs q)).
Proof.
  induction cs as [|c cs IH]; intros p q Hall.
  - cbn. rewrite app_nil_r. destruct q. reflexivity.
  - apply Forall_cons in Hall as [Hc Hall].
    cbn [Parameters.process_boolean_conditions omap list_omap]. unfold flag_clause at 1.
    destruct (present p c) as [[]|]; try contradiction.
    + destruct (_ || _).
      * rewrite IH by exact Hall. cbn. rewrite <- app_assoc. reflexivity.
      * destruct (_ || _).
        -- rewrite IH by exact Hall. cbn. rewrite <- app_assoc. reflexivity.
        -- apply IH, Hall.
    + apply IH, Hall.
Qed.

(** Each boolean flag that is given as a string contributes at most one
    clause, in the order of the flags: [true]/[1] and [false]/[0] are
    recognised (the words in any case), any other string is skipped
    without an error, and the parameters are not changed. *)
Theorem _process_boolean_filters_clauses p q :
  Forall (fun c => match present p c with Some (VStr _) | None => True | Some _ => False end)
         boolean_flags ->
  Parameters._process_boolean_filters p q
  = Ok (p, mkQuery (q_filter q ++ omap (flag_clause p) boolean_flags)%list
             (q_must_not q) (q_size q) (q_sort q) (q_aggs q)).
Proof. apply process_boolean_conditions_spec. Qed.

Lemma _process_boolean_filters_clauses_witness :
  let p : gmap string pyval :=
    <["over_18" := VStr "TRUE"]> (<["locked" := VStr "0"]> (<["spoiler" := VStr "maybe"]> ∅)) in
  Parameters._process_boolean_filters p empty_query
  = Ok (p, mkQuery (q_filter empty_query ++ omap (flag_clause p) boolean_flags)%list
             (q_must_not empty_query) (q_size empty_query) (q_sort empty_query)
             (q_aggs empty_query)) /\
  omap (flag_clause p) boolean_flags
  = [PTerm "over_18" (VStr "true"); PTerm "locked" (VStr "false")].
Proof.
  intros p. split; [|vm_compute; reflexivity].
  apply (_process_boolean_filters_clauses p empty_query).
  unfold boolean_flags. repeat (apply Forall_cons; split; [vm_compute; exact I|]).
  apply Forall_nil. constructor.
Defined.

(** The request [Fields=id&Q=cats&size=10]. *)
Lemma process_keeps_other_parameters_witness :
  let items := [("Fields", VStr "id"); ("Q", VStr "cats"); ("size", VStr "10")] in
  let p' := params_of (Parameters.process 0 items empty_query) in
  let q' := query_of (Parameters.process 0 items empty_query) in
  Parameters.process 0 items empty_query = Ok (p', q') /\
  ("fields" ∉ written_keys) /\
  p' !! "fields" = Parameters.lower_keys items !! "fields".
Proof.
  intros items p' q'.
  assert (Hk : "fields" ∉ written_keys) by (unfold written_keys; not_in_keys).
  split; [apply run_ok; vm_compute; reflexivity|]. split; [exact Hk|].
  apply (process_keeps_other_parameters 0 items empty_query p' q' "fields");
    [apply run_ok; vm_compute; reflexivity | exact Hk].
Defined.

(** The request [subreddit=Cats&sort_type=Score] on a query that already
    carries a clause. *)
Lemma process_query_shape_witness :
  let items := [("subreddit", VStr "Cats"); ("sort_type", VStr "Score")] in
  let q := add_must_not PEmpty (add_filter (PSimpleQuery (VStr "x") (Some ["body"])) empty_query) in
  let p' := params_of (Parameters.process 0 items q) in
  let q' := query_of (Parameters.process 0 items q) in
  Parameters.process 0 items q = Ok (p', q') /\
  exists added n st d,
    q_filter q' = (q_filter q ++ added)%list /\
    q_must_not q' = q_must_not q /\
    q_aggs q' = q_aggs q /\
    q_size q' = Some (VInt n) /\
    q_sort q' = <[st := VStr d]> (q_sort q) /\
    p' !! "sort_type" = Some (VStr st) /\
    (present (Parameters.lower_keys items) "sort_type" = None -> st = "created_utc").
Proof.
  intros items q p' q'.
  split; [apply run_ok; vm_compute; reflexivity|].
  apply (process_query_shape 0 items q p' q').
  apply run_ok. vm_compute. reflexivity.
Defined.

(** The request [After=2h&before=1500000000] at the clock reading 10000. *)
Lemma process_time_bounds_witness :
  let items := [("After", VStr "2h"); ("before", VStr "1500000000")] in
  let p' := params_of (Parameters.process 10000 items empty_query) in
  let q' := query_of (Parameters.process 10000 items empty_query) in
  Parameters.process 10000 items empty_query = Ok (p', q') /\
  (exists t, Parameters._parse_time_value 10000 (VStr "2h") = Ok t /\
             p' !! "after" = Some (VInt t) /\
             PRangeGt "created_utc" t ∈ q_filter q') /\
  (exists t, Parameters._parse_time_value 10000 (VStr "1500000000") = Ok t /\
             p' !! "before" = Some (VInt t) /\
             PRangeLt "created_utc" t ∈ q_filter q').
Proof.
  intros items p' q'.
  split; [apply run_ok; vm_compute; reflexivity|].
  apply (process_time_bounds 10000 items empty_query p' q').
  apply run_ok. vm_compute. reflexivity.
Defined.

(** The request [Subreddit=AskReddit]. *)
Lemma process_folds_names_witness :
  let items := [("Subreddit", VStr "AskReddit")] in
  let p' := params_of (Parameters.process 0 items empty_query) in
  let q' := query_of (Parameters.process 0 items empty_query) in
  Parameters.process 0 items empty_query = Ok (p', q') /\
  p' !! "subreddit" = Some (VList [VStr "askreddit"]) /\
  PTerms "subreddit" (VList [VStr "askreddit"]) ∈ q_filter q'.
Proof.
  intros items p' q'.
  split; [apply run_ok; vm_compute; reflexivity|].
  apply (process_folds_names 0 items empty_query p' q' "subreddit" ["AskReddit"]).
  - apply run_ok. vm_compute. reflexivity.
  - left. reflexivity.
  - right. exists "AskReddit". split; [reflexivity | vm_compute; reflexivity].
Defined.

(** The requests [Frequency=WEEK], stored as [week], and
    [frequency=Fortnight], stored as [None]. *)
Lemma process_frequency_known_witness :
  let items := [("Frequency", VStr "WEEK")] in
  let p' := params_of (Parameters.process 0 items empty_query) in
  let q' := query_of (Parameters.process 0 items empty_query) in
  Parameters.process 0 items empty_query = Ok (p', q') /\
  p' !! "frequency" = Some (VStr "week").
Proof.
  intros items p' q'.
  assert (H : Parameters.process 0 items empty_query = Ok (p', q'))
    by (apply run_ok; vm_compute; reflexivity).
  split; [exact H|].
  pose proof (process_frequency_known 0 items empty_query p' q' H) as Hf.
  change (Parameters.lower_keys items !! "frequency") with (Some (VStr "WEEK")) in Hf.
  destruct Hf as (s & Hs & Hf). injection Hs as <-. exact Hf.
Defined.

Example process_frequency_unknown :
  params_of (Parameters.process 0 [("frequency", VStr "Fortnight")] empty_query) !! "frequency"
  = Some VNone.
Proof. vm_compute. reflexivity. Qed.

(** ** Score and comment-count filters *)

Lemma startswith_char a c t : startswith (String a "") (String c t) = Ascii.eqb c a.
Proof.
  unfold startswith. simpl. destruct (ascii_dec a c) as [-> | Hne].
  - rewrite Ascii.eqb_refl. destruct t; reflexivity.
  - symmetry. apply Ascii.eqb_neq. congruence.
Qed.

Lemma process_count_filter_clause field p q s :
  present p field = Some (VStr s) ->
  Parameters.process_count_filter field p q
  = match count_clause field s with
    | Some c => Ok (p, add_filter c q)
    | None => Err ValueError
    end.
Proof.
  intros Hp. unfold Parameters.process_count_filter, count_clause. rewrite Hp.
  assert (Hplain :
    (if looks_like_int (VStr s)
     then n ← py_int (VStr s); Ok (PTerm field (VInt n))
     else Ok PEmpty)
    = Ok (match int_of_string 10 s with Some n => PTerm field (VInt n) | None => PEmpty end)).
  { unfold looks_like_int, py_int. destruct (int_of_string 10 s); reflexivity. }
  destruct s as [|c t].
  - reflexivity.
  - rewrite !startswith_char. cbn [drop_first].
    destruct (Ascii.eqb c "<").
    { unfold py_int. destruct (int_of_string 10 t); reflexivity. }
    destruct (Ascii.eqb c ">").
    { unfold py_int. destruct (int_of_string 10 t); reflexivity. }
    rewrite Hplain. reflexivity.
Qed.

Section CountFilters.

Variable now : Z.

(** A [score] or [num_comments] parameter contributes one clause to the
    filter: a range for [<N] and [>N], a term for [N], and an empty
    clause for any other text without a comparison sign; a comparison
    whose bound is not an integer makes normalisation fail. *)
Theorem process_count_clause items q field s :
  field = "score" \/ field = "num_comments" ->
  Parameters.lower_keys items !! field = Some (VStr s) ->
  (forall p' q', Parameters.process now items q = Ok (p', q') ->
     exists c, count_clause field s = Some c /\ c ∈ q_filter q') /\
  (count_clause field s = None -> exists e, Parameters.process now items q = Err e).
Proof.
  intros Hfield Hs.
  assert (Hstage : forall p1 q1 p2 q2,
    Parameters.process_conditions ["subreddit"; "author"] (Parameters.lower_keys items) q
      = Ok (p1, q1) ->
    Parameters._process_time_range now p1 q1 = Ok (p2, q2) ->
    present p2 field = Some (VStr s)).
  { intros p1 q1 p2 q2 Hc Ht. apply present_str.
    rewrite (_process_time_range_lookup _ _ _ _ _ Ht field)
      by (destruct Hfield as [-> | ->]; congruence).
    rewrite (process_conditions_lookup _ _ _ _ _ Hc field); [exact Hs|].
    destruct Hfield as [-> | ->]; not_in_keys. }
  split.
  - intros p' q' H.
    destruct (process_run _ _ _ _ _ H)
      as (p1 & q1 & p2 & q2 & q5 & st & p6 & n & p7 & d
          & Hc & Ht & _ & _ & _ & _ & _ & -> & _ & _ & _ & q3 & q4 & Hsc & Hnc & Hb).
    pose proof (Hstage _ _ _ _ Hc Ht) as Hp.
    cbn [q_filter set_sort set_size].
    apply process_boolean_conditions_appends in Hb.
    destruct Hfield as [-> | ->].
    + unfold Parameters._process_score_filter in Hsc.
      rewrite (process_count_filter_clause _ _ _ _ Hp) in Hsc.
      destruct (count_clause "score" s) as [c|]; [|discriminate].
      injection Hsc as <-. exists c. split; [reflexivity|].
      eapply appends_elem; [exact Hb|].
      eapply appends_elem; [eapply process_count_filter_appends, Hnc | apply elem_add_filter].
    + unfold Parameters._process_comment_count_filter in Hnc.
      rewrite (process_count_filter_clause _ _ _ _ Hp) in Hnc.
      destruct (count_clause "num_comments" s) as [c|]; [|discriminate].
      injection Hnc as <-. exists c. split; [reflexivity|].
      eapply appends_elem; [exact Hb | apply elem_add_filter].
  - intros Hnone. unfold Parameters.process.
    destruct (Parameters.process_conditions _ _ _) as [[p1 q1]|e] eqn:Hc; [|eexists; reflexivity].
    cbn [mbind result_bind].
    destruct (Parameters._process_time_range now p1 q1) as [[p2 q2]|e] eqn:Ht;
      [|eexists; reflexivity].
    cbn [mbind result_bind].
    pose proof (Hstage _ _ _ _ eq_refl Ht) as Hp.
    destruct Hfield as [-> | ->].
    + unfold Parameters._process_score_filter.
      rewrite (process_count_filter_clause _ _ _ _ Hp), Hnone. eexists. reflexivity.
    + destruct (Parameters._process_score_filter p2 q2) as [[p3 q3]|e] eqn:Hsc;
        [|eexists; reflexivity].
      apply process_count_filter_params in Hsc as ->.
      cbn [mbind result_bind]. unfold Parameters._process_comment_count_filter.
      rewrite (process_count_filter_clause _ _ _ _ Hp), Hnone. eexists. reflexivity.
Qed.

End CountFilters.

(** A score that [int] does not accept, here the digit 5 followed by a
    separator control, compiles to the empty clause. *)
Example count_clause_separator : count_clause "score" five_separator = Some PEmpty.
Proof. vm_compute. reflexivity. Qed.

(** The request [score=>10]. *)
Lemma process_count_clause_witness :
  let items := [("score", VStr ">10")] in
  let p' := params_of (Parameters.process 0 items empty_query) in
  let q' := query_of (Parameters.process 0 items empty_query) in
  Parameters.process 0 items empty_query = Ok (p', q') /\
  exists c, count_clause "score" ">10" = Some c /\ c ∈ q_filter q'.
Proof.
  intros items p' q'.
  split; [apply run_ok; vm_compute; reflexivity|].
  refine (proj1 (process_count_clause 0 items empty_query "score" ">10" _ _) p' q' _).
  - left. reflexivity.
  - vm_compute. reflexivity.
  - apply run_ok. vm_compute. reflexivity.
Defined.

(** ** Relative times *)

Lemma append_nil_l (s : string) : "" ++ s = s.
Proof. reflexivity. Qed.

Lemma append_cons (a : ascii) (s t : string) : String a s ++ t = String a (s ++ t).
Proof. reflexivity. Qed.

Lemma unit_seconds_char c m :
  unit_seconds c = Some m ->
  is_space c = false /\ Ascii.eqb c "_" = false /\ Ascii.eqb c "+" = false /\
  Ascii.eqb c "-" = false /\
  match digit_value c with Some d => d <? 10 | None => false end = false.
Proof.
  destruct c as [[] [] [] [] [] [] [] []]; vm_compute; intros H; try discriminate H;
    repeat split; reflexivity.
Qed.

Lemma parse_digits_bad_end base c s : forall acc us,
  Ascii.eqb c "_" = false ->
  match digit_value c with Some d => d <? base | None => false end = false ->
  parse_digits base acc us (s ++ String c "") = None.
Proof.
  intros acc us Hus Hd. revert acc us.
  induction s as [|a s IH]; intros acc us.
  - change (parse_digits base acc us (String c "") = None). cbn [parse_digits].
    rewrite Hus. destruct (digit_value c) as [d|]; [|reflexivity]. rewrite Hd. reflexivity.
  - change (parse_digits base acc us (String a (s ++ String c "")) = None). cbn [parse_digits].
    destruct (Ascii.eqb a "_"); [destruct us; [reflexivity | apply IH]|].
    destruct (digit_value a) as [d|]; [|reflexivity].
    destruct (d <? base); [apply IH | reflexivity].
Qed.

Lemma parse_unsigned_bad_end base c s :
  Ascii.eqb c "_" = false ->
  match digit_value c with Some d => d <? base | None => false end = false ->
  parse_unsigned base (s ++ String c "") = None.
Proof.
  intros Hus Hd. unfold parse_unsigned.
  destruct s as [|a s]; rewrite ?append_cons, ?append_nil_l.
  - rewrite Hus. apply (parse_digits_bad_end base c "" 0 false Hus Hd).
  - destruct (Ascii.eqb a "_"); [reflexivity|].
    apply (parse_digits_bad_end base c (String a s) 0 false Hus Hd).
Qed.

Lemma lstrip_end c s :
  is_space c = false -> exists t, lstrip (s ++ String c "") = t ++ String c "".
Proof.
  intros Hc. induction s as [|a s IH]; rewrite ?append_cons, ?append_nil_l; cbn [lstrip].
  - rewrite Hc. exists "". reflexivity.
  - destruct (is_space a); [exact IH|]. exists (String a s). reflexivity.
Qed.

Lemma rstrip_end c t : is_space c = false -> rstrip (t ++ String c "") = t ++ String c "".
Proof.
  intros Hc. induction t as [|a t IH]; rewrite ?append_cons, ?append_nil_l.
  - cbn. rewrite Hc. reflexivity.
  - rewrite rstrip_cons, IH. destruct t; reflexivity.
Qed.

Lemma int_of_string_bad_end base c s :
  is_space c = false -> Ascii.eqb c "_" = false ->
  Ascii.eqb c "+" = false -> Ascii.eqb c "-" = false ->
  match digit_value c with Some d => d <? base | None => false end = false ->
  int_of_string base (s ++ String c "") = None.
Proof.
  intros Hsp Hus Hplus Hminus Hd. unfold int_of_string, strip.
  destruct (lstrip_end c s Hsp) as [t ->]. rewrite (rstrip_end c t Hsp).
  destruct t as [|a t]; rewrite ?append_cons, ?append_nil_l.
  - pose proof (parse_unsigned_bad_end base c "" Hus Hd) as E. rewrite ?append_cons, ?append_nil_l in E.
    apply Ascii.eqb_neq in Hplus, Hminus.
    destruct c as [[] [] [] [] [] [] [] []]; try exact E; congruence.
  - pose proof (parse_unsigned_bad_end base c t Hus Hd) as E1.
    pose proof (parse_unsigned_bad_end base c (String a t) Hus Hd) as E2.
    rewrite ?append_cons, ?append_nil_l in E2.
    destruct a as [[] [] [] [] [] [] [] []]; try exact E2; rewrite E1; reflexivity.
Qed.

Lemma drop_last_end c s : drop_last (s ++ String c "") = s.
Proof.
  induction s as [|a s IH]; [reflexivity|]. rewrite ?append_cons, ?append_nil_l.
  change (drop_last (String a (s ++ String c "")))
    with (match s ++ String c "" with
          | EmptyString => EmptyString
          | _ => String a (drop_last (s ++ String c ""))
          end).
  rewrite IH. destruct s; reflexivity.
Qed.

Lemma last_char_end c s : last_char (s ++ String c "") = Some c.
Proof.
  induction s as [|a s IH]; [reflexivity|]. rewrite ?append_cons, ?append_nil_l.
  change (last_char (String a (s ++ String c "")))
    with (match s ++ String c "" with
          | EmptyString => Some a
          | _ => last_char (s ++ String c "")
          end).
  rewrite IH. destruct s; reflexivity.
Qed.

Lemma int_of_string_nonempty base s n : int_of_string base s = Some n -> s <> "".
Proof. intros H ->. discriminate H. Qed.

(** An integer followed by a unit letter, in either case, denotes the
    clock reading minus that many units; a negative integer therefore
    denotes a time after the clock reading. *)
Theorem _parse_time_value_relative now s n c m :
  int_of_string 10 s = Some n ->
  unit_seconds c = Some m ->
  Parameters._parse_time_value now (VStr (s ++ String c "")) = Ok (now - n * m).
Proof.
  intros Hn Hm.
  destruct (unit_seconds_char c m Hm) as (Hsp & Hus & Hplus & Hminus & Hd).
  pose proof (int_of_string_bad_end 10 c s Hsp Hus Hplus Hminus Hd) as Hbad.
  pose proof (int_of_string_nonempty _ _ _ Hn) as Hne.
  unfold Parameters._parse_time_value, looks_like_int, py_int. rewrite Hbad.
  assert (Hlen : negb (py_truthy (VStr (s ++ String c ""))) ||
                 (Z.of_nat (String.length (s ++ String c "")) <? 2) = false).
  { destruct s as [|a s]; [congruence|].
    rewrite ?append_cons, ?append_nil_l; cbn [py_truthy String.eqb negb orb].
    apply Z.ltb_ge. cbn [String.length].
    destruct s; rewrite ?append_cons, ?append_nil_l; cbn [String.length]; lia. }
  rewrite Hlen, last_char_end, drop_last_end, Hn.
  unfold unit_seconds in Hm. cbn zeta in Hm.
  destruct (Ascii.eqb (lower_char c) "d"); [injection Hm as <-; reflexivity|].
  destruct (Ascii.eqb (lower_char c) "h"); [injection Hm as <-; reflexivity|].
  destruct (Ascii.eqb (lower_char c) "m"); [injection Hm as <-; reflexivity|].
  destruct (Ascii.eqb (lower_char c) "s"); [injection Hm as <-|discriminate].
  rewrite Z.mul_1_r. reflexivity.
Qed.

(** [-2H]: two hours after the clock reading. *)
Lemma _parse_time_value_relative_witness :
  Parameters._parse_time_value 10000 (VStr "-2H") = Ok (10000 - (-2) * 3600).
Proof.
  apply (_parse_time_value_relative 10000 "-2" (-2) "H" 3600); reflexivity.
Defined.

(** [int] does not accept the digit 5 followed by a separator control, so
    with a unit after it the text is no relative time. *)
Example _parse_time_value_separator :
  Parameters._parse_time_value 1000 (VStr (five_separator ++ "d")) = Err ValueError.
Proof. vm_compute. reflexivity. Qed.

(** ** Requests sent by the executor and by the submission lookup *)

(** When the primary endpoint answers without an error status, both
    executors return its response after that single request: the fallback
    endpoint is not contacted. *)
Theorem execute_search_answers_once net es_fallback uri q tr :
  let primary := mkRequest uri (SearchBody q) 30 in
  failed (net tr primary) = false ->
  exists resp,
    net tr primary = Responded resp /\
    Comment._execute_search net es_fallback uri q tr = (Ok resp, tr ++ [primary])%list /\
    Submission._execute_search net es_fallback uri q tr = (Ok resp, tr ++ [primary])%list.
Proof.
  intros primary H.
  destruct (execute_search_primary net es_fallback Comment.es_index uri q tr H)
    as (resp & Hr & Hc).
  destruct (execute_search_primary net es_fallback Submission.es_index uri q tr H)
    as (resp' & Hr' & Hs).
  fold primary in Hr, Hr'. rewrite Hr in Hr'. injection Hr' as <-.
  exists resp. split; [exact Hr|]. split; [exact Hc | exact Hs].
Qed.

(** A network on which every request is answered with status 200. *)
Lemma execute_search_answers_once_witness :
  let resp := mkResponse 200 (Ok VNone) in
  let net := fun (_ : list request) (_ : request) => Responded resp in
  let primary := mkRequest "http://mars:9200/rc/comments/_search" (SearchBody empty_query) 30 in
  exists resp,
    net [] primary = Responded resp /\
    Comment._execute_search net "http://jupiter:9200" "http://mars:9200/rc/comments/_search"
      empty_query [] = (Ok resp, [primary]) /\
    Submission._execute_search net "http://jupiter:9200" "http://mars:9200/rc/comments/_search"
      empty_query [] = (Ok resp, [primary]).
Proof.
  intros resp net primary.
  apply (execute_search_answers_once net "http://jupiter:9200"
           "http://mars:9200/rc/comments/_search" empty_query []).
  reflexivity.
Defined.

Section LookupRequests.

Variable net : list request -> request -> outcome.
Variables es_primary es_fallback : string.

(** The submission lookup sends nothing when an identifier cannot be
    converted; otherwise it sends one request to the primary endpoint and,
    only when that one fails, one more to the fallback endpoint, with the
    same document of size 1000 and the timeout 30. When both fail the
    result is the empty dictionary, not an error. *)
Theorem get_submissions_from_es_requests ids tr :
  match traverse (fun id => match id with VStr _ => n ← py_int id; Ok (VInt n) | _ => Ok id end)
          ids with
  | Err e => get_submissions_from_es net es_primary es_fallback (VList ids) tr = (Err e, tr)
  | Ok int_ids =>
      let q := TermsIdBody int_ids 1000 in
      let first := mkRequest (es_primary ++ "/rs/submissions/_search") q 30 in
      let second := mkRequest (es_fallback ++ "/rs/submissions/_search") q 30 in
      exists r,
        get_submissions_from_es net es_primary es_fallback (VList ids) tr
        = (r, tr ++ (if failed (net tr first) then [first; second] else [first]))%list /\
        (failed (net tr first) = true -> failed (net (tr ++ [first])%list second) = true ->
         r = Ok [])
  end.
Proof.
  destruct (traverse _ ids) as [int_ids|e] eqn:Hids;
    unfold get_submissions_from_es; rewrite Hids; [|reflexivity].
  cbv zeta.
  unfold mbind at 1. unfold net_bind at 1. unfold lift at 1.
  unfold mbind at 1. unfold net_bind at 1.
  unfold except_RequestException.
  unfold requests_get, raise_for_status, failed, mbind, net_bind, lift, mret, net_ret.
  destruct (net tr _) as [|r1].
  - destruct (net (tr ++ _)%list _) as [|r2].
    + rewrite <- app_assoc. eexists. split; [reflexivity|]. reflexivity.
    + destruct ((400 <=? resp_status r2) && (resp_status r2 <? 600)) eqn:H2.
      * rewrite <- app_assoc. eexists. split; [reflexivity|]. reflexivity.
      * rewrite <- app_assoc. eexists. split; [reflexivity|]. discriminate.
  - destruct ((400 <=? resp_status r1) && (resp_status r1 <? 600)) eqn:H1.
    + destruct (net (tr ++ _)%list _) as [|r2].
      * rewrite <- app_assoc. eexists. split; [reflexivity|]. reflexivity.
      * destruct ((400 <=? resp_status r2) && (resp_status r2 <? 600)) eqn:H2.
        -- rewrite <- app_assoc. eexists. split; [reflexivity|]. reflexivity.
        -- rewrite <- app_assoc. eexists. split; [reflexivity|]. discriminate.
    + eexists. split; [reflexivity|]. discriminate.
Qed.

End LookupRequests.

(** ** Identifiers accepted by the [ids] parameter *)

(** The identifiers the interface emits are accepted back by the [ids]
    parameter of comment search: bare, with the prefix [t1_], and with the
    prefix in upper case, each decodes to the number it encodes. *)
Theorem decode_comment_id_accepts_emitted n :
  exists s, base36encode n = Ok s /\
            Comment.decode_comment_id (VStr s) = Ok n /\
            Comment.decode_comment_id (VStr ("t1_" ++ s)) = Ok n /\
            Comment.decode_comment_id (VStr ("T1_" ++ s)) = Ok n.
Proof.
  destruct (base36encode_total n) as (s & Hs & Hd & Hl & Hp).
  exists s. split; [exact Hs|].
  assert (Hsub : String.substring 3 (String.length ("t1_" ++ s) - 3) ("t1_" ++ s) = s).
  { change ("t1_" ++ s) with (String "t" (String "1" (String "_" s))).
    cbn [String.length]. replace (S (S (S (String.length s))) - 3)%nat with (String.length s) by lia.
    cbn [String.substring]. apply substring_all. }
  assert (Hpre : startswith "t1_" ("t1_" ++ s) = true).
  { unfold startswith. change ("t1_" ++ s) with (String "t" (String "1" (String "_" s))).
    cbn. destruct s; reflexivity. }
  unfold Comment.decode_comment_id, py_lower. cbn [mbind result_bind].
  split; [|split].
  - rewrite Hl, (Hp "t" "1")%char. exact Hd.
  - change (lower ("t1_" ++ s)) with ("t1_" ++ lower s). rewrite Hl, Hpre, Hsub. exact Hd.
  - change (lower ("T1_" ++ s)) with ("t1_" ++ lower s). rewrite Hl, Hpre, Hsub. exact Hd.
Qed.

(** ** The time histogram *)

Lemma Qtrunc_Qeq (a b : Q) : Qeq a b -> Qtrunc a = Qtrunc b.
Proof.
  unfold Qeq, Qtrunc. destruct a as [n1 d1], b as [n2 d2]. cbn [Qnum Qden]. intros H.
  rewrite <- (Z.quot_mul_cancel_r n1 (Z.pos d1) (Z.pos d2)) by lia.
  rewrite <- (Z.quot_mul_cancel_r n2 (Z.pos d2) (Z.pos d1)) by lia.
  rewrite H. f_equal. lia.
Qed.

(** Rounding to the nearest integer stays between the integers around. *)
Lemma round_half_even_lower n d a : a <= n / Z.pos d -> a <= round_half_even (n # d).
Proof.
  intros H. unfold round_half_even. cbn [Qnum Qden].
  destruct (_ <? _); [lia|]. destruct (_ <? _); [lia|]. destruct (Z.even _); lia.
Qed.

Lemma round_half_even_upper n d b :
  2 * n < (2 * b - 1) * Z.pos d -> round_half_even (n # d) < b.
Proof.
  intros H. unfold round_half_even. cbn [Qnum Qden].
  pose proof (Z.div_mod n (Z.pos d) ltac:(lia)) as E.
  pose proof (Z.mod_pos_bound n (Z.pos d) ltac:(lia)) as B.
  assert (Hf : n / Z.pos d < b) by nia.
  destruct (Z.ltb_spec (2 * (n mod Z.pos d)) (Z.pos d)); [exact Hf|].
  assert (n / Z.pos d + 1 < b) by nia.
  destruct (_ <? _); [lia|]. destruct (Z.even _); lia.
Qed.

(** A number of seconds below [2 ^ 44] has the last bit of its double at
    [2 ^ -9] or below. *)
Lemma binade_milliseconds a :
  0 <= a < 1000 * 2 ^ 44 -> binade (a # 1000) <= 43.
Proof.
  intros Ha. unfold binade. cbn [Qnum Qden]. change (Z.log2 (Z.pos 1000)) with 9.
  assert (HL : Z.log2 a <= 53).
  { destruct (Z.eq_dec a 0) as [->|]; [cbn; lia|].
    enough (Z.log2 a < 54) by lia. apply Z.log2_lt_pow2; lia. }
  destruct (Z.eq_dec (Z.log2 a) 53) as [E|NE].
  - rewrite E.
    replace (2 ^ Z.max 0 (- (53 - 9))) with 1 by reflexivity.
    replace (Z.max 0 (53 - 9)) with 44 by reflexivity.
    destruct (Z.ltb_spec (a * 1) (1000 * 2 ^ 44)); lia.
  - destruct (_ <? _); lia.
Qed.

(** Below [1000 * 2 ^ 44] milliseconds the double nearest to the number of
    seconds lies in the same second: a second is 1000 milliseconds, and
    the double is off by at most [2 ^ -10], less than one millisecond. *)
Lemma nearest_double_milliseconds ms :
  Z.abs ms < 1000 * 2 ^ 44 ->
  exists q, nearest_double (Qdiv (inject_Z ms) (inject_Z 1000)) = Some q /\
            Qtrunc q = Z.quot ms 1000.
Proof.
  intros Hms.
  change (Qdiv (inject_Z ms) (inject_Z 1000)) with (Qmake (ms * 1) (1 * 1000)).
  rewrite Z.mul_1_r. change (1 * 1000)%positive with 1000%positive.
  unfold nearest_double. cbn [Qnum Qden].
  set (a := Z.abs ms) in *.
  pose proof (binade_milliseconds a ltac:(lia)) as Hb.
  set (u := Z.max (binade (a # 1000) - 52) (-1074)).
  assert (Hu : -1074 <= u <= -9) by lia.
  assert (Hp : Qpow2 (- u) = inject_Z (2 ^ (- u))).
  { unfold Qpow2. destruct (Z.leb_spec 0 (- u)); [reflexivity | lia]. }
  assert (Hp' : Qpow2 u = Qmake 1 (Z.to_pos (2 ^ (- u)))).
  { unfold Qpow2. destruct (Z.leb_spec 0 u); [lia | reflexivity]. }
  rewrite Hp, Hp'. unfold Qmult, inject_Z. cbn [Qnum Qden].
  change (1000 * 1)%positive with 1000%positive.
  set (P := 2 ^ (- u)).
  assert (HP : 512 <= P).
  { change 512 with (2 ^ 9). apply Z.pow_le_mono_r; lia. }
  set (k := a / 1000).
  pose proof (Z.div_mod a 1000 ltac:(lia)) as E. fold k in E.
  pose proof (Z.mod_pos_bound a 1000 ltac:(lia)) as B.
  set (m := round_half_even (a * P # 1000)).
  assert (Hlo : k * P <= m).
  { apply round_half_even_lower. apply Z.div_le_lower_bound; nia. }
  assert (Hhi : m < (k + 1) * P).
  { apply round_half_even_upper. nia. }
  assert (Hk : 0 <= k < 2 ^ 44).
  { split; [apply Z.div_pos; lia|]. apply Z.div_lt_upper_bound; lia. }
  assert (Hq : m / P = k).
  { symmetry. apply (Z.div_unique m P k (m - k * P)); lia. }
  assert (Hov : (1024 <=? u + Z.log2 m) = false).
  { apply Z.leb_gt. destruct (Z.eq_dec m 0) as [->|]; [cbn; lia|].
    enough (Z.log2 m < 44 - u) by lia. apply Z.log2_lt_pow2; [nia|].
    replace (44 - u) with (44 + - u) by lia. rewrite Z.pow_add_r by lia. fold P. nia. }
  rewrite Hov. eexists. split; [reflexivity|].
  rewrite (Qtrunc_Qeq _ _ (Qred_correct _)).
  unfold Qtrunc. cbn [Qnum Qden]. rewrite Z.mul_1_r, Pos.mul_1_l.
  rewrite Z2Pos.id by lia.
  assert (Hm : 0 <= m) by nia.
  destruct (Z.sgn_spec ms) as [[Hs ->]|[[Hs ->]|[Hs ->]]].
  - rewrite Z.mul_1_l, Z.quot_div_nonneg by lia. rewrite Hq.
    rewrite Z.quot_div_nonneg by lia. unfold k, a. rewrite Z.abs_eq by lia. reflexivity.
  - rewrite <- Hs, Z.mul_0_l, Z.quot_0_l by lia. reflexivity.
  - replace (-1 * m) with (- m) by lia. rewrite Z.quot_opp_l by lia.
    rewrite Z.quot_div_nonneg by lia. rewrite Hq.
    replace ms with (- a) by lia. rewrite Z.quot_opp_l by lia.
    rewrite Z.quot_div_nonneg by lia. reflexivity.
Qed.

(** A histogram bucket keyed by an integer number of milliseconds below
    [1000 * 2 ^ 44] in absolute value (the year 559444) is re-keyed by
    whole seconds, rounded toward zero, and loses its [key_as_string].
    The bound is the least one: the key is divided as a float, and from
    [1000 * 2 ^ 44 + 999] milliseconds on the double nearest to the
    quotient can be the next second. *)
Theorem created_utc_bucket_seconds (m : gmap string pyval) ms :
  m !! "key" = Some (VInt ms) ->
  Z.abs ms < 1000 * 2 ^ 44 ->
  created_utc_bucket (VDict m)
  = Ok (VDict (<["key" := VInt (Z.quot ms 1000)]> (delete "key_as_string" m))).
Proof.
  intros Hk Hms. unfold created_utc_bucket. cbn [py_pop mbind result_bind py_getitem].
  unfold getitem. rewrite lookup_delete_ne by congruence. rewrite Hk.
  cbn [mbind result_bind]. unfold py_truediv. cbn [py_number is_float orb].
  change (Qeq_bool (inject_Z 1000) (inject_Z 0)) with false.
  destruct (nearest_double_milliseconds ms Hms) as (q & -> & <-).
  reflexivity.
Qed.

(** The bucket of 1.5 seconds before the epoch. *)
Lemma created_utc_bucket_seconds_witness :
  let m : gmap string pyval :=
    <["key" := VInt (-1500)]> (<["key_as_string" := VStr "1969-12-31"]> ∅) in
  m !! "key" = Some (VInt (-1500)) /\
  Z.abs (-1500) < 1000 * 2 ^ 44 /\
  created_utc_bucket (VDict m)
  = Ok (VDict (<["key" := VInt (-1)]> (delete "key_as_string" m))).
Proof.
  intros m. split; [reflexivity|]. split; [reflexivity|].
  apply (created_utc_bucket_seconds m (-1500)); reflexivity.
Defined.

(** Beyond the bound the key can come out one second late: the double
    nearest to 19999999999999.999 is 20000000000000. *)
Example created_utc_bucket_late :
  created_utc_bucket (VDict (<["key" := VInt 19999999999999999]> ∅))
  = Ok (VDict (<["key" := VInt 20000000000000]> ∅)).
Proof. vm_compute. reflexivity. Qed.

Example created_utc_bucket_least_late :
  created_utc_bucket (VDict (<["key" := VInt (1000 * 2 ^ 44 + 999)]> ∅))
  = Ok (VDict (<["key" := VInt (2 ^ 44 + 1)]> ∅)).
Proof. vm_compute. reflexivity. Qed.

(** ** Field projection *)

Lemma traverse_py_lower_fixed fs :
  Forall (fun f => lower f = f) fs -> traverse py_lower (VStr <$> fs) = Ok fs.
Proof.
  intros H. rewrite traverse_py_lower. f_equal.
  induction H as [|f fs Hf _ IH]; [reflexivity|]. cbn. rewrite Hf. f_equal. exact IH.
Qed.

Lemma traverse_py_lower_lowered l fs :
  traverse py_lower l = Ok fs -> Forall (fun f => lower f = f) fs.
Proof.
  revert fs. induction l as [|x l IH]; intros fs H; simpl in H.
  - injection H as <-. constructor.
  - inv_bind H as f Hf. inv_bind H as fs' Hfs. injection H as <-.
    apply py_lower_Ok in Hf as (t & _ & ->). constructor; [apply lower_idem | apply IH, Hfs].
Qed.

(** With a [fields] parameter, a record keeps exactly the entries whose
    lower-cased name is among the requested fields in lower case: the
    requested string itself, or the strings of the requested list. The
    parameter is left as the list of these lower-cased fields, on which a
    further call projects by the same fields and changes nothing more.
    Without the parameter nothing changes. *)
Theorem _apply_field_filter_projects params (m : gmap string pyval) params' source' :
  _apply_field_filter params (VDict m) = Ok (params', source') ->
  match present params "fields" with
  | None => params' = params /\ source' = VDict m
  | Some v =>
      exists fs (m' : gmap string pyval),
        field_names v = Ok fs /\
        (forall s, v = VStr s -> fs = [lower s]) /\
        (forall ss, v = VList (VStr <$> ss) -> fs = lower <$> ss) /\
        source' = VDict m' /\
        params' = <["fields" := VList (VStr <$> fs)]> params /\
        (forall k, m' !! k = if bool_decide (lower k ∈ fs) then m !! k else None) /\
        (forall m2 : gmap string pyval,
           _apply_field_filter params' (VDict m2)
           = Ok (params', VDict (filter (fun kv => lower (fst kv) ∈ fs) m2)))
  end.
Proof.
  unfold _apply_field_filter at 1. intros H.
  destruct (present params "fields") as [v|] eqn:Hv.
  - inv_bind H as l Hl. inv_bind H as fs Hfs. injection H as <- <-.
    exists fs, (filter (fun kv => lower (fst kv) ∈ fs) m).
    split; [unfold field_names; rewrite Hl; exact Hfs|].
    split.
    { intros s ->. injection Hl as <-. cbn in Hfs. injection Hfs as <-. reflexivity. }
    split.
    { intros ss ->. cbn in Hl. injection Hl as <-. rewrite traverse_py_lower in Hfs.
      injection Hfs as <-. reflexivity. }
    split; [reflexivity|]. split; [reflexivity|]. split.
    + intros k. rewrite map_lookup_filter.
      destruct (m !! k) as [x|]; cbn; [|destruct (bool_decide _); reflexivity].
      destruct (decide (lower k ∈ fs)) as [Hin|Hin].
      * rewrite bool_decide_eq_true_2 by exact Hin. rewrite option_guard_True by exact Hin.
        reflexivity.
      * rewrite bool_decide_eq_false_2 by exact Hin. rewrite option_guard_False by exact Hin.
        reflexivity.
    + intros m2. unfold _apply_field_filter, present. rewrite lookup_insert_eq.
      cbn [py_iter mbind result_bind].
      rewrite (traverse_py_lower_fixed fs (traverse_py_lower_lowered _ _ Hfs)).
      cbn [mbind result_bind]. rewrite insert_insert_eq. reflexivity.
  - injection H as <- <-. split; reflexivity.
Qed.

(** The request [fields=ID,Author] on a record with three entries. *)
Lemma _apply_field_filter_projects_witness :
  let params : gmap string pyval := <["fields" := VList [VStr "ID"; VStr "Author"]]> ∅ in
  let m : gmap string pyval :=
    <["id" := VStr "a"]> (<["Author" := VStr "b"]> (<["body" := VStr "c"]> ∅)) in
  let r := _apply_field_filter params (VDict m) in
  exists m' : gmap string pyval,
    record_of r = VDict m' /\
    (forall k, m' !! k = if bool_decide (lower k ∈ ["id"; "author"]) then m !! k else None).
Proof.
  intros params m r.
  assert (Hr : r = Ok (<["fields" := VList [VStr "id"; VStr "author"]]> params, record_of r)).
  { vm_compute. reflexivity. }
  pose proof (_apply_field_filter_projects params m _ _ Hr) as H.
  change (present params "fields") with (Some (VList [VStr "ID"; VStr "Author"])) in H.
  destruct H as (fs & m' & _ & _ & Hfs & Hm' & _ & Hk & _).
  rewrite (Hfs ["ID"; "Author"] eq_refl) in Hk.
  exists m'. split; [exact Hm' | exact Hk].
Defined.

(** ** Requests a comment search can cause *)

Section Sends.

Variable P : request -> Prop.

Lemma sends_lift {A} (r : result A) k : sends k P (lift r).
Proof. intros tr. exists []. rewrite app_nil_r. repeat split; [simpl; lia | constructor]. Qed.

Lemma sends_mret {A} (a : A) k : sends k P (mret a : Net A).
Proof. intros tr. exists []. rewrite app_nil_r. repeat split; [simpl; lia | constructor]. Qed.

Lemma sends_bind {A B} (c : Net A) (f : A -> Net B) k1 k2 :
  sends k1 P c -> (forall a, sends k2 P (f a)) -> sends (k1 + k2) P (c ≫= f).
Proof.
  intros Hc Hf tr. destruct (Hc tr) as (s1 & E1 & L1 & F1).
  unfold mbind, net_bind. destruct (c tr) as [[a|e] tr1]; cbn [snd] in E1; subst tr1.
  - destruct (Hf a (tr ++ s1)%list) as (s2 & E2 & L2 & F2).
    exists (s1 ++ s2)%list. rewrite E2, app_assoc. split; [reflexivity|].
    split; [rewrite length_app; lia | apply Forall_app; split; assumption].
  - exists s1. split; [reflexivity|]. split; [lia | exact F1].
Qed.

Lemma sends_bind_lift {A B} (r : result A) (f : A -> Net B) k :
  (forall a, sends k P (f a)) -> sends k P (lift r ≫= f).
Proof. intros Hf. apply (sends_bind (lift r) f 0 k); [apply sends_lift | exact Hf]. Qed.

Lemma sends_attempt net url doc :
  P (mkRequest url doc 30) ->
  sends 1 P (resp ← requests_get net url doc 30; _ ← raise_for_status resp; mret resp).
Proof.
  intros HP tr. exists [mkRequest url doc 30].
  unfold requests_get, raise_for_status, mbind, net_bind, lift, mret, net_ret.
  split; [|split; [simpl; lia | repeat constructor; exact HP]].
  destruct (net tr _) as [|resp]; [reflexivity|]. destruct (_ && _); reflexivity.
Qed.

Lemma sends_except {A} (c h : Net A) k1 k2 :
  sends k1 P c -> sends k2 P h -> sends (k1 + k2) P (except_RequestException c h).
Proof.
  intros Hc Hh tr. destruct (Hc tr) as (s1 & E1 & L1 & F1).
  unfold except_RequestException.
  destruct (c tr) as [[a|e] tr1]; cbn [snd] in E1; subst tr1.
  - exists s1. split; [reflexivity|]. split; [lia | exact F1].
  - assert (Hplain : exists sent, (tr ++ s1)%list = (tr ++ sent)%list /\
                                  (length sent <= k1 + k2)%nat /\ Forall P sent)
      by (exists s1; split; [reflexivity|]; split; [lia | exact F1]).
    destruct e; try exact Hplain.
    destruct (Hh (tr ++ s1)%list) as (s2 & E2 & L2 & F2).
    exists (s1 ++ s2)%list. rewrite E2, app_assoc. split; [reflexivity|].
    split; [rewrite length_app; lia | apply Forall_app; split; assumption].
Qed.

Lemma sends_execute_search net es_fallback es_index uri q :
  P (mkRequest uri (SearchBody q) 30) ->
  P (mkRequest (es_fallback ++ es_index) (SearchBody q) 30) ->
  sends 2 P (execute_search net es_fallback es_index uri q).
Proof.
  intros H1 H2. unfold execute_search.
  apply (sends_except _ _ 1 1); [apply sends_attempt, H1|].
  apply (sends_except _ _ 1 0); [apply sends_attempt, H2 | apply sends_lift].
Qed.

Lemma sends_get_submissions net es_primary es_fallback ids :
  (forall doc, P (mkRequest (es_primary ++ "/rs/submissions/_search") doc 30)) ->
  (forall doc, P (mkRequest (es_fallback ++ "/rs/submissions/_search") doc 30)) ->
  sends 2 P (get_submissions_from_es net es_primary es_fallback ids).
Proof.
  intros H1 H2. unfold get_submissions_from_es.
  apply sends_bind_lift. intros int_ids.
  apply (sends_bind _ _ 2 0).
  - apply (sends_except _ _ 1 1).
    + apply (sends_bind _ _ 1 0); [|intros resp].
      * intros tr. exists [mkRequest (es_primary ++ "/rs/submissions/_search")
                             (TermsIdBody int_ids 1000) 30].
        unfold requests_get. split; [|split; [simpl; lia | repeat constructor; apply H1]].
        destruct (net tr _); reflexivity.
      * apply (sends_bind _ _ 0 0); [|intros; apply sends_mret].
        unfold raise_for_status. destruct (_ && _); apply sends_lift.
    + apply (sends_except _ _ 1 0); [|apply sends_mret].
      apply (sends_bind _ _ 1 0); [|intros resp].
      * intros tr. exists [mkRequest (es_fallback ++ "/rs/submissions/_search")
                             (TermsIdBody int_ids 1000) 30].
        unfold requests_get. split; [|split; [simpl; lia | repeat constructor; apply H2]].
        destruct (net tr _); reflexivity.
      * apply (sends_bind _ _ 0 0); [|intros; apply sends_mret].
        unfold raise_for_status. destruct (_ && _); apply sends_lift.
  - intros [response|]; [apply sends_lift | apply sends_mret].
Qed.

End Sends.

Section CommentRequests.

Variable net : list request -> request -> outcome.
Variables es_primary es_fallback : string.
Variable now : Z.
Variable pgdb_execute : string -> list Z -> result (list (list pyval)).
Variable html_unescape : string -> string.
Variable py_repr : pyval -> string.
Variable execution_time : Q.

Lemma backend_request_at (i : nat) url doc :
  [es_primary ++ Comment.es_index; es_fallback ++ Comment.es_index;
   es_primary ++ "/rs/submissions/_search";
   es_fallback ++ "/rs/submissions/_search"] !! i = Some url ->
  backend_request es_primary es_fallback (mkRequest url doc 30).
Proof.
  intros H. split; [reflexivity|]. cbn [req_url]. eapply list_elem_of_lookup_2, H.
Qed.

Lemma sends_search items :
  sends 2 (backend_request es_primary es_fallback)
    (Comment.search net es_fallback now items (es_primary ++ Comment.es_index)).
Proof.
  unfold Comment.search.
  apply sends_bind_lift. intros [params q].
  apply sends_bind_lift. intros [params' q'].
  apply (sends_bind (backend_request es_primary es_fallback) _ _ 2 0).
  - apply sends_execute_search;
      [apply (backend_request_at 0) | apply (backend_request_at 1)]; reflexivity.
  - intros response. apply sends_bind_lift. intros data. apply sends_bind_lift. intros size.
    apply sends_bind_lift. intros sort. apply sends_bind_lift. intros sort_type.
    apply sends_mret.
Qed.

Lemma sends__process_aggregations params aggregations :
  sends 2 (backend_request es_primary es_fallback)
    (Comment._process_aggregations net es_primary es_fallback py_repr params aggregations).
Proof.
  unfold Comment._process_aggregations.
  apply sends_bind_lift. intros aggs1. apply sends_bind_lift. intros aggs2.
  apply sends_bind_lift. intros aggs3. apply sends_bind_lift. intros has.
  destruct has; [|apply sends_mret].
  apply sends_bind_lift. intros buckets. apply sends_bind_lift. intros scored.
  apply (sends_bind (backend_request es_primary es_fallback) _ _ 2 0).
  - apply sends_get_submissions; intros doc;
      [apply (backend_request_at 2) | apply (backend_request_at 3)]; reflexivity.
  - intros sd. apply sends_bind_lift. intros after. apply sends_bind_lift. intros newlist.
    apply sends_mret.
Qed.

Lemma sends_do_elasticsearch items :
  sends 4 (backend_request es_primary es_fallback)
    (Comment.do_elasticsearch net es_primary es_fallback now html_unescape py_repr items).
Proof.
  unfold Comment.do_elasticsearch.
  apply (sends_bind (backend_request es_primary es_fallback) _ _ 2 2); [apply sends_search|].
  intros [[params data] metadata].
  apply sends_bind_lift. intros hits.
  apply sends_bind_lift. intros [params' results].
  apply sends_bind_lift. intros has_aggs.
  apply (sends_bind (backend_request es_primary es_fallback) _ _ 2 0).
  - destruct has_aggs; [|apply sends_mret].
    apply sends_bind_lift. intros aggregations.
    apply (sends_bind (backend_request es_primary es_fallback) _ _ 2 0);
      [apply sends__process_aggregations|].
    intros aggs. apply sends_mret.
  - intros aggs. apply sends_bind_lift. intros timed_out. apply sends_bind_lift. intros total.
    apply sends_bind_lift. intros shards. apply sends_mret.
Qed.

(** Whatever the request and the backends, a comment request causes at
    most four backend requests (two for the search, two for the
    submission lookup), each with the timeout 30 and to one of the four
    URLs; a request with [ids] causes none. *)
Theorem on_get_requests items tr :
  exists sent,
    snd (Comment.on_get net es_primary es_fallback now pgdb_execute html_unescape py_repr
           execution_time items tr) = (tr ++ sent)%list /\
    (length sent <= 4)%nat /\
    Forall (backend_request es_primary es_fallback) sent /\
    (is_Some (raw_params items !! "ids") -> sent = []).
Proof.
  unfold Comment.on_get.
  destruct (raw_params items !! "ids") as [ids|] eqn:Hids.
  - exists []. rewrite app_nil_r. unfold lift, mbind, net_bind, mret, net_ret.
    destruct (Comment.get_ids pgdb_execute ids);
      (split; [reflexivity|]); (split; [simpl; lia|]); (split; [constructor | reflexivity]).
  - match goal with
    | |- context [match ?c tr with _ => _ end] =>
        assert (Hs : sends 4 (backend_request es_primary es_fallback) c)
    end.
    { apply (sends_bind (backend_request es_primary es_fallback) _ _ 4 0); [apply sends_do_elasticsearch|].
      intros data. apply sends_mret. }
    destruct (Hs tr) as (sent & E & L & F). exists sent.
    match goal with
    | |- context [match ?c tr with _ => _ end] => destruct (c tr) as [[env|e] tr1]
    end; cbn [snd] in E |- *;
      (split; [exact E|]); (split; [exact L|]); (split; [exact F|]);
      intros [? Hx]; discriminate Hx.
Qed.

End CommentRequests.

Lemma reply_ok (r : reply * list request) :
  reply_error (fst r) = None -> r = (Reply200 (reply_body (fst r)), snd r).
Proof. destruct r as [[body|e] tr]; [reflexivity | discriminate]. Qed.

(** ** The envelope of a comment reply *)

Section CommentEnvelope.

Variable net : list request -> request -> outcome.
Variables es_primary es_fallback : string.
Variable now : Z.
Variable pgdb_execute : string -> list Z -> result (list (list pyval)).
Variable html_unescape : string -> string.
Variable py_repr : pyval -> string.
Variable execution_time : Q.

Lemma do_elasticsearch_hits_length hits : forall p p' results,
  Comment.do_elasticsearch_hits html_unescape p hits = Ok (p', results) ->
  length results = length hits.
Proof.
  induction hits as [|hit rest IH]; intros p p' results H; simpl in H.
  - injection H as _ <-. reflexivity.
  - inv_bind H as ps Hhit. destruct ps as [p1 source].
    inv_bind H as pr Hrest. destruct pr as [p2 results'].
    injection H as _ <-. simpl. f_equal. apply (IH _ _ _ Hrest).
Qed.

(** What [search] returns: the normalised parameters up to the
    aggregation step, and the metadata read off them. *)
Lemma search_metadata items uri tr params data metadata tr' :
  Comment.search net es_fallback now items uri tr = (Ok (params, data, metadata), tr') ->
  exists q0 p q,
    Parameters.process now items q0 = Ok (p, q) /\
    (forall k, k <> "frequency" -> k <> "aggs" -> params !! k = p !! k) /\
    metadata !! "size" = p !! "size" /\
    metadata !! "sort" = p !! "sort" /\
    metadata !! "sort_type" = p !! "sort_type" /\
    metadata !! "after" = present p "after" /\
    metadata !! "results_returned" = None /\
    metadata !! "version" = None.
Proof.
  unfold Comment.search. intros H.
  inv_lift H as pq Hproc. destruct pq as [p1 q1].
  inv_lift H as pq2 Hadd. destruct pq2 as [p2 q2].
  inv_net H as response tr4 Hexec.
  inv_lift H as data' Hdata. inv_lift H as size Hsize.
  inv_lift H as sort Hsort. inv_lift H as sort_type Hst.
  unfold mret, net_ret in H. injection H as <- <- <- <-.
  pose proof (add_aggregations_lookup _ _ _ _ _ Hadd) as Hk.
  eexists _, p1, q1. split; [exact Hproc|]. split; [exact Hk|].
  unfold getitem in Hsize, Hsort, Hst.
  assert (Ea : present p2 "after" = present p1 "after")
    by (apply present_ext, Hk; congruence).
  rewrite <- (Hk "size"), <- (Hk "sort"), <- (Hk "sort_type"), <- Ea by congruence.
  destruct (p2 !! "size") as [v1|]; [|discriminate]. injection Hsize as <-.
  destruct (p2 !! "sort") as [v2|]; [|discriminate]. injection Hsort as <-.
  destruct (p2 !! "sort_type") as [v3|]; [|discriminate]. injection Hst as <-.
  destruct (present p2 "after") as [a|].
  - rewrite !(lookup_insert_ne _ "after") by congruence.
    rewrite lookup_insert_eq.
    repeat split;
      repeat first [ rewrite lookup_insert_eq; reflexivity
                   | rewrite lookup_insert_ne by congruence
                   | apply lookup_empty ].
  - repeat split;
      repeat first [ rewrite lookup_insert_eq; reflexivity
                   | rewrite lookup_insert_ne by congruence
                   | apply lookup_empty ].
Qed.

(** A reply with status 200 carries the version and the measured time.
    For a request with [ids] it holds nothing else in its metadata, no
    aggregations, and no backend was contacted. For a search it counts the
    records it returns and echoes the normalised size, sort direction, sort
    field and, when there is one, the lower time bound. *)
Theorem on_get_envelope items tr body tr' :
  Comment.on_get net es_primary es_fallback now pgdb_execute html_unescape py_repr
    execution_time items tr = (Reply200 body, tr') ->
  env_metadata body !! "version" = Some (VStr "v3.0") /\
  env_metadata body !! "execution_time_milliseconds" = Some (VFloat execution_time) /\
  match raw_params items !! "ids" with
  | Some _ =>
      env_aggs body = None /\ tr' = tr /\
      env_metadata body
      = <["version" := VStr "v3.0"]>
          (<["execution_time_milliseconds" := VFloat execution_time]> ∅)
  | None =>
      env_metadata body !! "results_returned"
      = Some (VInt (Z.of_nat (length (env_data body)))) /\
      exists q0 p q,
        Parameters.process now items q0 = Ok (p, q) /\
        env_metadata body !! "size" = p !! "size" /\
        env_metadata body !! "sort" = p !! "sort" /\
        env_metadata body !! "sort_type" = p !! "sort_type" /\
        env_metadata body !! "after" = present p "after"
  end.
Proof.
  intros H. unfold Comment.on_get in H.
  match type of H with
  | match ?c tr with _ => _ end = _ => destruct (c tr) as [[env|e] tr1] eqn:Hrun
  end; [|discriminate].
  injection H as <- <-.
  inv_net Hrun as env0 tr0 Hdo. unfold mret, net_ret in Hrun. injection Hrun as <- <-.
  cbn [env_metadata env_aggs env_data].
  split; [apply lookup_insert_eq|].
  split; [rewrite lookup_insert_ne by congruence; apply lookup_insert_eq|].
  destruct (raw_params items !! "ids") as [ids|].
  - apply lift_Ok in Hdo as [Hget ->]. unfold Comment.get_ids in Hget.
    inv_bind Hget as l Hl. inv_bind Hget as rows Hrows. inv_bind Hget as results Hres.
    injection Hget as <-. cbn [env_metadata env_aggs]. repeat split.
  - unfold Comment.do_elasticsearch in Hdo.
    inv_net Hdo as found tr2 Hsearch. destruct found as [[params data] metadata].
    inv_lift Hdo as hits Hhits.
    inv_lift Hdo as pr Hres. destruct pr as [params2 results].
    inv_lift Hdo as has_aggs Hhas.
    inv_net Hdo as aggs tr3 Haggs.
    inv_lift Hdo as timed_out Hto. inv_lift Hdo as total Htotal. inv_lift Hdo as shards Hsh.
    unfold mret, net_ret in Hdo. injection Hdo as <- <-.
    cbn [env_metadata env_aggs env_data].
    destruct (search_metadata _ _ _ _ _ _ _ Hsearch)
      as (q0 & p & q & Hproc & _ & Hsize & Hsort & Hst & Hafter & _).
    split.
    + rewrite !lookup_insert_ne by congruence. rewrite lookup_insert_eq.
      rewrite (do_elasticsearch_hits_length _ _ _ _ Hres). reflexivity.
    + exists q0, p, q. split; [exact Hproc|].
      rewrite !lookup_insert_ne by congruence. repeat split; assumption.
Qed.

End CommentEnvelope.

(** The comment search [after=0&aggs=link_id] on healthy backends. *)
Lemma on_get_envelope_witness :
  let items := [("aggs", VStr "link_id"); ("after", VStr "0")] in
  let run := sample_on_get healthy_net items [] in
  let body := reply_body (fst run) in
  run = (Reply200 body, snd run) /\
  env_metadata body !! "version" = Some (VStr "v3.0") /\
  env_metadata body !! "execution_time_milliseconds" = Some (VFloat (Qmake 1 2)) /\
  env_metadata body !! "results_returned" = Some (VInt (Z.of_nat (length (env_data body)))) /\
  exists q0 p q,
    Parameters.process 1000 items q0 = Ok (p, q) /\
    env_metadata body !! "size" = p !! "size" /\
    env_metadata body !! "sort" = p !! "sort" /\
    env_metadata body !! "sort_type" = p !! "sort_type" /\
    env_metadata body !! "after" = present p "after".
Proof.
  intros items run body.
  assert (Hrun : run = (Reply200 body, snd run)) by (apply reply_ok; vm_compute; reflexivity).
  split; [exact Hrun|].
  exact (on_get_envelope healthy_net "http://mars:9200" "http://jupiter:9200" 1000
           (fun _ _ => Ok []) (fun s => s) (fun _ => "") (Qmake 1 2) items [] body (snd run) Hrun).
Defined.

Lemma net_run_ok (r : result (gmap string pyval) * list request) :
  is_ok (fst r) = true -> r = (Ok (aggs_of (fst r)), snd r).
Proof. destruct r as [[m|e] tr]; [reflexivity | discriminate]. Qed.

(** ** The [link_id] aggregation with a cursor *)

Section LinkIdKept.

Variable net : list request -> request -> outcome.
Variables es_primary es_fallback : string.
Variable py_repr : pyval -> string.

(** When the aggregation step of a comment search returns and the answer
    has a [link_id] aggregation, the buckets it reports are, in their
    order, those whose key the submission lookup resolved to a submission
    created after the cursor, each with that submission attached; the
    lookup was asked for the keys of all the buckets. *)
Theorem _process_aggregations_link_id params aggregations tr aggs tr' :
  Comment._process_aggregations net es_primary es_fallback py_repr params aggregations tr
    = (Ok aggs, tr') ->
  py_in "link_id" aggregations = Ok true ->
  exists buckets scored submission_data after,
    buckets_of aggregations "link_id" = Ok buckets /\
    traverse Comment.link_id_key buckets = Ok scored /\
    get_submissions_from_es net es_primary es_fallback (VList scored.*2) tr
      = (Ok submission_data, tr') /\
    match params !! "after" with Some v => py_int v | None => Ok 0 end = Ok after /\
    aggs !! "link_id"
    = Some (VList (List.map (enriched py_repr submission_data)
                     (List.filter (retained submission_data after) scored.*1))).
Proof.
  intros H Hin. unfold Comment._process_aggregations in H.
  inv_lift H as aggs1 H1. inv_lift H as aggs2 H2. inv_lift H as aggs3 H3.
  inv_lift H as has Hhas. rewrite Hin in Hhas. injection Hhas as <-.
  inv_lift H as buckets Hb. inv_lift H as scored Hs.
  inv_net H as submission_data tr1 Hsd.
  inv_lift H as after Ha. inv_lift H as newlist Hnew.
  unfold mret, net_ret in H. injection H as <- <-.
  exists buckets, scored, submission_data, after.
  split; [exact Hb|]. split; [exact Hs|]. split; [exact Hsd|]. split; [exact Ha|].
  rewrite lookup_insert_eq. rewrite (link_id_buckets_spec _ _ _ _ _ Hnew). reflexivity.
Qed.

End LinkIdKept.

(** The aggregations of the sample answer, with the cursor 50: the one
    bucket is resolved to a submission created at 100 and kept. *)
Lemma _process_aggregations_link_id_witness :
  let params : gmap string pyval := <["after" := VInt 50]> ∅ in
  let aggregations :=
    VDict (<["link_id" := VDict (<["buckets" := VList
      [VDict (<["key" := VInt 10]> (<["doc_count" := VInt 3]> ∅))]]> ∅)]> ∅) in
  let run := Comment._process_aggregations healthy_net "http://mars:9200" "http://jupiter:9200"
               (fun _ => "") params aggregations [] in
  exists buckets scored submission_data after,
    buckets_of aggregations "link_id" = Ok buckets /\
    traverse Comment.link_id_key buckets = Ok scored /\
    get_submissions_from_es healthy_net "http://mars:9200" "http://jupiter:9200"
      (VList scored.*2) [] = (Ok submission_data, snd run) /\
    match params !! "after" with Some v => py_int v | None => Ok 0 end = Ok after /\
    aggs_of (fst run) !! "link_id"
    = Some (VList (List.map (enriched (fun _ => "") submission_data)
                     (List.filter (retained submission_data after) scored.*1))).
Proof.
  intros params aggregations run.
  apply (_process_aggregations_link_id healthy_net "http://mars:9200" "http://jupiter:9200"
           (fun _ => "") params aggregations [] (aggs_of (fst run)) (snd run)).
  - apply net_run_ok. vm_compute. reflexivity.
  - vm_compute. reflexivity.
Defined.

(** ** Comments by identifier when the database fails *)

(** The digit 5 followed by a separator control is no identifier. *)
Example decode_comment_id_separator :
  Comment.decode_comment_id (VStr five_separator) = Err ValueError.
Proof. vm_compute. reflexivity. Qed.

Section DatabaseFailure.

Variable net : list request -> request -> outcome.
Variables es_primary es_fallback : string.
Variable now : Z.
Variable pgdb_execute : string -> list Z -> result (list (list pyval)).
Variable html_unescape : string -> string.
Variable py_repr : pyval -> string.
Variable execution_time : Q.

(** A request with [ids] whose identifiers decode is answered from the
    database alone: whatever exception the database raises, the reply has
    status 500 with [APIError], and no search backend is contacted; an
    identifier that does not decode fails the request with the decoder's
    exception. *)
Theorem on_get_ids_failures items tr ids :
  raw_params items !! "ids" = Some ids ->
  match traverse Comment.decode_comment_id (match ids with VList l => l | _ => [ids] end) with
  | Ok numbers =>
      forall e,
        pgdb_execute "SELECT * FROM comment WHERE (json->>'id')::bigint IN %s LIMIT 5000" numbers
        = Err e ->
        Comment.on_get net es_primary es_fallback now pgdb_execute html_unescape py_repr
          execution_time items tr = (Reply500 APIError, tr)
  | Err e =>
      Comment.on_get net es_primary es_fallback now pgdb_execute html_unescape py_repr
        execution_time items tr = (Reply500 e, tr)
  end.
Proof.
  intros Hids. unfold Comment.on_get. rewrite Hids.
  unfold lift, mbind at 1, net_bind. unfold Comment.get_ids.
  destruct (traverse _ _) as [numbers|e]; [|reflexivity].
  intros e He. cbn [mbind result_bind]. rewrite He. reflexivity.
Qed.

End DatabaseFailure.

(** The request [ids=t1_abc] when the database is down. *)
Lemma on_get_ids_failures_witness :
  let items := [("ids", VStr "t1_abc")] in
  Comment.on_get healthy_net "http://mars:9200" "http://jupiter:9200" 1000
    (fun _ _ => Err RequestException) (fun s => s) (fun _ => "") (Qmake 1 2) items []
  = (Reply500 APIError, []).
Proof.
  intros items.
  pose proof (on_get_ids_failures healthy_net "http://mars:9200" "http://jupiter:9200" 1000
                (fun _ _ => Err RequestException) (fun s => s) (fun _ => "") (Qmake 1 2)
                items [] (VStr "t1_abc") eq_refl) as H.
  exact (H RequestException eq_refl).
Defined.

(** ** The document of a submission search *)

Lemma add_aggregation_clauses_query own mdc aggs : forall p q p' q',
  add_aggregation_clauses own mdc aggs p q = Ok (p', q') ->
  q_filter q' = q_filter q /\ q_must_not q' = q_must_not q /\
  q_size q' = q_size q /\ q_sort q' = q_sort q.
Proof.
  induction aggs as [|agg rest IH]; intros p q p' q' H; simpl in H.
  - injection H as _ <-. repeat split.
  - inv_bind H as agg_lower Hl.
    destruct (String.eqb agg_lower "subreddit"); [apply IH in H; exact H|].
    destruct (String.eqb agg_lower "author"); [apply IH in H; exact H|].
    destruct (String.eqb agg_lower "created_utc").
    + inv_bind H as frequency Hf. apply IH in H. exact H.
    + destruct (own agg_lower); apply IH in H; exact H.
Qed.

Lemma add_aggregations_query own p q p' q' :
  add_aggregations own p q = Ok (p', q') ->
  q_filter q' = q_filter q /\ q_must_not q' = q_must_not q /\
  q_size q' = q_size q /\ q_sort q' = q_sort q.
Proof.
  unfold add_aggregations. intros H.
  destruct (p !! "aggs") as [v|]; [|injection H as _ <-; repeat split].
  destruct (negb (py_truthy v)); [injection H as _ <-; repeat split|].
  inv_bind H as aggs Haggs. apply add_aggregation_clauses_query in H. exact H.
Qed.

Lemma process_must_not now items q p' q' :
  Parameters.process now items q = Ok (p', q') -> q_must_not q' = q_must_not q.
Proof.
  intros H.
  destruct (process_run _ _ _ _ _ H)
    as (p1 & q1 & p2 & q2 & q5 & st & p6 & n & p7 & d
        & Hc & Ht & A5 & _ & _ & _ & _ & -> & _).
  pose proof (process_conditions_appends _ _ _ _ _ Hc) as A1.
  destruct (_process_time_range_spec _ _ _ _ _ Ht) as (A2 & _).
  destruct (appends_trans _ _ _ (appends_trans _ _ _ A1 A2) A5) as [added ->].
  reflexivity.
Qed.

Lemma execute_search_first net es_fallback es_index uri q tr r tr' :
  execute_search net es_fallback es_index uri q tr = (r, tr') ->
  exists rest, tr' = (tr ++ mkRequest uri (SearchBody q) 30 :: rest)%list.
Proof.
  intros H. destruct (failed (net tr (mkRequest uri (SearchBody q) 30))) eqn:Hf.
  - rewrite (execute_search_failover net es_fallback es_index uri q tr Hf) in H.
    injection H as _ <-. eexists. reflexivity.
  - destruct (execute_search_primary net es_fallback es_index uri q tr Hf) as (resp & _ & E).
    rewrite E in H. injection H as _ <-. eexists. reflexivity.
Qed.

Section SubmissionDocument.

Variable net : list request -> request -> outcome.
Variables es_fallback : string.
Variable now : Z.

(** The document a submission search sends first is the normalised query
    with the text clauses appended to its filter, in the order [q],
    [title], [selftext], and with exactly the exclusion clauses as its
    negated list, in the order [title:not], [q:not], [selftext:not]; the
    aggregation step changes neither, nor the size and the sort. The text
    parameters are read after normalisation, under lower-cased names. The
    metadata holds the sort direction and the sort field only. *)
Theorem search_document items uri tr params data metadata tr' :
  Submission.search net es_fallback now items uri tr = (Ok (params, data, metadata), tr') ->
  exists p q1 q rest,
    Parameters.process now items (mkQuery [] (Some []) None ∅ ∅) = Ok (p, q1) /\
    tr' = (tr ++ mkRequest uri (SearchBody q) 30 :: rest)%list /\
    q_filter q = (q_filter q1 ++ text_clauses p)%list /\
    q_must_not q = Some (exclusion_clauses p) /\
    q_size q = q_size q1 /\ q_sort q = q_sort q1 /\
    (exists sort sort_type,
       p !! "sort" = Some sort /\ p !! "sort_type" = Some sort_type /\
       metadata = <["sort_type" := sort_type]> (<["sort" := sort]> ∅)).
Proof.
  unfold Submission.search. intros H.
  inv_lift H as pq Hproc. destruct pq as [p q1].
  inv_lift H as pq2 Hadd. destruct pq2 as [p2 q2].
  inv_net H as response tr4 Hexec.
  inv_lift H as data' Hdata.
  inv_lift H as sort Hsort. inv_lift H as sort_type Hst.
  unfold mret, net_ret in H. injection H as <- <- <- <-.
  destruct (execute_search_first _ _ _ _ _ _ _ _ Hexec) as [rest ->].
  destruct (add_aggregations_query _ _ _ _ _ Hadd) as (F & M & S & O).
  pose proof (process_must_not _ _ _ _ _ Hproc) as Hmn. cbn [q_must_not] in Hmn.
  exists p, q1, q2, rest. split; [exact Hproc|]. split; [reflexivity|].
  rewrite F, M, S, O.
  assert (Hdoc :
    q_filter (Submission.add_exclusions p (Submission.add_text_queries p q1))
      = (q_filter q1 ++ text_clauses p)%list /\
    q_must_not (Submission.add_exclusions p (Submission.add_text_queries p q1))
      = Some (exclusion_clauses p) /\
    q_size (Submission.add_exclusions p (Submission.add_text_queries p q1)) = q_size q1 /\
    q_sort (Submission.add_exclusions p (Submission.add_text_queries p q1)) = q_sort q1).
  { unfold Submission.add_exclusions, Submission.add_text_queries, text_clauses,
      exclusion_clauses.
    cbn [foldl omap list_omap fst snd fmap option_fmap option_map].
    destruct (present p "q"), (present p "title"), (present p "selftext"),
      (present p "title:not"), (present p "q:not"), (present p "selftext:not");
      cbn; rewrite ?Hmn; cbn; rewrite <- ?app_assoc, ?app_nil_r; cbn; repeat split. }
  destruct Hdoc as (D1 & D2 & D3 & D4).
  split; [exact D1|]. split; [exact D2|]. split; [exact D3|]. split; [exact D4|].
  unfold getitem in Hsort, Hst.
  pose proof (add_aggregations_lookup _ _ _ _ _ Hadd) as Hk.
    rewrite (Hk "sort") in Hsort by congruence.
    rewrite (Hk "sort_type") in Hst by congruence.
    destruct (p !! "sort") as [v1|]; [|discriminate]. injection Hsort as <-.
    destruct (p !! "sort_type") as [v2|]; [|discriminate]. injection Hst as <-.
    exists v1, v2. repeat split.
Qed.

End SubmissionDocument.

Lemma search_run_ok (r : result (gmap string pyval * pyval * gmap string pyval) * list request) :
  is_ok (fst r) = true -> exists x, r = (Ok x, snd r).
Proof. destruct r as [[x|e] tr]; [eauto | discriminate]. Qed.

(** The request [Q=cats&Title:NOT=dogs] on a network that answers. *)
Lemma search_document_witness :
  let net := fun (_ : list request) (_ : request) => Responded (mkResponse 200 (Ok (VDict ∅))) in
  let items := [("Q", VStr "cats"); ("Title:NOT", VStr "dogs")] in
  let run := Submission.search net "http://jupiter:9200" 1000 items
               "http://mars:9200/rs/submissions/_search" [] in
  exists p q1 q rest,
    Parameters.process 1000 items (mkQuery [] (Some []) None ∅ ∅) = Ok (p, q1) /\
    snd run = ([] ++ mkRequest "http://mars:9200/rs/submissions/_search" (SearchBody q) 30
                  :: rest)%list /\
    q_filter q = (q_filter q1 ++ text_clauses p)%list /\
    q_must_not q = Some (exclusion_clauses p) /\
    text_clauses p = [PSimpleQuery (VStr "cats") None] /\
    exclusion_clauses p = [PSimpleQuery (VStr "dogs") (Some ["title"])].
Proof.
  intros net items run.
  destruct (search_run_ok run) as [[[params data] metadata] Hrun]; [vm_compute; reflexivity|].
  destruct (search_document net "http://jupiter:9200" 1000 items
              "http://mars:9200/rs/submissions/_search" [] params data metadata (snd run) Hrun)
    as (p & q1 & q & rest & Hp & Htr & Hf & Hm & _).
  exists p, q1, q, rest. split; [exact Hp|]. split; [exact Htr|].
  split; [exact Hf|]. split; [exact Hm|].
  assert (Hp' : Parameters.process 1000 items (mkQuery [] (Some []) None ∅ ∅)
                = Ok (params_of (Parameters.process 1000 items (mkQuery [] (Some []) None ∅ ∅)),
                      query_of (Parameters.process 1000 items (mkQuery [] (Some []) None ∅ ∅))))
    by (apply run_ok; vm_compute; reflexivity).
  rewrite Hp' in Hp. injection Hp as <- _. split; vm_compute; reflexivity.
Defined.

(** ** Records of a submission search *)

Lemma base36encode_val_cases v :
  (exists s, base36encode_val v = Ok s) \/ base36encode_val v = Err TypeError.
Proof.
  destruct v as [|b|n|q|s|l|m]; try (right; reflexivity); left; cbn [base36encode_val].
  - destruct (base36encode_total (if b then 1 else 0)) as (s & Hs & _). eauto.
  - destruct (base36encode_total n) as (s & Hs & _). eauto.
Qed.

Section SubmissionRecords.

Variable html_unescape : string -> string.
Variable py_repr : pyval -> string.

(** A record of a submission search always carries a [subreddit_id]:
    the prefix [t5_] and the encoding when the stored value is an
    integer, and [None] when it is missing, [None] or anything else.
    Comment search returns a record for a hit only when the stored value
    is an integer. *)
Theorem process_hit_subreddit_id params hit params' source' :
  present params "fields" = None ->
  Submission.process_hit html_unescape py_repr params hit = Ok (params', source') ->
  exists src,
    py_getitem hit "_source" = Ok (VDict src) /\
    py_getitem source' "subreddit_id"
    = Ok (match src !! "subreddit_id" with
          | Some v => match base36encode_val v with
                      | Ok s => VStr ("t5_" ++ s)
                      | Err _ => VNone
                      end
          | None => VNone
          end) /\
    (forall p c, Comment.do_elasticsearch_hit html_unescape p hit = Ok c ->
                 exists v s, src !! "subreddit_id" = Some v /\ base36encode_val v = Ok s).
Proof.
  unfold Submission.process_hit. intros Hfields H.
  inv_bind H as source Hsource. inv_bind H as _id H_id. inv_bind H as n Hn.
  inv_bind H as id36 Hid36. inv_bind H as c1 Hc1.
  destruct source as [| | | | | |src]; try discriminate Hc1. injection Hc1 as <-.
  set (m1 := <["id" := VStr id36]> src) in *.
  assert (Hm1 : m1 !! "subreddit_id" = src !! "subreddit_id")
    by (apply lookup_insert_ne; congruence).
  inv_bind H as has Hhas. rewrite py_in_dict in Hhas. injection Hhas as <-.
  inv_bind H as sr Hsr. inv_bind H as subreddit_id Hsid.
  inv_bind H as c2 Hc2. injection Hc2 as <-.
  inv_bind H as flair Hflair. inv_bind H as flair' Hflair'.
  inv_bind H as c3 Hc3. injection Hc3 as <-.
  inv_bind H as css Hcss. inv_bind H as css' Hcss'.
  inv_bind H as c4 Hc4. injection Hc4 as <-.
  inv_bind H as permalink Hperm. inv_bind H as c5 Hc5.
  unfold _apply_field_filter in H. rewrite Hfields in H. injection H as _ <-.
  exists src. split; [exact Hsource|].
  assert (Hval : subreddit_id
                 = match src !! "subreddit_id" with
                   | Some v => match base36encode_val v with
                               | Ok s => VStr ("t5_" ++ s)
                               | Err _ => VNone
                               end
                   | None => VNone
                   end).
  { rewrite <- Hm1. unfold py_getitem, getitem in Hsr.
    destruct (m1 !! "subreddit_id") as [v|] eqn:Hv.
    - rewrite bool_decide_eq_true_2 in Hsr by eauto. injection Hsr as <-.
      destruct (base36encode_val_cases v) as [[s Hs]|He].
      + rewrite Hs in Hsid |- *. destruct v; injection Hsid as <-; try reflexivity.
        discriminate Hs.
      + rewrite He in Hsid |- *. destruct v; injection Hsid as <-; reflexivity.
    - rewrite bool_decide_eq_false_2 in Hsr by (intros [? ?]; discriminate).
      injection Hsr as <-. injection Hsid as <-. reflexivity. }
  split.
  - rewrite <- Hval.
    assert (Hlook : forall m : gmap string pyval,
              m !! "subreddit_id" = Some subreddit_id ->
              forall c, (if py_truthy permalink
                         then permalink ← py_getitem (VDict m) "permalink";
                              py_setitem (VDict m) "full_link"
                                (VStr ("https://www.reddit.com" ++ py_format py_repr permalink))
                         else Ok (VDict m)) = Ok c ->
              py_getitem c "subreddit_id" = Ok subreddit_id).
    { intros m Hm c Hc. destruct (py_truthy permalink).
      - inv_bind Hc as pl Hpl. injection Hc as <-. unfold py_getitem, getitem.
        rewrite lookup_insert_ne by congruence. rewrite Hm. reflexivity.
      - injection Hc as <-. unfold py_getitem, getitem. rewrite Hm. reflexivity. }
    eapply Hlook; [|exact Hc5].
    rewrite !lookup_insert_ne by congruence. apply lookup_insert_eq.
  - intros p c Hc. unfold Comment.do_elasticsearch_hit in Hc.
    inv_bind Hc as source0 Hsource0. rewrite Hsource in Hsource0. injection Hsource0 as <-.
    inv_bind Hc as _id0 H_id0. inv_bind Hc as n0 Hn0. inv_bind Hc as i0 Hi0.
    inv_bind Hc as s1 Hs1. injection Hs1 as <-.
    inv_bind Hc as l Hl. inv_bind Hc as l36 Hl36. inv_bind Hc as s2 Hs2. injection Hs2 as <-.
    inv_bind Hc as has_parent Hhp. inv_bind Hc as s3 Hs3.
    inv_bind Hc as sr0 Hsr0. inv_bind Hc as sr36 Hsr36.
    exists sr0, sr36. split; [|exact Hsr36].
    destruct has_parent.
    + inv_bind Hs3 as pp Hpp. inv_bind Hs3 as p36 Hp36. injection Hs3 as <-.
      unfold py_getitem, getitem in Hsr0.
      rewrite !lookup_insert_ne in Hsr0 by congruence.
      destruct (src !! "subreddit_id"); [congruence | discriminate].
    + inv_bind Hs3 as ll Hll. injection Hs3 as <-.
      unfold py_getitem, getitem in Hsr0.
      rewrite !lookup_insert_ne in Hsr0 by congruence.
      destruct (src !! "subreddit_id"); [congruence | discriminate].
Qed.

End SubmissionRecords.

Lemma hit_run_ok (r : result (gmap string pyval * pyval)) :
  is_ok r = true -> exists p, r = Ok (p, record_of r).
Proof. destruct r as [[p v]|e]; [eauto | discriminate]. Qed.

(** A hit whose [subreddit_id] is a string. *)
Lemma process_hit_subreddit_id_witness :
  let params : gmap string pyval := ∅ in
  let hit := VDict (<["_id" := VStr "100"]>
                   (<["_source" := VDict (<["subreddit_id" := VStr "2qh1i"]> ∅)]> ∅)) in
  let r := Submission.process_hit (fun s => s) (fun _ => "") params hit in
  present params "fields" = None /\
  py_getitem (record_of r) "subreddit_id" = Ok VNone.
Proof.
  intros params hit r. split; [reflexivity|].
  destruct (hit_run_ok r) as [p Hr]; [vm_compute; reflexivity|].
  destruct (process_hit_subreddit_id (fun s => s) (fun _ => "") params hit p (record_of r)
              eq_refl Hr) as (src & Hsrc & Hget & _).
  vm_compute in Hsrc. injection Hsrc as <-. exact Hget.
Defined.

(** ** The [domain] aggregation *)

Lemma substring_skip (x s : string) (m : nat) :
  String.substring (String.length x) m (x ++ s) = String.substring 0 m s.
Proof. induction x as [|c x IH]; [reflexivity|]. exact IH. Qed.

(** A string that contains [self.] anywhere is found by the test. *)
Lemma py_in_self (x y : string) : py_in "self." (VStr (x ++ "self." ++ y)) = Ok true.
Proof.
  unfold py_in. destruct (String.index 0 "self." (x ++ "self." ++ y)) as [n|] eqn:Hi;
    [reflexivity|].
  exfalso.
  apply (String.index_correct3 0 (String.length x) "self." (x ++ "self." ++ y) Hi);
    [discriminate | lia|].
  rewrite substring_skip. destruct y; reflexivity.
Qed.

Lemma domain_buckets_spec buckets : forall out,
  Submission.domain_buckets buckets = Ok out ->
  out = List.filter (fun b => negb (mentions_self b)) buckets.
Proof.
  induction buckets as [|b rest IH]; intros out H; simpl in H.
  - injection H as <-. reflexivity.
  - inv_bind H as key Hkey. inv_bind H as is_self Hself. inv_bind H as new_buckets Hrest.
    injection H as <-. simpl. unfold mentions_self at 1. rewrite Hkey. cbn [mbind result_bind].
    rewrite Hself. rewrite <- (IH _ Hrest). destruct is_self; reflexivity.
Qed.

(** The [domain] aggregation reports, in their order, the buckets whose
    key does not contain [self.]; a key that contains it anywhere, not
    only at its start, is dropped. Nothing else is changed. *)
Theorem process_domain_keeps aggregations aggs out :
  Submission.process_domain aggregations aggs = Ok out ->
  py_in "domain" aggregations = Ok true ->
  exists buckets kept,
    buckets_of aggregations "domain" = Ok buckets /\
    out = <["domain" := VList kept]> aggs /\
    kept = List.filter (fun b => negb (mentions_self b)) buckets /\
    (forall b x y, b ∈ kept -> py_getitem b "key" <> Ok (VStr (x ++ "self." ++ y))).
Proof.
  unfold Submission.process_domain. intros H Hin. rewrite Hin in H.
  cbn [mbind result_bind] in H.
  inv_bind H as buckets Hb. inv_bind H as kept Hk. injection H as <-.
  exists buckets, kept. split; [exact Hb|]. split; [reflexivity|].
  pose proof (domain_buckets_spec _ _ Hk) as ->. split; [reflexivity|].
  intros b x y Hb' Hkey. apply list_elem_of_In, filter_In in Hb' as [_ Hb'].
  unfold mentions_self in Hb'. rewrite Hkey in Hb'. cbn [mbind result_bind] in Hb'.
  rewrite py_in_self in Hb'. discriminate Hb'.
Qed.

(** Three domains, two of which contain [self.]. *)
Lemma process_domain_keeps_witness :
  let bucket := fun k : string => VDict (<["key" := VStr k]> (<["doc_count" := VInt 1]> ∅)) in
  let aggregations :=
    VDict (<["domain" := VDict (<["buckets" := VList
      [bucket "self.python"; bucket "example.com"; bucket "myself.example.com"]]> ∅)]> ∅) in
  let out := aggs_of (Submission.process_domain aggregations ∅) in
  exists buckets kept,
    buckets_of aggregations "domain" = Ok buckets /\
    out = <["domain" := VList kept]> ∅ /\
    kept = List.filter (fun b => negb (mentions_self b)) buckets /\
    (forall b x y, b ∈ kept -> py_getitem b "key" <> Ok (VStr (x ++ "self." ++ y))).
Proof.
  intros bucket aggregations out.
  apply (process_domain_keeps aggregations ∅ out).
  - assert (H : forall r : result (gmap string pyval), is_ok r = true -> r = Ok (aggs_of r))
      by (intros [m|e]; [reflexivity | discriminate]).
    apply H. vm_compute. reflexivity.
  - vm_compute. reflexivity.
Defined.

(** ** Submissions from the database *)

Lemma base36encode_val_int v s :
  base36encode_val v = Ok s ->
  exists n, to_key v = Ok (KNum (inject_Z n)) /\ py_int v = Ok n /\
            base36encode n = Ok s /\ base36decode s = Ok n /\
            Comment.decode_comment_id (VStr s) = Ok n /\
            Comment.decode_comment_id (VStr ("t1_" ++ s)) = Ok n.
Proof.
  assert (H : forall n, base36encode n = Ok s ->
            base36decode s = Ok n /\ Comment.decode_comment_id (VStr s) = Ok n /\
            Comment.decode_comment_id (VStr ("t1_" ++ s)) = Ok n).
  { intros n Hs. destruct (base36encode_total n) as (s' & Hs' & Hd & Hl & Hp).
    rewrite Hs in Hs'. injection Hs' as <-.
    assert (Hsub : String.substring 3 (String.length ("t1_" ++ s) - 3) ("t1_" ++ s) = s).
    { change ("t1_" ++ s) with (String "t" (String "1" (String "_" s))).
      cbn [String.length].
      replace (S (S (S (String.length s))) - 3)%nat with (String.length s) by lia.
      cbn [String.substring]. apply substring_all. }
    assert (Hpre : startswith "t1_" ("t1_" ++ s) = true).
    { unfold startswith. change ("t1_" ++ s) with (String "t" (String "1" (String "_" s))).
      cbn. destruct s; reflexivity. }
    unfold Comment.decode_comment_id, py_lower. cbn [mbind result_bind].
    split; [exact Hd|]. split.
    - rewrite Hl, (Hp "t" "1")%char. exact Hd.
    - change (lower ("t1_" ++ s)) with ("t1_" ++ lower s). rewrite Hl, Hpre, Hsub. exact Hd. }
  destruct v as [|b|n|q|t|l|m]; try discriminate; cbn [base36encode_val]; intros Hs.
  - exists (if b then 1 else 0).
    split; [reflexivity|]. split; [reflexivity|]. split; [exact Hs | apply H, Hs].
  - exists n. split; [reflexivity|]. split; [reflexivity|]. split; [exact Hs | apply H, Hs].
Qed.

Lemma alist_insert_Forall (P : pykey * pyval -> Prop) k v d :
  Forall P d -> P (k, v) ->
  (forall k' v', P (k', v') -> key_eqb k k' = true -> P (k', v)) ->
  Forall P (alist_insert k v d).
Proof.
  intros Hd Hkv Hrep. induction Hd as [|[k' v'] d Hx Hd IH]; cbn.
  - repeat constructor. exact Hkv.
  - destruct (key_eqb k k') eqn:E; constructor; eauto.
Qed.

Section SubmissionsFromPgEntries.

Variable pgdb_execute : string -> list pyval -> result (list (list pyval)).

Lemma add_pg_submission_entries results row results' :
  Helpers.add_pg_submission results row = Ok results' ->
  Forall pg_entry results -> Forall pg_entry results'.
Proof.
  unfold Helpers.add_pg_submission. intros H Hall.
  inv_bind H as submission Hrow. inv_bind H as id Hid.
  apply py_getitem_dict in Hid as (m & -> & Hid).
  inv_bind H as id36 Hid36. inv_bind H as c1 Hc1. injection Hc1 as <-.
  inv_bind H as has Hhas. inv_bind H as c2 Hc2. inv_bind H as c3 Hc3.
  inv_bind H as k Hk. injection H as <-.
  destruct (base36encode_val_int _ _ Hid36) as (n & Hkey & _ & _ & Hdec & _).
  rewrite Hkey in Hk. injection Hk as <-.
  assert (Hc2' : exists m2 : gmap string pyval,
            c2 = VDict m2 /\ m2 !! "id" = Some (VStr id36)).
  { destruct has.
    - inv_bind Hc2 as sr Hsr. inv_bind Hc2 as sr36 Hsr36. injection Hc2 as <-.
      eexists. split; [reflexivity|]. rewrite lookup_insert_ne by congruence.
      apply lookup_insert_eq.
    - injection Hc2 as <-. eexists. split; [reflexivity | apply lookup_insert_eq]. }
  destruct Hc2' as (m2 & -> & Hm2). injection Hc3 as <-.
  assert (Hnew : forall k', k' = KNum (inject_Z n) -> pg_entry (k', VDict (delete "name" m2))).
  { intros k' ->. exists n, id36, (delete "name" m2). cbn [fst snd].
    split; [reflexivity|]. split; [reflexivity|].
    split; [rewrite lookup_delete_ne by congruence; exact Hm2|].
    split; [exact Hdec | apply lookup_delete_eq]. }
  apply alist_insert_Forall; [exact Hall | apply Hnew; reflexivity|].
  intros k' v' (n' & s' & m' & Hk' & _) E. cbn [fst] in Hk'. subst k'.
  apply Hnew. cbn [key_eqb] in E. apply Qeq_bool_iff in E.
  unfold Qeq, inject_Z in E. cbn [Qnum Qden] in E. f_equal. f_equal. lia.
Qed.

Lemma add_pg_submissions_entries rows : forall results results',
  Helpers.add_pg_submissions results rows = Ok results' ->
  Forall pg_entry results -> Forall pg_entry results'.
Proof.
  induction rows as [|row rest IH]; intros results results' H Hall; simpl in H.
  - injection H as <-. exact Hall.
  - inv_bind H as r1 H1. apply (IH _ _ H). apply (add_pg_submission_entries _ _ _ H1 Hall).
Qed.

(** Every submission the database lookup returns is stored under the
    number that its base-36 identifier decodes to and has lost its [name];
    a failure of the database gives the empty dictionary instead of an
    error. *)
Theorem get_submissions_from_pg_entries ids :
  (forall results,
     Helpers.get_submissions_from_pg pgdb_execute ids = Ok results ->
     Forall pg_entry results) /\
  (forall e,
     pgdb_execute "SELECT * FROM submission WHERE (json->>'id')::int IN %s LIMIT 5000"
       (match ids with VList l => l | _ => [ids] end) = Err e ->
     Helpers.get_submissions_from_pg pgdb_execute ids = Ok []).
Proof.
  unfold Helpers.get_submissions_from_pg. split.
  - intros results H. destruct (pgdb_execute _ _) as [rows|e].
    + apply (add_pg_submissions_entries _ _ _ H). constructor.
    + injection H as <-. constructor.
  - intros e ->. reflexivity.
Qed.

End SubmissionsFromPgEntries.

(** ** Comment identifiers of a submission *)

Section CommentIds.

Variable pgdb_execute : string -> Z -> result (list (list pyval)).

(** The identifiers listed for a submission are, row by row, the
    encodings of the numbers the database returned, and comment search
    accepts each of them back in its [ids] parameter, bare or with the
    prefix [t1_], as that number. *)
Theorem comment_ids_roundtrip submission_id results :
  CommentIDsGetter.on_get pgdb_execute submission_id = Ok results ->
  exists n rows,
    pgdb_execute ("SELECT (json->>'id')::bigint comment_id FROM comment " ++
                  "WHERE (json->>'link_id')::int = %s ORDER BY comment_id ASC LIMIT 50000")
      n = Ok rows /\
    Forall2 (fun (row : list pyval) (s : string) =>
               exists comment_id k,
                 head row = Some comment_id /\ py_int comment_id = Ok k /\
                 base36encode k = Ok s /\
                 Comment.decode_comment_id (VStr s) = Ok k /\
                 Comment.decode_comment_id (VStr ("t1_" ++ s)) = Ok k)
            rows results.
Proof.
  unfold CommentIDsGetter.on_get. intros H.
  inv_bind H as n Hn. inv_bind H as rows Hrows.
  exists n, rows. split.
  - destruct (pgdb_execute _ n); [congruence | discriminate].
  - apply traverse_Forall2 in H. eapply Forall2_impl; [exact H|].
    intros row s Hs. cbn beta in Hs. destruct row as [|c rest]; [discriminate|].
    destruct (base36encode_val_int _ _ Hs) as (k & _ & Hi & He & _ & Hd1 & Hd2).
    exists c, k. repeat split; assumption.
Qed.

End CommentIds.

(** The comments 46 and 1295 of the submission [t3_a]. *)
Lemma comment_ids_roundtrip_witness :
  let pgdb_execute := fun (_ : string) (_ : Z) => Ok [[VInt 46]; [VInt 1295]] in
  CommentIDsGetter.on_get pgdb_execute "T3_a" = Ok ["1a"; "zz"] /\
  exists n rows,
    pgdb_execute ("SELECT (json->>'id')::bigint comment_id FROM comment " ++
                  "WHERE (json->>'link_id')::int = %s ORDER BY comment_id ASC LIMIT 50000")
      n = Ok rows /\
    Forall2 (fun (row : list pyval) (s : string) =>
               exists comment_id k,
                 head row = Some comment_id /\ py_int comment_id = Ok k /\
                 base36encode k = Ok s /\
                 Comment.decode_comment_id (VStr s) = Ok k /\
                 Comment.decode_comment_id (VStr ("t1_" ++ s)) = Ok k)
            rows ["1a"; "zz"].
Proof.
  intros pgdb_execute.
  assert (H : CommentIDsGetter.on_get pgdb_execute "T3_a" = Ok ["1a"; "zz"])
    by (vm_compute; reflexivity).
  split; [exact H|]. apply (comment_ids_roundtrip pgdb_execute "T3_a" ["1a"; "zz"] H).
Defined.

(** ** Submissions by identifier *)

Example decode_submission_id_separator :
  Submission.decode_submission_id (VStr five_separator) = Err ValueError.
Proof. vm_compute. reflexivity. Qed.

Section SubmissionIds.

Variable net : list request -> request -> outcome.
Variables es_primary : string.
Variable py_repr : pyval -> string.

(** A submission request with [ids] sends nothing when an identifier
    does not decode; otherwise it sends exactly one request, to the primary
    endpoint, with the decoded numbers, the size 500 and the timeout 30.
    The fallback endpoint is never tried: when that request fails, the
    result is [ElasticsearchError]. *)
Theorem get_ids_requests params ids tr :
  match traverse Submission.decode_submission_id
          (match ids with VList l => l | _ => [ids] end) with
  | Err e => Submission.get_ids net es_primary py_repr params ids tr = (Err e, tr)
  | Ok numbers =>
      let first := mkRequest (es_primary ++ "/rs/submissions/_search")
                     (TermsIdBody (VInt <$> numbers) 500) 30 in
      exists r,
        Submission.get_ids net es_primary py_repr params ids tr = (r, tr ++ [first])%list /\
        (failed (net tr first) = true -> r = Err ElasticsearchError)
  end.
Proof.
  unfold Submission.get_ids.
  destruct (traverse _ _) as [numbers|e]; [|reflexivity].
  cbv zeta.
  unfold mbind at 1. unfold net_bind at 1. unfold lift at 1.
  unfold mbind at 1. unfold net_bind at 1.
  unfold except_RequestException.
  destruct (failed (net tr (mkRequest (es_primary ++ "/rs/submissions/_search")
                              (TermsIdBody (VInt <$> numbers) 500) 30))) eqn:Hf.
  - rewrite (attempt_failed net _ _ _ Hf). unfold lift.
    eexists. split; reflexivity.
  - destruct (attempt_succeeded net _ _ _ Hf) as (resp & _ & ->).
    unfold mbind, net_bind, lift.
    match goal with
    | |- context [match ?c with Ok _ => _ | Err _ => _ end] => destruct c as [[p results]|e]
    end; (eexists; split; [reflexivity | discriminate]).
Qed.

End SubmissionIds.

(** ** Retries of the database manager *)

Section Retries.

Import DBFunctions.

Variable db : list db_event -> db_event -> query_outcome.
Variable connect : list db_event -> option db_exn.

Lemma queries_app a b : queries (a ++ b) = (queries a + queries b)%nat.
Proof. unfold queries. rewrite List.filter_app, length_app. reflexivity. Qed.

Lemma pauses_app a b : pauses (a ++ b) = pauses a + pauses b.
Proof.
  unfold pauses. induction a as [|e a IH]; [reflexivity|].
  cbn [app foldr]. rewrite IH. destruct e; lia.
Qed.

Lemma execute_loop_bounds sql params retries : forall log,
  exists sent,
    snd (execute_loop db connect sql params retries log) = (log ++ sent)%list /\
    (queries sent <= retries)%nat /\
    (0 <= pauses sent <= Z.of_nat (retries - 1)) /\
    (fst (execute_loop db connect sql params retries log) = Returned None <-> retries = 0%nat) /\
    (forall rows, fst (execute_loop db connect sql params retries log) = Returned (Some rows) ->
       exists before, sent = (before ++ [Query sql params])%list /\
                      db (log ++ before)%list (Query sql params) = Rows rows).
Proof.
  induction retries as [|retries IH]; intros log.
  - exists []. cbn. rewrite app_nil_r. repeat split; try lia; discriminate.
  - cbn [execute_loop].
    destruct (db log (Query sql params)) as [rows|e] eqn:Hdb.
    + exists [Query sql params]. cbn [fst snd]. repeat split; try (cbn; lia); try discriminate.
      intros rows' [= <-]. exists []. rewrite app_nil_r. split; [reflexivity | exact Hdb].
    + assert (Hplain : forall e', exists sent,
                (log ++ [Query sql params])%list = (log ++ sent)%list /\
                (queries sent <= S retries)%nat /\
                (0 <= pauses sent <= Z.of_nat (S retries - 1)) /\
                (Raised e' = Returned None <-> S retries = 0%nat) /\
                (forall rows, Raised e' = Returned (Some rows) ->
                   exists before, sent = (before ++ [Query sql params])%list /\
                                  db (log ++ before)%list (Query sql params) = Rows rows)).
      { intros e'. exists [Query sql params].
        repeat split; try (cbn; lia); try discriminate. }
      destruct e; try apply Hplain.
      destruct retries as [|retries']; [apply Hplain|].
      destruct (connect (log ++ [Query sql params; Sleep retry_delay])%list) as [e|].
      * exists [Query sql params; Sleep retry_delay; Connect]. cbn [fst snd].
        rewrite <- app_assoc. repeat split; try (cbn; lia); try discriminate.
        unfold retry_delay. cbn. lia.
      * destruct (IH ((log ++ [Query sql params; Sleep retry_delay]) ++ [Connect])%list)
          as (sent & E & Q & [P1 P2] & N & R).
        exists ([Query sql params; Sleep retry_delay; Connect] ++ sent)%list.
        split; [rewrite E, <- !app_assoc; reflexivity|].
        split; [rewrite queries_app; change (queries [Query sql params; Sleep retry_delay; Connect])
                  with 1%nat; lia|].
        split; [rewrite pauses_app; change (pauses [Query sql params; Sleep retry_delay; Connect])
                  with 1; lia|].
        split; [split; [intros H; apply N in H; discriminate H | discriminate]|].
        intros rows Hr. destruct (R rows Hr) as (before & -> & Hb).
        exists ([Query sql params; Sleep retry_delay; Connect] ++ before)%list.
        split; [rewrite <- app_assoc; reflexivity|].
        rewrite <- Hb. f_equal. rewrite <- !app_assoc. reflexivity.
Qed.

(** Whatever the database does, a call of [execute] sends the query at
    most five times and pauses for at most four seconds in all; it never
    returns [None]; and the rows it returns are the answer to the last
    query it sent. *)
Theorem execute_bounds sql params log :
  exists sent,
    snd (execute db connect sql params log) = (log ++ sent)%list /\
    (queries sent <= 5)%nat /\
    0 <= pauses sent <= 4 /\
    fst (execute db connect sql params log) <> Returned None /\
    (forall rows, fst (execute db connect sql params log) = Returned (Some rows) ->
       exists before, sent = (before ++ [Query sql params])%list /\
                      db (log ++ before)%list (Query sql params) = Rows rows).
Proof.
  unfold execute.
  destruct (execute_loop_bounds sql params max_retries log) as (sent & E & Q & P & N & R).
  exists sent. split; [exact E|]. split; [exact Q|]. split; [exact P|].
  split; [|exact R]. intros H. apply N in H. discriminate H.
Qed.

(** When every query fails with an operational error and every new
    connection succeeds, [execute] gives up with [DatabaseError] after
    five queries, with a pause of one second and a new connection between
    two of them. *)
Theorem execute_exhausted sql params log :
  (forall l, db l (Query sql params) = Raises OperationalError) ->
  (forall l, connect l = None) ->
  execute db connect sql params log
  = (Raised DatabaseError,
     log ++ [Query sql params; Sleep 1; Connect; Query sql params; Sleep 1; Connect;
             Query sql params; Sleep 1; Connect; Query sql params; Sleep 1; Connect;
             Query sql params])%list.
Proof.
  intros Hdb Hc. unfold execute, max_retries. cbn [execute_loop].
  rewrite !Hdb, !Hc. rewrite <- !app_assoc. reflexivity.
Qed.

End Retries.

(** A database that is down. *)
Lemma execute_exhausted_witness :
  let db := fun (_ : list DBFunctions.db_event) (_ : DBFunctions.db_event) =>
              DBFunctions.Raises DBFunctions.OperationalError in
  let connect := fun _ : list DBFunctions.db_event => @None DBFunctions.db_exn in
  let q := DBFunctions.Query "SELECT 1" None in
  fst (DBFunctions.execute db connect "SELECT 1" None []) = DBFunctions.Raised DBFunctions.DatabaseError /\
  queries (snd (DBFunctions.execute db connect "SELECT 1" None [])) = 5%nat /\
  pauses (snd (DBFunctions.execute db connect "SELECT 1" None [])) = 4.
Proof.
  intros db connect q.
  rewrite (execute_exhausted db connect "SELECT 1" None []); [|reflexivity|reflexivity].
  repeat split.
Defined.

(** ** The user analysis *)

Lemma base36encode_val_TypeError v e : base36encode_val v = Err e -> e = TypeError.
Proof.
  destruct v as [|b|n|q|s|l|m]; cbn [base36encode_val]; intros H; try congruence.
  - destruct (base36encode_total (if b then 1 else 0)) as (s & Hs & _). congruence.
  - destruct (base36encode_total n) as (s & Hs & _). congruence.
Qed.

Lemma rename_bucket_err bucket e :
  User.rename_bucket bucket = Err e -> e <> RequestException.
Proof.
  unfold User.rename_bucket. intros H.
  destruct bucket as [| | | | | |m]; try (cbn in H; congruence).
  cbn [py_getitem] in H. unfold getitem in H.
  destruct (m !! "key") as [key|]; cbn [mbind result_bind] in H; [|congruence].
  destruct (base36encode_val key) as [k36|e'] eqn:Hk; cbn [mbind result_bind] in H;
    [discriminate|].
  apply base36encode_val_TypeError in Hk. congruence.
Qed.

Lemma traverse_err {A B} (f : A -> result B) (P : exn -> Prop) l e :
  (forall a e, f a = Err e -> P e) -> traverse f l = Err e -> P e.
Proof.
  intros Hf. induction l as [|a l IH]; simpl; [discriminate|].
  destruct (f a) as [b|e'] eqn:Ha; cbn [mbind result_bind].
  - destruct (traverse f l) as [bs|e'']; cbn [mbind result_bind]; [discriminate|].
    intros [= <-]. apply IH. reflexivity.
  - intros [= <-]. eapply Hf, Ha.
Qed.

Lemma convert_link_ids_err es e :
  User.convert_link_ids es = Err e -> e <> RequestException.
Proof.
  unfold User.convert_link_ids. intros H.
  destruct es as [| | | | | |m]; try (cbn in H; congruence).
  cbn [py_get mbind result_bind] in H.
  destruct (default (VDict ∅) (m !! "aggregations")) as [| | | | | |a];
    try (cbn in H; congruence).
  cbn [py_get mbind result_bind] in H.
  destruct (default (VDict ∅) (a !! "link_id")) as [| | | | | |l];
    try (cbn in H; congruence).
  cbn [py_get mbind result_bind] in H.
  destruct (py_truthy (default VNone (l !! "buckets"))); [|discriminate].
  destruct (py_iter (default VNone (l !! "buckets"))) as [items|e'] eqn:Hi;
    cbn [mbind result_bind] in H.
  - destruct (traverse User.rename_bucket items) as [renamed|e''] eqn:Ht;
      cbn [mbind result_bind] in H.
    + destruct (default VNone (l !! "buckets")); discriminate H.
    + injection H as <-.
      apply (traverse_err _ (fun e => e <> RequestException) _ _ rename_bucket_err Ht).
  - injection H as <-. destruct (default VNone (l !! "buckets")); cbn in Hi; congruence.
Qed.

Section UserRequests.

Variable net : list request -> request -> outcome.
Variables es_primary es_fallback : string.
Variable execution_time : Q.

Lemma attempt_run url q tr :
  let r := mkRequest url (SearchBody q) 30 in
  if failed (net tr r)
  then User.attempt net url q tr = (Err RequestException, tr ++ [r])%list
  else exists x, User.attempt net url q tr = (x, tr ++ [r])%list /\ x <> Err RequestException.
Proof.
  intros r. subst r. unfold User.attempt.
  unfold requests_get, raise_for_status, failed, mbind, net_bind, lift.
  destruct (net tr _) as [|resp]; [reflexivity|].
  destruct ((400 <=? resp_status resp) && (resp_status resp <? 600)); [reflexivity|].
  unfold User.json_loads.
  destruct (resp_json resp) as [v|e].
  - destruct (User.convert_link_ids v) as [v'|e'] eqn:Hc.
    + eexists. split; [reflexivity | discriminate].
    + eexists. split; [reflexivity|]. intros [= ->].
      apply (convert_link_ids_err _ _ Hc). reflexivity.
  - eexists. split; [reflexivity | discriminate].
Qed.

(** The user analysis sends its query, which is the same for every
    request on an author, to the primary endpoint and, only when that
    request fails, once more to the fallback endpoint. An answer that
    cannot be processed is not retried. When both requests fail the reply
    is the error body with status 500, not an exception. *)
Theorem user_on_get_requests author tr :
  let q := User.query author in
  let first := mkRequest (es_primary ++ User.es_index) (SearchBody q) 30 in
  let second := mkRequest (es_fallback ++ User.es_index) (SearchBody q) 30 in
  exists r,
    User.on_get net es_primary es_fallback execution_time author tr
    = (r, tr ++ (if failed (net tr first) then [first; second] else [first]))%list /\
    (failed (net tr first) = true -> failed (net (tr ++ [first])%list second) = true ->
     r = Ok User.Failed500).
Proof.
  intros q first second. unfold User.on_get. fold q.
  unfold mbind at 1. unfold net_bind at 1. unfold except_RequestException.
  unfold mbind at 1. unfold net_bind at 1.
  pose proof (attempt_run (es_primary ++ User.es_index) q tr) as H1. cbv zeta in H1.
  fold first in H1. destruct (failed (net tr first)) eqn:F1.
  - rewrite H1.
    unfold mbind at 1. unfold net_bind at 1.
    pose proof (attempt_run (es_fallback ++ User.es_index) q (tr ++ [first])%list) as H2.
    cbv zeta in H2. fold second in H2.
    destruct (failed (net (tr ++ [first])%list second)) eqn:F2.
    + rewrite H2. rewrite <- app_assoc. eexists. split; reflexivity.
    + destruct H2 as (x & -> & Hx). rewrite <- app_assoc.
      destruct x as [v|e].
      * eexists. split; [reflexivity | discriminate].
      * destruct e; first [eexists; split; [reflexivity | discriminate] | congruence].
  - destruct H1 as (x & -> & Hx).
    destruct x as [v|e].
    + eexists. split; [reflexivity | discriminate].
    + destruct e; first [congruence | eexists; split; [reflexivity | discriminate]].
Qed.

End UserRequests.
